(** * Si5351 frequency planning: a shallow embedding of si5351-experiments.c

    The program works on IEEE 754 binary64 numbers ([double]) and on
    32-bit unsigned integers.  Doubles are modelled by the Standard
    Library's executable specification of binary floating point
    ([SpecFloat], precision 53, maximal exponent 1024, rounding to
    nearest even); [uint32_t] values are integers of [Z] with the
    wrap-around modulo 2^32 written out.

    The first part of the file holds the definitions: the model of the
    program, then the notions the proofs need (the value of a double as
    a real number, what it means for a rounding to be correct).  The
    second part holds the lemmas on [SpecFloat] and on the loops, and the
    theorems on the program. *)

From Stdlib Require Import ZArith List Bool Lia Sorted.
From Stdlib Require Import SpecFloat.
From Stdlib Require Import Reals Lra.
Import ListNotations.

Local Open Scope Z_scope.

(** ** Doubles *)

Module Dbl.

Definition prec : Z := 53.
Definition emax : Z := 1024.

Definition double : Type := spec_float.

Definition fdiv : double -> double -> double := SFdiv prec emax.
Definition fmul : double -> double -> double := SFmul prec emax.
Definition fsub : double -> double -> double := SFsub prec emax.
Definition fadd : double -> double -> double := SFadd prec emax.
Definition fabs : double -> double := SFabs.
Definition flt : double -> double -> bool := SFltb.
Definition fle : double -> double -> bool := SFleb.

(** [(double) z] for an integer [z]; exact below 2^53. *)
Definition of_Z (z : Z) : double := binary_normalize prec emax z 0 false.

(** The double of sign [s] and magnitude [z * 2^e], for [0 <= z]. *)
Definition normalize (s : bool) (z e : Z) : double :=
  match z with
  | Zpos p => binary_round prec emax s p e
  | _ => S754_zero s
  end.

(** [modf x] is the pair (fractional part, integral part), both with
    the sign of [x], as the C library computes them. *)
Definition modf (x : double) : double * double :=
  match x with
  | S754_nan => (S754_nan, S754_nan)
  | S754_infinity s => (S754_zero s, x)
  | S754_zero _ => (x, x)
  | S754_finite s m e =>
      if 0 <=? e then (S754_zero s, x)
      else (normalize s (Zpos m mod 2 ^ (- e)) e,
            normalize s (Zpos m / 2 ^ (- e)) 0)
  end.

(** Rounding toward zero to an integer; nothing for NaN and the
    infinities. *)
Definition trunc (x : double) : option Z :=
  match x with
  | S754_zero _ => Some 0
  | S754_finite s m e =>
      Some (cond_Zopp s (if 0 <=? e then Zpos m * 2 ^ e
                         else Zpos m / 2 ^ (- e)))
  | _ => None
  end.

(** [(uint32_t) x].  In range the conversion truncates.  ISO C leaves
    the other cases undefined; the model takes what the x86-64 code of
    the usual compilers yields: a conversion to a 64-bit integer whose
    low 32 bits are kept, the 64-bit conversion giving 2^63 when it
    overflows or meets a NaN. *)
Definition to_uint32 (x : double) : Z :=
  match trunc x with
  | Some t => if Z.abs t <? 2 ^ 63 then t mod 2 ^ 32 else 0
  | None => 0
  end.

End Dbl.

Import Dbl.

Definition u32 (z : Z) : Z := z mod 2 ^ 32.
Definition u8 (z : Z) : Z := z mod 2 ^ 8.

(** ** Constants of the program *)

Definition MAX_CLOCKS : Z := 3.
Definition SI5351_MIN_VCO_FREQ : double := of_Z 600000000.
Definition SI5351_MAX_VCO_FREQ : double := of_Z 1000000000.
Definition SI5351_MAX_DENOMINATOR : Z := 1048575.
Definition SI5351_MIN_CLKIN_FREQ : double := of_Z 10000000.
Definition SI5351_MAX_CLKIN_FREQ : double := of_Z 100000000.
(** [1e-8] and [1e-5]: the doubles nearest to the decimal literals, which
    the correctly rounded quotients of the exact integers are. *)
Definition CLOCK_TOLERANCE : double := fdiv (of_Z 1) (of_Z 100000000).
Definition epsilon : double := fdiv (of_Z 1) (of_Z 100000).

(** ** rational_approximation *)

(** The cells behind the pointers [a], [b], [c]. *)
Record ratio : Type := Ratio { ra : Z; rb : Z; rc : Z }.

(** What the semiconvergent scan updates: [delta] and the cells [*b], [*c]. *)
Record best : Type := Best { delta : double; best_b : Z; best_c : Z }.

(** The absolute error the code computes for a candidate:
    [fabs((double) hm / (double) km - f0)]. *)
Definition cand_err (f0 : double) (hm km : Z) : double :=
  fabs (fsub (fdiv (of_Z hm) (of_Z km)) f0).

(** [if (d < delta) { delta = d; *b = hm; *c = km; }] *)
Definition improve (f0 : double) (hm km : Z) (bs : best) : best :=
  let d := cand_err f0 hm km in
  if flt d (delta bs) then Best d hm km else bs.

(** The inner [for] loop, entered with the current [m].  [None] stands
    for a loop that does not end. *)
Fixpoint scan (fuel : nat) (f0 : double) (D an h0 h1 k0 k1 m : Z)
    (bs : best) : option best :=
  match fuel with
  | O => None
  | S fuel' =>
      if m <=? an then
        let hm := u32 (m * h1 + h0) in
        let km := u32 (m * k1 + k0) in
        if km >? D then Some bs
        else scan fuel' f0 D an h0 h1 k0 k1 (u32 (m + 1))
               (improve f0 hm km bs)
      else Some bs
  end.

(** The loop variables of the continued-fraction expansion: [f], the
    arrays [h] and [k], and what the scan updates. *)
Record cf_state : Type := CF {
  cf_f : double;
  cf_h0 : Z; cf_h1 : Z;
  cf_k0 : Z; cf_k1 : Z;
  cf_best : best
}.

(** The counter [m] is a [uint32_t]: it takes at most 2^32 values, and
    the candidates depend on nothing else, so a scan that has not left
    after [an + 2] tests never leaves. *)
Definition scan_fuel (an : Z) : nat := Z.to_nat an + 2.

(** One pass through the body of the outer loop, after the test of [f]. *)
Definition expand_step (f0 : double) (D : Z) (st : cf_state)
    : option cf_state :=
  let '(f', anf) := modf (fdiv (of_Z 1) (cf_f st)) in
  let an := to_uint32 anf in
  match scan (scan_fuel an) f0 D an (cf_h0 st) (cf_h1 st) (cf_k0 st)
          (cf_k1 st) (u32 (an + 1) / 2) (cf_best st) with
  | None => None
  | Some bs =>
      Some (CF f' (cf_h1 st) (u32 (an * cf_h1 st + cf_h0 st))
               (cf_k1 st) (u32 (an * cf_k1 st + cf_k0 st)) bs)
  end.

(** The outer loop with [i] iterations left. *)
Fixpoint expand (i : nat) (f0 : double) (D : Z) (st : cf_state)
    : option best :=
  match i with
  | O => Some (cf_best st)
  | S i' =>
      if fle (cf_f st) epsilon then Some (cf_best st)
      else match expand_step f0 D st with
           | None => None
           | Some st' => expand i' f0 D st'
           end
  end.

(** [rational_approximation value max_denominator a b c], run with the
    cells [*a], [*b], [*c] holding [out0] at the call; the result is
    their content at the return. *)
Definition rational_approximation (value : double) (max_denominator : Z)
    (out0 : ratio) : option ratio :=
  let '(f0, af) := modf value in
  let out1 := Ratio (to_uint32 af) 0 1 in
  match expand 100 f0 max_denominator
          (CF f0 1 0 0 1 (Best f0 (rb out1) (rc out1))) with
  | Some bs => Some (Ratio (ra out1) (best_b bs) (best_c bs))
  | None => None
  end.

(** ** main *)

(** The messages that end a run with [EXIT_FAILURE]. *)
Inductive fatal : Type :=
| TooManyArguments
| XtalOutOfRange
| ClockTooLow
| InvalidOutputMS (output_ms : Z)
| InvalidFeedbackMS (feedback_ms : Z)
| InvalidFeedbackMSAt90.

(** How a run ends.  [NullArgument]: no argument at all, so that
    [sscanf] is handed [argv[argc]], the null pointer.  [Diverges]: a
    loop does not end. *)
Inductive status : Type :=
| EXIT_SUCCESS
| EXIT_FAILURE (why : fatal)
| NullArgument
| Diverges.

(** The [is_integer] suffix of a report line. *)
Inductive integer_flag : Type := NotInteger | OddInteger | EvenInteger.

Definition is_integer (a b : Z) : integer_flag :=
  if b =? 0 then (if a mod 2 =? 0 then EvenInteger else OddInteger)
  else NotInteger.

(** A line for one of the additional clocks, with the difference line
    when one is printed. *)
Record clock_line : Type := ClockLine {
  cl_nclk : Z;
  cl_ratio : ratio;
  cl_actual_clk : double;
  cl_flag : integer_flag;
  cl_diff : option double
}.

(** What the program writes: the blocks on [stdout] and the rejections
    on [stderr], in the order of the writes. *)
Inductive event : Type :=
| ClkinDivLine (clkin_div : Z)
| RejectedFeedback (feedback_ms : double) (output_ms : Z) (f_vco : double)
| PlanA (output_ms : Z) (f_vco feedback_ms : double) (r : ratio)
        (actual_pll_freq actual_clk0 : double) (flag : integer_flag)
        (clk0_diff : option double) (others : list clock_line)
| PlanB (feedback_ms : Z) (output_ms : double) (r : ratio)
        (actual_pll_freq actual_clk0 : double) (flag : integer_flag)
        (clk0_diff : option double) (others : list clock_line).

(** [a + (double)b / (double)c] *)
Definition ratio_value (r : ratio) : double :=
  fadd (of_Z (ra r)) (fdiv (of_Z (rb r)) (of_Z (rc r))).

(** The difference that is printed when it is out of tolerance. *)
Definition flagged_diff (clk_diff : double) : option double :=
  if fle clk_diff (SFopp CLOCK_TOLERANCE) || fle CLOCK_TOLERANCE clk_diff
  then Some clk_diff else None.

(** [while (xtal > 40e6 && clkin_div <= 3)] *)
Fixpoint clkin_loop (fuel : nat) (xtal : double) (clkin_div : Z)
    : option (double * Z) :=
  match fuel with
  | O => None
  | S fuel' =>
      if flt (of_Z 40000000) xtal && (clkin_div <=? 3)
      then clkin_loop fuel' (fdiv xtal (of_Z 2)) (u8 (clkin_div + 1))
      else Some (xtal, clkin_div)
  end.

(** [while (r_clk0 < 1e6 && rdiv <= 7)] *)
Fixpoint rdiv_loop (fuel : nat) (r_clk0 : double) (rdiv : Z)
    : option (double * Z) :=
  match fuel with
  | O => None
  | S fuel' =>
      if flt r_clk0 (of_Z 1000000) && (rdiv <=? 7)
      then rdiv_loop fuel' (fmul r_clk0 (of_Z 2)) (u8 (rdiv + 1))
      else Some (r_clk0, rdiv)
  end.

(** The variables of [main] that the two scenarios read. *)
Record env : Type := Env {
  xtal_orig : double;
  xtal : double;
  xtal_div : Z;
  clks : nat -> double;
  nclks : Z;
  r_clk0 : double;
  rdiv : Z
}.

(** The test that skips a candidate of the first scenario:
    [feedback_ms < 15 || feedback_ms > 90]. *)
Definition out_of_band (feedback_ms : double) : bool :=
  flt feedback_ms (of_Z 15) || flt (of_Z 90) feedback_ms.

Section Main.

(** The stack of [main] before anything is stored in it: the array
    [clks] and the cells [a], [b], [c]. *)
Variable junk_clks : nat -> double.
Variable junk_out : ratio.

(** The [sscanf] loop: [clks[i-2]] receives [argv[i]]; the other
    elements keep what they held. *)
Definition parse_clks (cs : list double) : nat -> double :=
  fun i => nth i cs (junk_clks i).

(** The lines of the additional clocks, [nclk = 1 .. nclks - 1]. *)
Fixpoint additional_clocks (e : env) (actual_pll_freq : double)
    (idx : list nat) : option (list clock_line) :=
  match idx with
  | [] => Some []
  | nclk :: rest =>
      let clk_output_ms := fdiv actual_pll_freq (clks e nclk) in
      match rational_approximation clk_output_ms SI5351_MAX_DENOMINATOR
              junk_out with
      | None => None
      | Some r =>
          let clk_actual_ratio := ratio_value r in
          match additional_clocks e actual_pll_freq rest with
          | None => None
          | Some ls =>
              if flt clk_actual_ratio (of_Z 4)
                 || flt (of_Z 900) clk_actual_ratio
              then Some ls
              else
                let actual_clk := fdiv actual_pll_freq clk_actual_ratio in
                let clk_diff := fsub actual_clk (clks e nclk) in
                Some (ClockLine (Z.of_nat nclk) r actual_clk
                        (is_integer (ra r) (rb r)) (flagged_diff clk_diff)
                      :: ls)
          end
      end
  end.

Definition clock_indices (e : env) : list nat :=
  seq 1 (Z.to_nat (nclks e) - 1).

(** *** First scenario *)

Definition initial_output_ms (e : env) : Z :=
  let output_ms := to_uint32 (fdiv SI5351_MAX_VCO_FREQ (r_clk0 e)) in
  u32 (output_ms - output_ms mod 2).

Definition f_vco_a (e : env) (output_ms : Z) : double :=
  fmul (r_clk0 e) (of_Z output_ms).

Definition feedback_ms_a (e : env) (output_ms : Z) : double :=
  fdiv (f_vco_a e output_ms) (xtal e).

(** The test that leaves the loop. *)
Definition stops_a (e : env) (output_ms : Z) : bool :=
  (output_ms <? 4) || flt (f_vco_a e output_ms) SI5351_MIN_VCO_FREQ.

Definition rejects_a (e : env) (output_ms : Z) : bool :=
  out_of_band (feedback_ms_a e output_ms).

(** What one candidate that passed both tests writes. *)
Definition plan_a (e : env) (output_ms : Z) : option event :=
  let f_vco := f_vco_a e output_ms in
  let feedback_ms := feedback_ms_a e output_ms in
  match rational_approximation feedback_ms SI5351_MAX_DENOMINATOR
          junk_out with
  | None => None
  | Some r =>
      let actual_ratio := ratio_value r in
      let actual_pll_freq := fmul (xtal e) actual_ratio in
      let actual_clk0 :=
        fdiv (fdiv actual_pll_freq (of_Z output_ms))
             (of_Z (Z.shiftl 1 (rdiv e))) in
      let clk_diff := fsub actual_clk0 (clks e 0%nat) in
      match additional_clocks e actual_pll_freq (clock_indices e) with
      | None => None
      | Some ls =>
          Some (PlanA output_ms f_vco feedback_ms r actual_pll_freq
                  actual_clk0 (is_integer (ra r) (rb r))
                  (flagged_diff clk_diff) ls)
      end
  end.

(** The [while (1)] loop of the first scenario, entered with the
    current candidate. *)
Fixpoint scenario_a_loop (fuel : nat) (e : env) (output_ms : Z)
    : option (list event) :=
  match fuel with
  | O => None
  | S fuel' =>
      if stops_a e output_ms then Some []
      else if rejects_a e output_ms then
        option_map
          (cons (RejectedFeedback (feedback_ms_a e output_ms) output_ms
                   (f_vco_a e output_ms)))
          (scenario_a_loop fuel' e (u32 (output_ms - 2)))
      else
        match plan_a e output_ms with
        | None => None
        | Some ev =>
            option_map (cons ev)
              (scenario_a_loop fuel' e (u32 (output_ms - 2)))
        end
  end.

(** A candidate is below 2^32 and every turn lowers it by 2 while it
    is at least 4. *)
Definition loop_fuel (candidate : Z) : nat := Z.to_nat candidate + 1.

(** *** Second scenario *)

Definition initial_feedback_ms (e : env) : Z :=
  let feedback_ms := to_uint32 (fdiv SI5351_MAX_VCO_FREQ (xtal e)) in
  u32 (feedback_ms - feedback_ms mod 2).

Definition f_vco_b (e : env) (feedback_ms : Z) : double :=
  fmul (xtal e) (of_Z feedback_ms).

Definition stops_b (e : env) (feedback_ms : Z) : bool :=
  (feedback_ms <? 16) || flt (f_vco_b e feedback_ms) SI5351_MIN_VCO_FREQ.

Definition plan_b (e : env) (feedback_ms : Z) : option event :=
  let f_vco := f_vco_b e feedback_ms in
  let output_ms := fdiv f_vco (r_clk0 e) in
  match rational_approximation output_ms SI5351_MAX_DENOMINATOR
          junk_out with
  | None => None
  | Some r =>
      let actual_pll_freq := fmul (xtal e) (of_Z feedback_ms) in
      let actual_ratio := ratio_value r in
      let actual_clk0 :=
        fdiv (fdiv actual_pll_freq actual_ratio)
             (of_Z (Z.shiftl 1 (rdiv e))) in
      let clk_diff := fsub actual_clk0 (clks e 0%nat) in
      match additional_clocks e actual_pll_freq (clock_indices e) with
      | None => None
      | Some ls =>
          Some (PlanB feedback_ms output_ms r actual_pll_freq actual_clk0
                  (is_integer (ra r) (rb r)) (flagged_diff clk_diff) ls)
      end
  end.

Fixpoint scenario_b_loop (fuel : nat) (e : env) (feedback_ms : Z)
    : option (list event) :=
  match fuel with
  | O => None
  | S fuel' =>
      if stops_b e feedback_ms then Some []
      else
        match plan_b e feedback_ms with
        | None => None
        | Some ev =>
            option_map (cons ev)
              (scenario_b_loop fuel' e (u32 (feedback_ms - 2)))
        end
  end.

(** *** The stages of [main] *)

(** The test of [argc]. *)
Definition too_many_arguments (argc : Z) : bool := argc >? MAX_CLOCKS + 2.

(** The range test of the reference. *)
Definition xtal_out_of_range (x : double) : bool :=
  flt x SI5351_MIN_CLKIN_FREQ || flt SI5351_MAX_CLKIN_FREQ x.

(** From the arguments to the variables the scenarios read: the
    parsing, the range test of the reference, the two dividers.
    [argv] holds the numbers [sscanf] reads off [argv[1]], [argv[2]],
    ...; [argc] is one more than their count. *)
Definition setup (argv : list double) : list event * (status + env) :=
  let argc := Z.of_nat (length argv) + 1 in
  if too_many_arguments argc then ([], inl (EXIT_FAILURE TooManyArguments))
  else
    match argv with
    | [] => ([], inl NullArgument)
    | x :: cs =>
        let clks := parse_clks cs in
        let nclks := argc - 2 in
        if xtal_out_of_range x then ([], inl (EXIT_FAILURE XtalOutOfRange))
        else
          match clkin_loop 5 x 0 with
          | None => ([], inl Diverges)
          | Some (xtal, clkin_div) =>
              let out := if 0 <? clkin_div then [ClkinDivLine clkin_div]
                         else [] in
              let xtal_div := Z.shiftl 1 clkin_div in
              match rdiv_loop 9 (clks 0%nat) 0 with
              | None => (out, inl Diverges)
              | Some (r_clk0, rdiv) =>
                  if flt r_clk0 (of_Z 1000000)
                  then (out, inl (EXIT_FAILURE ClockTooLow))
                  else (out, inr (Env x xtal xtal_div clks nclks
                                      r_clk0 rdiv))
              end
          end
    end.

Definition scenario_a (e : env) : list event * option status :=
  let output_ms := initial_output_ms e in
  if (output_ms <? 4) || (900 <? output_ms)
  then ([], Some (EXIT_FAILURE (InvalidOutputMS output_ms)))
  else match scenario_a_loop (loop_fuel output_ms) e output_ms with
       | None => ([], Some Diverges)
       | Some evs => (evs, None)
       end.

Definition scenario_b (e : env) : list event * status :=
  let feedback_ms := initial_feedback_ms e in
  if feedback_ms <? 16
  then ([], EXIT_FAILURE (InvalidFeedbackMS feedback_ms))
  else
    let clamped := 90 <? feedback_ms in
    let feedback_ms := if clamped then 90 else feedback_ms in
    if clamped && flt (fmul (xtal e) (of_Z feedback_ms)) SI5351_MIN_VCO_FREQ
    then ([], EXIT_FAILURE InvalidFeedbackMSAt90)
    else match scenario_b_loop (loop_fuel feedback_ms) e feedback_ms with
         | None => ([], Diverges)
         | Some evs => (evs, EXIT_SUCCESS)
         end.

Definition main (argv : list double) : list event * status :=
  match setup argv with
  | (out, inl st) => (out, st)
  | (out, inr e) =>
      match scenario_a e with
      | (evs, Some st) => (out ++ evs, st)
      | (evs, None) =>
          let '(evs', st) := scenario_b e in (out ++ evs ++ evs', st)
      end
  end.

End Main.

(** ** Notions for the statements *)

(** A well-formed double: the mantissa and the exponent of a finite
    number are those of its binary64 encoding. *)
Definition valid (x : double) : Prop := valid_binary prec emax x = true.

(** A finite double that is not negative ([-0.0] included). *)
Definition nonneg_finite (x : double) : Prop :=
  match x with
  | S754_zero _ => True
  | S754_finite s _ _ => s = false
  | _ => False
  end.

(** The candidates the scan computes an error for, in the order of the
    visits. *)
Fixpoint scan_cands (fuel : nat) (D an h0 h1 k0 k1 m : Z) : list (Z * Z) :=
  match fuel with
  | O => []
  | S fuel' =>
      if m <=? an then
        let hm := u32 (m * h1 + h0) in
        let km := u32 (m * k1 + k0) in
        if km >? D then []
        else (hm, km) :: scan_cands fuel' D an h0 h1 k0 k1 (u32 (m + 1))
      else []
  end.

Definition step_cands (D : Z) (st : cf_state) : list (Z * Z) :=
  let an := to_uint32 (snd (modf (fdiv (of_Z 1) (cf_f st)))) in
  scan_cands (scan_fuel an) D an (cf_h0 st) (cf_h1 st) (cf_k0 st) (cf_k1 st)
    (u32 (an + 1) / 2).

Fixpoint expand_cands (i : nat) (f0 : double) (D : Z) (st : cf_state)
    : list (Z * Z) :=
  match i with
  | O => []
  | S i' =>
      if fle (cf_f st) epsilon then []
      else step_cands D st ++
           match expand_step f0 D st with
           | None => []
           | Some st' => expand_cands i' f0 D st'
           end
  end.

(** All the candidates of a call, the default [(0, 1)] left out. *)
Definition scanned (value : double) (D : Z) : list (Z * Z) :=
  let f0 := fst (modf value) in
  expand_cands 100 f0 D (CF f0 1 0 0 1 (Best f0 0 1)).

(** The running best as a fold over the candidates. *)
Definition improve_all (f0 : double) (cs : list (Z * Z)) (bs : best) : best :=
  fold_left (fun bs c => improve f0 (fst c) (snd c) bs) cs bs.

(** [n] passes through the body of the outer loop. *)
Fixpoint steps (n : nat) (f0 : double) (D : Z) (st : cf_state)
    : option cf_state :=
  match n with
  | O => Some st
  | S n' =>
      match expand_step f0 D st with
      | None => None
      | Some st' => steps n' f0 D st'
      end
  end.

(** The output divider an event of the first scenario is about. *)
Definition candidate_of (ev : event) : list Z :=
  match ev with
  | RejectedFeedback _ output_ms _ => [output_ms]
  | PlanA output_ms _ _ _ _ _ _ _ _ => [output_ms]
  | _ => []
  end.

Definition candidates (evs : list event) : list Z := flat_map candidate_of evs.

(** [c0], [c0 - 2], ..., [n] of them. *)
Definition descending (c0 : Z) (n : nat) : list Z :=
  map (fun i => c0 - 2 * Z.of_nat i) (seq 0 n).

(** The output divider and the feedback ratio of the plans, and of the
    rejections, of the first scenario. *)
Definition plan_feedbacks (evs : list event) : list (Z * double) :=
  flat_map (fun ev => match ev with
                      | PlanA output_ms _ feedback_ms _ _ _ _ _ _ =>
                          [(output_ms, feedback_ms)]
                      | _ => []
                      end) evs.

Definition rejected_feedbacks (evs : list event) : list (Z * double) :=
  flat_map (fun ev => match ev with
                      | RejectedFeedback feedback_ms output_ms _ =>
                          [(output_ms, feedback_ms)]
                      | _ => []
                      end) evs.

(** The variables of [main] after [setup], for a reference of 40 MHz
    and a clock of 10 MHz, and for 25 MHz and 14.2 MHz. *)
Definition env_40_10 : env :=
  Env (of_Z 40000000) (of_Z 40000000) 1
      (parse_clks (fun _ => S754_nan) [of_Z 10000000]) 1 (of_Z 10000000) 0.

Definition env_25_14 : env :=
  Env (of_Z 25000000) (of_Z 25000000) 1
      (parse_clks (fun _ => S754_nan) [of_Z 14200000]) 1 (of_Z 14200000) 0.

(** ** Notions for the proofs on [SpecFloat] *)

(** The number of binary digits, and the exponent of the format for a
    number of that magnitude. *)
Definition dig (m : Z) : Z := Zdigits2 m.
Definition fexp (e : Z) : Z := SpecFloat.fexp prec emax e.

(** Whether bits were lost: by a shift, or before it. *)
Definition sticky (r : shr_record) : bool := shr_r r || shr_s r.

Definition inexact (l : location) : bool :=
  match l with loc_Exact => false | _ => true end.

(** What [binary_round_aux] returns, in terms of the mantissa [m] it
    rounded to at the exponent [e]. *)
Definition round_result (sx : bool) (m e : Z) : spec_float :=
  if m =? 0 then S754_zero sx
  else if m =? 2 ^ 53 then
    (if e + 1 <=? 971 then S754_finite sx (Z.to_pos (2 ^ 52)) (e + 1)
     else S754_infinity sx)
  else (if e <=? 971 then S754_finite sx (Z.to_pos m) e
        else S754_infinity sx).

(** The real number [m * 2^e]. *)
Definition bpow (e : Z) : R := powerRZ 2 e.
Definition F2R (m e : Z) : R := (IZR m * bpow e)%R.

(** [(m, e)] is the mantissa and the exponent of a double. *)
Definition canonical (m e : Z) : Prop := 0 < m /\ fexp (dig m + e) = e.

(** A real number that a double holds exactly. *)
Definition representable (x : R) : Prop :=
  exists t et, canonical t et /\ F2R t et = x.

(** [r] is the float of sign [sx] whose magnitude stands for [v]: zero,
    a finite double of value [v], or an infinity for a [v] out of
    range. *)
Definition rounds_to (sx : bool) (r : spec_float) (v : R) : Prop :=
  (r = S754_zero sx /\ v = 0%R) \/
  (exists m e, r = S754_finite sx m e /\ canonical (Zpos m) e /\ e <= 971
               /\ v = F2R (Zpos m) e) \/
  (r = S754_infinity sx /\ (bpow 1024 <= v)%R).

(** [v] is [x] rounded up or down: no double lies strictly between
    them. *)
Definition thresholds (x v : R) : Prop :=
  (forall t et, canonical t et -> (F2R t et <= x)%R -> (F2R t et <= v)%R) /\
  (forall t et, canonical t et -> (x <= F2R t et)%R -> (v <= F2R t et)%R).

(** A finite non-negative double and its value. *)
Definition nn (x : double) (v : R) : Prop :=
  rounds_to false x v /\ (v < bpow 1024)%R.

(** The integer a non-negative double truncates to. *)
Definition floor_of (m e : Z) : Z :=
  if 0 <=? e then m * 2 ^ e else m / 2 ^ (- e).

(** The pairs [(b, c)] a call can return. *)
Definition shape (b c : Z) : Prop :=
  (b = 0 /\ c = 1) \/ (b = 1 /\ c = 1) \/ 0 < b < c.

(** The invariant of the running best: an error of at most [Bnd], a
    pair of the right shape, a denominator within the bound. *)
Definition inv (D : Z) (Bnd : R) (bs : best) : Prop :=
  exists v, nn (delta bs) v /\ (v <= Bnd)%R
            /\ shape (best_b bs) (best_c bs) /\ 1 <= best_c bs <= D.

(** ** Notions for the properties of [main] *)

(** The real number a finite double holds; 0 for the others. *)
Definition B2R (x : double) : R :=
  match x with
  | S754_finite s m e => F2R (cond_Zopp s (Zpos m)) e
  | _ => 0%R
  end.

(** A zero or a finite number: neither a NaN nor an infinity. *)
Definition is_finite (x : double) : bool :=
  match x with
  | S754_zero _ | S754_finite _ _ _ => true
  | _ => false
  end.

(** The feedback divider an event of the second scenario is about. *)
Definition feedback_of (ev : event) : list Z :=
  match ev with
  | PlanB feedback_ms _ _ _ _ _ _ _ => [feedback_ms]
  | _ => []
  end.

Definition feedbacks (evs : list event) : list Z := flat_map feedback_of evs.

(** A double that is zero, negative or the negative infinity. *)
Definition nonpos_double (x : double) : Prop :=
  match x with
  | S754_zero _ | S754_finite true _ _ | S754_infinity true => True
  | _ => False
  end.

(** The double 2^k, for [k] from -1022 to 1023. *)
Definition pow2 (k : Z) : double := S754_finite false 4503599627370496 (k - 52).

(** ** Notions in exact arithmetic *)

(** The error of the fraction [b/c] for the fractional part of [value],
    as a real number: [|b/c - f0|] without any rounding. *)
Definition exact_err (value : double) (b c : Z) : R :=
  Rabs (IZR b / IZR c - B2R (fst (modf value))).

(** The double of fractional part 0.1622..., for which two candidates
    of the scan have the same computed error and different exact
    errors. *)
Definition tie_value : double := S754_finite false 5846668878918953 (-55).

(** What the loop of the first scenario writes for a divider that
    passed the test of the loop: a rejection for a feedback ratio
    outside 15..90, a plan otherwise. *)
Definition visit (junk_out : ratio) (e : env) (output_ms : Z) (ev : event)
    : Prop :=
  if rejects_a e output_ms then
    ev = RejectedFeedback (feedback_ms_a e output_ms) output_ms
           (f_vco_a e output_ms)
  else plan_a junk_out e output_ms = Some ev.

(** Two clocks next to a quotient: 55 555 555.555555560 Hz, a double
    just above 1 GHz / 18, and 14 285 714.285714285 Hz, a double just
    below 600 MHz / 42; and the variables of [main] after [setup] for a
    reference of 25 MHz and each of them, and for a reference and a
    clock of 10 MHz. *)
Definition clk_18th : double := S754_finite false 7456540444444445 (-27).
Definition clk_42nd : double := S754_finite false 7669584457142857 (-29).

Definition env_25_18th : env :=
  Env (of_Z 25000000) (of_Z 25000000) 1
      (parse_clks (fun _ => S754_nan) [clk_18th]) 1 clk_18th 0.

Definition env_25_42nd : env :=
  Env (of_Z 25000000) (of_Z 25000000) 1
      (parse_clks (fun _ => S754_nan) [clk_42nd]) 1 clk_42nd 0.

Definition env_10_10 : env :=
  Env (of_Z 10000000) (of_Z 10000000) 1
      (parse_clks (fun _ => S754_nan) [of_Z 10000000]) 1 (of_Z 10000000) 0.

(** * Lemmas *)

(** ** Binary digits and shifts *)

Lemma digits2_pos_size p : digits2_pos p = Pos.size p.
Proof. induction p; simpl; congruence. Qed.

Lemma dig_log2 m : 0 < m -> dig m = Z.log2 m + 1.
Proof.
  destruct m as [|p|p]; try lia. intros _. unfold dig; simpl.
  rewrite digits2_pos_size. destruct p; simpl; lia.
Qed.

Lemma dig_0 : dig 0 = 0.
Proof. reflexivity. Qed.

Lemma dig_nonneg m : 0 <= dig m.
Proof. destruct m; simpl; lia. Qed.

Lemma dig_pos m : 0 < m -> 0 < dig m.
Proof. intros H. rewrite dig_log2 by lia. pose proof (Z.log2_nonneg m). lia. Qed.

Lemma dig_bounds m : 0 < m -> 2 ^ (dig m - 1) <= m < 2 ^ dig m.
Proof.
  intros H. rewrite dig_log2 by lia.
  replace (Z.log2 m + 1 - 1) with (Z.log2 m) by lia.
  apply Z.log2_spec; lia.
Qed.

Lemma dig_unique m d : 0 < d -> 2 ^ (d - 1) <= m < 2 ^ d -> dig m = d.
Proof.
  intros Hd H.
  assert (0 < m) by (pose proof (Z.pow_pos_nonneg 2 (d - 1)); lia).
  rewrite dig_log2 by lia.
  rewrite (Z.log2_unique m (d - 1)); try lia.
  replace (Z.succ (d - 1)) with d by lia. exact H.
Qed.

Lemma dig_le m n : 0 <= m <= n -> dig m <= dig n.
Proof.
  intros [H0 H].
  destruct (Z.eq_dec m 0) as [->|Hm]; [rewrite dig_0; apply dig_nonneg|].
  rewrite !dig_log2 by lia. pose proof (Z.log2_le_mono m n H). lia.
Qed.

Lemma dig_lt_pow m d : 0 <= m -> 0 <= d -> m < 2 ^ d -> dig m <= d.
Proof.
  intros H0 Hd H.
  destruct (Z.eq_dec m 0) as [->|Hm]; [rewrite dig_0; lia|].
  destruct (Z_le_gt_dec (dig m) d) as [|Hgt]; [assumption|exfalso].
  pose proof (dig_bounds m ltac:(lia)) as [Hl _].
  assert (2 ^ d <= 2 ^ (dig m - 1)) by (apply Z.pow_le_mono_r; lia). lia.
Qed.

Lemma dig_ge_pow m d : 0 <= d -> 2 ^ d <= m -> d + 1 <= dig m.
Proof.
  intros Hd H.
  assert (0 < m) by (pose proof (Z.pow_pos_nonneg 2 d); lia).
  destruct (Z_le_gt_dec (d + 1) (dig m)) as [|Hgt]; [assumption|exfalso].
  pose proof (dig_bounds m ltac:(lia)) as [_ Hu].
  assert (2 ^ dig m <= 2 ^ d) by (apply Z.pow_le_mono_r; lia). lia.
Qed.

Lemma dig_shiftr m n : 0 < m -> 0 <= n -> n < dig m -> dig (m / 2 ^ n) = dig m - n.
Proof.
  intros Hm Hn Hd. pose proof (dig_bounds m Hm) as [Hl Hu].
  assert (Hp : 0 < 2 ^ n) by (apply Z.pow_pos_nonneg; lia).
  apply dig_unique; [lia|]. split.
  - apply Z.div_le_lower_bound; [lia|].
    rewrite <- Z.pow_add_r by lia. replace (n + (dig m - n - 1)) with (dig m - 1) by lia. exact Hl.
  - apply Z.div_lt_upper_bound; [lia|].
    rewrite <- Z.pow_add_r by lia. replace (n + (dig m - n)) with (dig m) by lia. exact Hu.
Qed.

Lemma div_small_dig m n : 0 <= m -> 0 <= n -> dig m <= n -> m / 2 ^ n = 0.
Proof.
  intros Hm Hn Hd. apply Z.div_small. split; [lia|].
  destruct (Z.eq_dec m 0) as [->|]; [apply Z.pow_pos_nonneg; lia|].
  pose proof (dig_bounds m ltac:(lia)) as [_ Hu].
  assert (2 ^ dig m <= 2 ^ n) by (apply Z.pow_le_mono_r; lia). lia.
Qed.

Lemma dig_mul_pow2 m k : 0 < m -> 0 <= k -> dig (m * 2 ^ k) = dig m + k.
Proof.
  intros Hm Hk. pose proof (dig_bounds m Hm) as [Hl Hu].
  assert (Hp : 0 < 2 ^ k) by (apply Z.pow_pos_nonneg; lia).
  pose proof (dig_pos m Hm).
  apply dig_unique; [lia|]. split.
  - replace (dig m + k - 1) with ((dig m - 1) + k) by lia.
    rewrite Z.pow_add_r by lia. nia.
  - rewrite Z.pow_add_r by lia. nia.
Qed.

Lemma fexp_eq e : fexp e = Z.max (e - 53) (-1074).
Proof. reflexivity. Qed.

Lemma fexp_mono a b : a <= b -> fexp a <= fexp b.
Proof. rewrite !fexp_eq. lia. Qed.

Lemma iter_pos_inv {A} (f : A -> A) (P : Z -> A -> Prop) :
  (forall k x, 0 <= k -> P k x -> P (k + 1) (f x)) ->
  forall p k x, 0 <= k -> P k x -> P (k + Zpos p) (SpecFloat.iter_pos f p x).
Proof.
  intros Hstep. induction p as [p IH|p IH|]; intros k x Hk Hx; simpl.
  - replace (k + Z.pos p~1) with (((k + 1) + Z.pos p) + Z.pos p) by lia.
    apply IH; [lia|]. apply IH; [lia|]. apply Hstep; assumption.
  - replace (k + Z.pos p~0) with ((k + Z.pos p) + Z.pos p) by lia.
    apply IH; [lia|]. apply IH; assumption.
  - apply Hstep; assumption.
Qed.

Lemma shr_1_spec r : 0 <= shr_m r ->
  shr_m (shr_1 r) = shr_m r / 2 /\
  sticky (shr_1 r) = sticky r || Z.odd (shr_m r).
Proof.
  destruct r as [m rr ss]. unfold sticky; simpl. intros Hm.
  destruct m as [|[p|p|]|p]; simpl; try lia.
  - split; [reflexivity|]. destruct rr, ss; reflexivity.
  - split; [rewrite Pos2Z.inj_xI; rewrite Z.mul_comm, Z.div_add_l by lia; reflexivity|].
    destruct rr, ss; reflexivity.
  - split; [rewrite Pos2Z.inj_xO; rewrite Z.mul_comm, Z.div_mul by lia; reflexivity|].
    destruct rr, ss; reflexivity.
  - split; [reflexivity|]. destruct rr, ss; reflexivity.
Qed.

Lemma shr_iter_spec m0 r0 p :
  0 <= m0 -> shr_m r0 = m0 ->
  let r := SpecFloat.iter_pos shr_1 p r0 in
  shr_m r = m0 / 2 ^ Zpos p /\
  sticky r = sticky r0 || negb (m0 mod 2 ^ Zpos p =? 0).
Proof.
  intros Hm0 Hr0.
  pose (P := fun k r => shr_m r = m0 / 2 ^ k /\ sticky r = sticky r0 || negb (m0 mod 2 ^ k =? 0)).
  assert (H : P (0 + Zpos p) (SpecFloat.iter_pos shr_1 p r0)).
  { apply iter_pos_inv; [|lia|].
    - intros k x Hk [Hx1 Hx2].
      assert (Hp : 0 < 2 ^ k) by (apply Z.pow_pos_nonneg; lia).
      assert (Hxm : 0 <= shr_m x) by (rewrite Hx1; apply Z.div_pos; lia).
      destruct (shr_1_spec x Hxm) as [E1 E2]. split.
      + rewrite E1, Hx1. rewrite Z.pow_add_r by lia. rewrite Z.div_div by lia. reflexivity.
      + rewrite E2, Hx2, Hx1. rewrite <- orb_assoc. f_equal.
        rewrite Z.pow_add_r, Z.pow_1_r by lia.
        rewrite Z.rem_mul_r by lia.
        pose proof (Z.mod_pos_bound m0 (2 ^ k) Hp).
        pose proof (Z.mod_pos_bound (m0 / 2 ^ k) 2 ltac:(lia)).
        pose proof (Zmod_odd (m0 / 2 ^ k)) as Ho.
        destruct (Z.eqb_spec (m0 mod 2 ^ k) 0) as [E|E];
        destruct (Z.odd (m0 / 2 ^ k)); simpl; symmetry.
        * apply negb_true_iff, Z.eqb_neq. nia.
        * apply negb_false_iff, Z.eqb_eq. nia.
        * apply negb_true_iff, Z.eqb_neq. nia.
        * apply negb_true_iff, Z.eqb_neq. nia.
    - split; [rewrite Z.pow_0_r, Z.div_1_r; assumption|].
      rewrite Z.pow_0_r, Z.mod_1_r. simpl. rewrite orb_false_r. reflexivity. }
  exact H.
Qed.

(** ** The two shifts of [binary_round_aux] *)

Lemma sticky_of_loc m l : sticky (shr_record_of_loc m l) = inexact l.
Proof. destruct l as [|[]]; reflexivity. Qed.

Lemma shr_m_of_loc m l : shr_m (shr_record_of_loc m l) = m.
Proof. destruct l as [|[]]; reflexivity. Qed.

Lemma shr_fexp_spec m e l :
  0 <= m -> e <= fexp (dig m + e) ->
  exists r, shr_fexp prec emax m e l = (r, fexp (dig m + e))
    /\ shr_m r = m / 2 ^ (fexp (dig m + e) - e)
    /\ sticky r = inexact l || negb (m mod 2 ^ (fexp (dig m + e) - e) =? 0).
Proof.
  intros Hm He. unfold shr_fexp. fold (dig m). fold (fexp (dig m + e)).
  set (n := fexp (dig m + e) - e). assert (Hn : 0 <= n) by lia.
  unfold shr. destruct n as [|p|p] eqn:En; try lia.
  - exists (shr_record_of_loc m l). split; [f_equal; lia|].
    rewrite shr_m_of_loc, sticky_of_loc, Z.pow_0_r, Z.div_1_r, Z.mod_1_r.
    simpl. rewrite orb_false_r. split; reflexivity.
  - exists (SpecFloat.iter_pos shr_1 p (shr_record_of_loc m l)).
    split; [f_equal; lia|].
    destruct (shr_iter_spec m (shr_record_of_loc m l) p Hm (shr_m_of_loc m l)) as [E1 E2].
    rewrite sticky_of_loc in E2. split; assumption.
Qed.

Lemma rne_bounds r :
  let m := round_nearest_even (shr_m r) (loc_of_shr_record r) in
  (sticky r = false -> m = shr_m r) /\ shr_m r <= m <= shr_m r + 1.
Proof.
  destruct r as [m [] []]; unfold sticky; simpl; try destruct (Z.even m); split; intros; try discriminate; lia.
Qed.

Lemma binary_round_aux_cases sx mx ex lx :
  0 <= mx -> ex <= fexp (dig mx + ex) ->
  let e' := fexp (dig mx + ex) in
  let m' := mx / 2 ^ (e' - ex) in
  exists m'', m' <= m'' <= m' + 1
    /\ (inexact lx = false -> mx mod 2 ^ (e' - ex) = 0 -> m'' = m')
    /\ binary_round_aux prec emax sx mx ex lx = round_result sx m'' e'
    /\ (m'' <> 0 -> m'' <> 2 ^ 53 -> fexp (dig m'' + e') = e')
    /\ m'' <= 2 ^ 53
    /\ (m' = 0 -> e' = -1074)
    /\ (0 < m' -> dig m' + e' = dig mx + ex).
Proof.
  intros Hmx Hex e' m'.
  destruct (shr_fexp_spec mx ex lx Hmx Hex) as (r1 & E1 & Em1 & Es1).
  fold e' in E1, Em1, Es1. fold m' in Em1.
  assert (Hn : 0 <= e' - ex) by (unfold e'; lia).
  assert (Hp : 0 < 2 ^ (e' - ex)) by (apply Z.pow_pos_nonneg; lia).
  assert (Hm' : 0 <= m') by (apply Z.div_pos; lia).
  pose proof (rne_bounds r1) as [Hex1 Hb1].
  set (m'' := round_nearest_even (shr_m r1) (loc_of_shr_record r1)) in *.
  rewrite Em1 in Hex1, Hb1.
  (* facts on e' and the digits of m' *)
  assert (Hz : m' = 0 -> e' = -1074).
  { intros Hz. destruct (Z.eq_dec mx 0) as [->|Hne].
    - unfold e' in *. rewrite dig_0 in *. rewrite fexp_eq in *. lia.
    - assert (dig mx <= e' - ex).
      { destruct (Z_le_gt_dec (dig mx) (e' - ex)); [assumption|exfalso].
        pose proof (dig_shiftr mx (e' - ex) ltac:(lia) Hn ltac:(lia)) as Hd.
        fold m' in Hd. rewrite Hz, dig_0 in Hd. lia. }
      unfold e' in *. rewrite fexp_eq in *. lia. }
  assert (Hd : 0 < m' -> dig m' + e' = dig mx + ex).
  { intros Hpos. assert (0 < mx).
    { destruct (Z.eq_dec mx 0) as [E|]; [|lia]. unfold m' in Hpos. rewrite E, Z.div_0_l in Hpos; lia. }
    assert (e' - ex < dig mx).
    { destruct (Z_lt_ge_dec (e' - ex) (dig mx)); [assumption|exfalso].
      unfold m' in Hpos. rewrite div_small_dig in Hpos; lia. }
    unfold m'. rewrite dig_shiftr; lia. }
  assert (Hpre2 : e' <= fexp (dig m'' + e')).
  { destruct (Z.eq_dec m' 0) as [Hz'|Hnz].
    - rewrite (Hz Hz'). rewrite fexp_eq. lia.
    - assert (fexp (dig m' + e') = e') by (rewrite Hd by lia; reflexivity).
      rewrite <- H at 1. apply fexp_mono. pose proof (dig_le m' m'' ltac:(lia)). lia. }
  destruct (shr_fexp_spec m'' e' loc_Exact ltac:(lia) Hpre2) as (r2 & E2 & Em2 & _).
  exists m''. split; [lia|]. split.
  { intros Hi Hmod. apply Hex1. rewrite Es1, Hi. simpl.
    apply negb_false_iff, Z.eqb_eq. assumption. }
  assert (Hcan : m'' <> 0 -> m'' <> 2 ^ 53 -> fexp (dig m'' + e') = e').
  { intros Hnz H53.
    destruct (Z.eq_dec m' 0) as [Hz'|Hnz'].
    - assert (m'' = 1) by lia. rewrite H, (Hz Hz'). reflexivity.
    - pose proof (Hd ltac:(lia)) as Hd'.
      assert (Hfe : fexp (dig m' + e') = e') by (rewrite Hd'; reflexivity).
      pose proof (dig_bounds m' ltac:(lia)) as [Hl Hu].
      pose proof (dig_pos m' ltac:(lia)) as Hdp.
      assert (dig m' <= 53) by (rewrite fexp_eq in Hfe; lia).
      destruct (Z.eq_dec m'' (2 ^ dig m')) as [Epow|Npow].
      + assert (dig m'' = dig m' + 1).
        { rewrite Epow. apply dig_unique; [lia|].
          replace (dig m' + 1 - 1) with (dig m') by lia. split; [lia|].
          apply Z.pow_lt_mono_r; lia. }
        assert (dig m' < 53).
        { destruct (Z.eq_dec (dig m') 53) as [E53|]; [|lia]. rewrite E53 in Epow. contradiction. }
        rewrite H0. rewrite fexp_eq in *. lia.
      + assert (dig m'' = dig m').
        { apply dig_unique; [lia|]. split; lia. }
        rewrite H0. exact Hfe. }
  assert (Hle : m'' <= 2 ^ 53).
  { destruct (Z.eq_dec m' 0) as [Hz'|Hnz']; [lia|].
    pose proof (Hd ltac:(lia)) as Hd'.
    assert (Hfe : fexp (dig m' + e') = e') by (rewrite Hd'; reflexivity).
    pose proof (dig_bounds m' ltac:(lia)) as [Hl Hu].
    assert (dig m' <= 53) by (rewrite fexp_eq in Hfe; lia).
    assert (2 ^ dig m' <= 2 ^ 53) by (apply Z.pow_le_mono_r; lia). lia. }
  split; [|split; [exact Hcan|split; [exact Hle|split; [exact Hz|exact Hd]]]].
  unfold binary_round_aux. rewrite E1. fold m''. rewrite E2.
  unfold round_result.
  destruct (Z.eqb_spec m'' 0) as [E0|N0].
  { rewrite Em2, E0, Zdiv_0_l. reflexivity. }
  destruct (Z.eqb_spec m'' (2 ^ 53)) as [E53|N53].
  { assert (Hfe' : fexp (dig m'' + e') = e' + 1).
    { assert (dig m'' = 54) by (rewrite E53; reflexivity).
      rewrite H. destruct (Z.eq_dec m' 0) as [Hz'|Hnz']; [lia|].
      pose proof (Hd ltac:(lia)) as Hd'.
      assert (Hfe : fexp (dig m' + e') = e') by (rewrite Hd'; reflexivity).
      pose proof (dig_bounds m' ltac:(lia)) as [Hl Hu].
      assert (dig m' <= 53) by (rewrite fexp_eq in Hfe; lia).
      assert (2 ^ dig m' <= 2 ^ 53) by (apply Z.pow_le_mono_r; lia).
      assert (m' = 2 ^ 53 - 1) by lia.
      assert (dig m' = 53) by (rewrite H2; reflexivity).
      rewrite fexp_eq in *. lia. }
    rewrite Hfe' in *. replace (e' + 1 - e') with 1 in Em2 by lia.
    rewrite Em2, E53. change (2 ^ 53 / 2 ^ 1) with (2 ^ 52).
    change (Z.sub emax prec) with 971. reflexivity. }
  rewrite (Hcan N0 N53) in *. rewrite Z.sub_diag, Z.pow_0_r, Z.div_1_r in Em2.
  rewrite Em2. destruct m'' as [|p|p]; try lia.
  change (Z.sub emax prec) with 971. reflexivity.
Qed.

(** ** Doubles as real numbers *)

Lemma bpow_gt_0 e : (0 < bpow e)%R.
Proof. apply powerRZ_lt. lra. Qed.

Lemma bpow_add a b : bpow (a + b) = (bpow a * bpow b)%R.
Proof. apply powerRZ_add. lra. Qed.

Lemma bpow_IZR n : 0 <= n -> bpow n = IZR (2 ^ n).
Proof.
  intros Hn. unfold bpow. rewrite <- (Z2Nat.id n Hn) at 1 2.
  rewrite <- pow_powerRZ. rewrite pow_IZR. reflexivity.
Qed.

Lemma bpow_le a b : a <= b -> (bpow a <= bpow b)%R.
Proof.
  intros H. replace b with (a + (b - a)) by lia. rewrite bpow_add.
  rewrite (bpow_IZR (b - a)) by lia.
  assert (1 <= IZR (2 ^ (b - a)))%R.
  { apply IZR_le. pose proof (Z.pow_pos_nonneg 2 (b - a)). lia. }
  pose proof (bpow_gt_0 a). nra.
Qed.

Lemma bpow_lt a b : a < b -> (bpow a < bpow b)%R.
Proof.
  intros H. replace b with (a + (b - a)) by lia. rewrite bpow_add.
  rewrite (bpow_IZR (b - a)) by lia.
  assert (2 <= IZR (2 ^ (b - a)))%R.
  { apply IZR_le. replace (b - a) with (1 + (b - a - 1)) by lia.
    rewrite Z.pow_add_r by lia. pose proof (Z.pow_pos_nonneg 2 (b - a - 1)). lia. }
  pose proof (bpow_gt_0 a). nra.
Qed.

Lemma bpow_lt_inv a b : (bpow a < bpow b)%R -> a < b.
Proof.
  intros H. destruct (Z_lt_ge_dec a b); [assumption|].
  pose proof (bpow_le b a ltac:(lia)). lra.
Qed.

Lemma F2R_align m e1 e2 : e2 <= e1 -> F2R m e1 = F2R (m * 2 ^ (e1 - e2)) e2.
Proof.
  intros H. unfold F2R. rewrite mult_IZR, <- bpow_IZR by lia.
  rewrite Rmult_assoc, <- bpow_add. f_equal. f_equal. lia.
Qed.

Lemma F2R_le m1 m2 e : m1 <= m2 -> (F2R m1 e <= F2R m2 e)%R.
Proof.
  intros H. unfold F2R. apply IZR_le in H. pose proof (bpow_gt_0 e). nra.
Qed.

Lemma F2R_lt m1 m2 e : m1 < m2 -> (F2R m1 e < F2R m2 e)%R.
Proof.
  intros H. unfold F2R. apply IZR_lt in H. pose proof (bpow_gt_0 e). nra.
Qed.

Lemma F2R_le_inv m1 m2 e : (F2R m1 e <= F2R m2 e)%R -> m1 <= m2.
Proof.
  intros H. destruct (Z_le_gt_dec m1 m2); [assumption|].
  pose proof (F2R_lt m2 m1 e ltac:(lia)). lra.
Qed.

Lemma F2R_lt_inv m1 m2 e : (F2R m1 e < F2R m2 e)%R -> m1 < m2.
Proof.
  intros H. destruct (Z_lt_ge_dec m1 m2); [assumption|].
  pose proof (F2R_le m2 m1 e ltac:(lia)). lra.
Qed.

Lemma F2R_0 e : F2R 0 e = 0%R.
Proof. unfold F2R. lra. Qed.

Lemma F2R_pow2 k e : 0 <= k -> F2R (2 ^ k) e = bpow (k + e).
Proof. intros. unfold F2R. rewrite <- bpow_IZR, <- bpow_add by lia. reflexivity. Qed.

Lemma F2R_dig m e : 0 < m -> (bpow (dig m + e - 1) <= F2R m e < bpow (dig m + e))%R.
Proof.
  intros Hm. pose proof (dig_bounds m Hm) as [Hl Hu]. pose proof (dig_pos m Hm).
  split.
  - replace (dig m + e - 1) with ((dig m - 1) + e) by lia.
    rewrite <- F2R_pow2 by lia. apply F2R_le. exact Hl.
  - rewrite <- F2R_pow2 by lia. apply F2R_lt. exact Hu.
Qed.

(** The value rounding yields, whatever the direction of the rounding. *)
Lemma round_value_thresholds mx ex m'' (x : R) :
  0 <= mx -> ex <= fexp (dig mx + ex) ->
  let e' := fexp (dig mx + ex) in
  let m' := mx / 2 ^ (e' - ex) in
  m' <= m'' <= m' + 1 ->
  (m' = 0 -> e' = -1074) ->
  (0 < m' -> dig m' + e' = dig mx + ex) ->
  (F2R mx ex <= x < F2R (mx + 1) ex)%R ->
  (x = F2R m' e' -> m'' = m') ->
  (forall t et, canonical t et -> (F2R t et <= x)%R -> (F2R t et <= F2R m'' e')%R) /\
  (forall t et, canonical t et -> (x <= F2R t et)%R -> (F2R m'' e' <= F2R t et)%R).
Proof.
  intros Hmx Hex e' m' Hm'' Hz Hd Hx Hexact.
  assert (Hn : 0 <= e' - ex) by (unfold e'; lia).
  assert (Hp : 0 < 2 ^ (e' - ex)) by (apply Z.pow_pos_nonneg; lia).
  assert (Hm' : 0 <= m') by (apply Z.div_pos; lia).
  pose proof (Z.div_mod mx (2 ^ (e' - ex)) ltac:(lia)) as Hdm. fold m' in Hdm.
  pose proof (Z.mod_pos_bound mx (2 ^ (e' - ex)) Hp) as Hmb.
  assert (Hlo : (F2R m' e' <= x)%R).
  { apply Rle_trans with (F2R mx ex); [|apply Hx].
    rewrite (F2R_align m' e' ex) by lia. apply F2R_le. nia. }
  assert (Hup : (x < F2R (m' + 1) e')%R).
  { apply Rlt_le_trans with (F2R (mx + 1) ex); [apply Hx|].
    rewrite (F2R_align (m' + 1) e' ex) by lia. apply F2R_le. nia. }
  assert (Hsmall : forall t et, canonical t et -> et < e' -> 0 < m' /\ (F2R t et < F2R m' e')%R).
  { intros t et [Ht Hc] Hlt.
    assert (0 < m').
    { destruct (Z.eq_dec m' 0) as [E|]; [|lia]. rewrite (Hz E) in Hlt. rewrite fexp_eq in Hc. lia. }
    split; [assumption|].
    assert (dig t + et < dig m' + e').
    { rewrite (Hd H). destruct (Z_lt_ge_dec (dig t + et) (dig mx + ex)); [assumption|].
      pose proof (fexp_mono (dig mx + ex) (dig t + et) ltac:(lia)). unfold e' in Hlt. lia. }
    pose proof (F2R_dig t et Ht) as [_ H1]. pose proof (F2R_dig m' e' H) as [H2 _].
    pose proof (bpow_le (dig t + et) (dig m' + e' - 1) ltac:(lia)). lra. }
  split; intros t et Hc Ht.
  - apply Rle_trans with (F2R m' e'); [|apply F2R_le; lia].
    destruct (Z_lt_ge_dec et e') as [Hlt|Hge].
    + destruct (Hsmall t et Hc Hlt). lra.
    + rewrite (F2R_align t et e') by lia. apply F2R_le.
      assert (t * 2 ^ (et - e') < m' + 1); [|lia].
      apply (F2R_lt_inv _ _ e'). rewrite <- F2R_align by lia. lra.
  - destruct (Z.eq_dec m'' m') as [->|Hne]; [lra|].
    assert (m'' = m' + 1) by lia. subst m''.
    assert (F2R m' e' < x)%R.
    { destruct (Req_dec x (F2R m' e')) as [E|E]; [exfalso; apply Hne, Hexact, E|lra]. }
    destruct (Z_lt_ge_dec et e') as [Hlt|Hge].
    + destruct (Hsmall t et Hc Hlt). lra.
    + rewrite (F2R_align t et e') by lia. apply F2R_le.
      assert (m' < t * 2 ^ (et - e')); [|lia].
      apply (F2R_lt_inv _ _ e'). rewrite <- F2R_align by lia. lra.
Qed.

(** ** Rounding is correct *)

Lemma round_result_rounds sx m e :
  0 <= m <= 2 ^ 53 -> -1074 <= e ->
  (m <> 0 -> m <> 2 ^ 53 -> fexp (dig m + e) = e) ->
  rounds_to sx (round_result sx m e) (F2R m e).
Proof.
  intros Hm He Hc. unfold round_result, rounds_to.
  destruct (Z.eqb_spec m 0) as [E0|N0].
  { left. split; [reflexivity|]. rewrite E0. apply F2R_0. }
  destruct (Z.eqb_spec m (2 ^ 53)) as [E53|N53].
  { rewrite E53. rewrite (F2R_pow2 53 e) by lia.
    destruct (Z.leb_spec (e + 1) 971).
    - right; left. exists (Z.to_pos (2 ^ 52)), (e + 1). split; [reflexivity|].
      split; [|split; [assumption|]].
      + split; [reflexivity|]. change (dig (Z.pos (Z.to_pos (2 ^ 52)))) with 53.
        rewrite fexp_eq. lia.
      + change (Z.pos (Z.to_pos (2 ^ 52))) with (2 ^ 52).
        rewrite (F2R_pow2 52) by lia. f_equal. lia.
    - right; right. split; [reflexivity|]. apply bpow_le. lia. }
  specialize (Hc N0 N53).
  destruct (Z.leb_spec e 971).
  - right; left. exists (Z.to_pos m), e. rewrite Z2Pos.id by lia.
    split; [reflexivity|]. split; [split; [lia|assumption]|]. split; [assumption|reflexivity].
  - right; right. split; [reflexivity|].
    pose proof (F2R_dig m e ltac:(lia)) as [Hl _].
    assert (dig m = 53) by (rewrite fexp_eq in Hc; lia).
    pose proof (bpow_le 1024 (dig m + e - 1) ltac:(lia)). lra.
Qed.

Lemma round_aux_spec sx mx ex lx (x : R) :
  0 <= mx -> ex <= fexp (dig mx + ex) ->
  (F2R mx ex <= x < F2R (mx + 1) ex)%R ->
  (x = F2R mx ex -> inexact lx = false) ->
  exists v, rounds_to sx (binary_round_aux prec emax sx mx ex lx) v /\ thresholds x v.
Proof.
  intros Hmx Hex Hx Hloc.
  destruct (binary_round_aux_cases sx mx ex lx Hmx Hex)
    as (m'' & Hb & Hexact & Hr & Hcan & Hle & Hz & Hd).
  set (e' := fexp (dig mx + ex)) in *. set (m' := mx / 2 ^ (e' - ex)) in *.
  assert (Hn : 0 <= e' - ex) by (unfold e'; lia).
  assert (Hp : 0 < 2 ^ (e' - ex)) by (apply Z.pow_pos_nonneg; lia).
  assert (Hm' : 0 <= m') by (apply Z.div_pos; lia).
  exists (F2R m'' e'). split.
  - rewrite Hr. apply round_result_rounds; [lia| |assumption].
    unfold e'. rewrite fexp_eq. lia.
  - apply (round_value_thresholds mx ex m'' x); try assumption.
    fold e'. fold m'. intros E. apply Hexact.
    + apply Hloc. 
      assert (F2R m' e' <= F2R mx ex)%R.
      { rewrite (F2R_align m' e' ex) by lia. apply F2R_le.
        pose proof (Z.div_mod mx (2 ^ (e' - ex)) ltac:(lia)) as Hdm. fold m' in Hdm.
        pose proof (Z.mod_pos_bound mx (2 ^ (e' - ex)) Hp). nia. }
      lra.
    + assert (F2R mx ex <= F2R m' e')%R by lra.
      rewrite (F2R_align m' e' ex) in H by lia. apply F2R_le_inv in H.
      pose proof (Z.div_mod mx (2 ^ (e' - ex)) ltac:(lia)) as Hdm. fold m' in Hdm.
      pose proof (Z.mod_pos_bound mx (2 ^ (e' - ex)) Hp). nia.
Qed.

Lemma pos_iter_xO m d : Zpos (Pos.iter xO m d) = Zpos m * 2 ^ Zpos d.
Proof.
  induction d as [|d IH] using Pos.peano_ind.
  - simpl. lia.
  - rewrite Pos.iter_succ, Pos2Z.inj_xO, IH, Pos2Z.inj_succ, Z.pow_succ_r by lia. lia.
Qed.

Lemma shl_align_spec mx ex ex' :
  let '(mz, ez) := shl_align mx ex ex' in
  ez = Z.min ex ex' /\ Zpos mz = Zpos mx * 2 ^ (ex - ez).
Proof.
  unfold shl_align. destruct (ex' - ex) as [|p|p] eqn:E.
  - split; [lia|]. rewrite Z.sub_diag. lia.
  - split; [lia|]. rewrite Z.sub_diag. lia.
  - split; [lia|]. rewrite pos_iter_xO. f_equal. f_equal. lia.
Qed.

Lemma binary_round_spec sx m e :
  exists v, rounds_to sx (binary_round prec emax sx m e) v
            /\ thresholds (F2R (Zpos m) e) v.
Proof.
  unfold binary_round.
  pose proof (shl_align_spec m e (SpecFloat.fexp prec emax (Zpos (digits2_pos m) + e))) as H.
  destruct (shl_align m e _) as [mz ez]. destruct H as [Hez Hmz].
  change (Zpos (digits2_pos m)) with (dig (Zpos m)) in Hez.
  fold (fexp (dig (Zpos m) + e)) in Hez.
  assert (Hk : 0 <= e - ez) by lia.
  assert (Hdig : dig (Zpos mz) + ez = dig (Zpos m) + e).
  { rewrite Hmz, dig_mul_pow2 by lia. lia. }
  assert (Hval : F2R (Zpos mz) ez = F2R (Zpos m) e).
  { rewrite (F2R_align (Zpos m) e ez) by lia. rewrite Hmz. reflexivity. }
  apply round_aux_spec.
  - lia.
  - rewrite Hdig. lia.
  - rewrite Hval. split; [lra|]. rewrite <- Hval. apply F2R_lt. lia.
  - reflexivity.
Qed.

(** ** Validity, comparison, division *)

Lemma valid_finite s m e :
  valid (S754_finite s m e) <-> canonical (Zpos m) e /\ e <= 971.
Proof.
  unfold valid, valid_binary, SpecFloat.bounded, SpecFloat.canonical_mantissa, canonical.
  change (Zpos (digits2_pos m)) with (dig (Zpos m)).
  change (SpecFloat.fexp prec emax) with fexp. change (Z.sub emax prec) with 971.
  rewrite andb_true_iff, Z.eqb_eq, Z.leb_le. intuition lia.
Qed.

Lemma rounds_to_valid sx r v : rounds_to sx r v -> valid r.
Proof.
  intros [[-> _]|[(m & e & -> & Hc & He & _)|[-> _]]]; try reflexivity.
  apply valid_finite. split; assumption.
Qed.

Lemma canonical_dig_le m e : canonical m e -> dig m <= 53 /\ -1074 <= e.
Proof. intros [Hm Hc]. rewrite fexp_eq in Hc. lia. Qed.

Lemma canonical_lt_exp m1 e1 m2 e2 :
  canonical m1 e1 -> canonical m2 e2 -> e1 < e2 -> (F2R m1 e1 < F2R m2 e2)%R.
Proof.
  intros [H1 C1] [H2 C2] Hlt.
  pose proof (F2R_dig m1 e1 H1) as [_ Hu]. pose proof (F2R_dig m2 e2 H2) as [Hl _].
  rewrite fexp_eq in C1, C2.
  pose proof (bpow_le (dig m1 + e1) (dig m2 + e2 - 1) ltac:(lia)). lra.
Qed.

Lemma canonical_unique m1 e1 m2 e2 :
  canonical m1 e1 -> canonical m2 e2 -> F2R m1 e1 = F2R m2 e2 -> m1 = m2 /\ e1 = e2.
Proof.
  intros H1 H2 E.
  assert (e1 = e2).
  { destruct (Z.lt_trichotomy e1 e2) as [H|[H|H]]; [|assumption|].
    - pose proof (canonical_lt_exp _ _ _ _ H1 H2 H). lra.
    - pose proof (canonical_lt_exp _ _ _ _ H2 H1 H). lra. }
  subst e2. split; [|reflexivity].
  apply Z.le_antisymm; apply (F2R_le_inv _ _ e1); lra.
Qed.

Lemma canonical_lt_max m e : canonical m e -> e <= 971 -> (F2R m e < bpow 1024)%R.
Proof.
  intros Hc He. destruct (canonical_dig_le m e Hc). destruct Hc as [Hm _].
  pose proof (F2R_dig m e Hm) as [_ Hu].
  pose proof (bpow_le (dig m + e) 1024 ltac:(lia)). lra.
Qed.

Lemma F2R_pos m e : 0 < m -> (0 < F2R m e)%R.
Proof. intros. unfold F2R. pose proof (bpow_gt_0 e). apply IZR_lt in H. nra. Qed.

(** Rounding a representable number is exact. *)
Lemma rounds_exact sx r v x t et :
  rounds_to sx r v -> thresholds x v -> canonical t et -> et <= 971 ->
  x = F2R t et -> r = S754_finite sx (Z.to_pos t) et.
Proof.
  intros Hr [Hlo Hup] Hc He Hx.
  assert (Hv : v = F2R t et).
  { apply Rle_antisym; [apply Hup|apply Hlo]; try assumption; lra. }
  destruct Hr as [[_ E]|[(m & e & -> & Hcm & Hem & E)|[_ H]]].
  - pose proof (F2R_pos t et (proj1 Hc)). lra.
  - destruct (canonical_unique (Zpos m) e t et Hcm Hc) as [<- <-]; [lra|]. reflexivity.
  - pose proof (canonical_lt_max t et Hc He). lra.
Qed.

(** Comparison of non-negative doubles. *)
Lemma compare_pos m1 e1 m2 e2 :
  canonical (Zpos m1) e1 -> canonical (Zpos m2) e2 ->
  match SFcompare (S754_finite false m1 e1) (S754_finite false m2 e2) with
  | Some Lt => (F2R (Zpos m1) e1 < F2R (Zpos m2) e2)%R
  | Some Eq => m1 = m2 /\ e1 = e2
  | Some Gt => (F2R (Zpos m2) e2 < F2R (Zpos m1) e1)%R
  | None => False
  end.
Proof.
  intros H1 H2. simpl.
  destruct (Z.compare_spec e1 e2) as [E|E|E].
  - subst e2. rewrite Pos.compare_cont_spec. simpl.
    destruct (Pos.compare_spec m1 m2) as [E|E|E].
    + split; congruence.
    + apply F2R_lt. lia.
    + apply F2R_lt. lia.
  - apply canonical_lt_exp; assumption.
  - apply canonical_lt_exp; assumption.
Qed.

Lemma flt_pos m1 e1 m2 e2 :
  canonical (Zpos m1) e1 -> canonical (Zpos m2) e2 ->
  (flt (S754_finite false m1 e1) (S754_finite false m2 e2) = true
   <-> (F2R (Zpos m1) e1 < F2R (Zpos m2) e2)%R).
Proof.
  intros H1 H2. pose proof (compare_pos m1 e1 m2 e2 H1 H2) as H.
  unfold flt, SFltb. destruct (SFcompare _ _) as [[]|]; try contradiction.
  - destruct H as [-> ->]. split; [discriminate|lra].
  - tauto.
  - split; [discriminate|lra].
Qed.

Lemma fle_pos m1 e1 m2 e2 :
  canonical (Zpos m1) e1 -> canonical (Zpos m2) e2 ->
  (fle (S754_finite false m1 e1) (S754_finite false m2 e2) = true
   <-> (F2R (Zpos m1) e1 <= F2R (Zpos m2) e2)%R).
Proof.
  intros H1 H2. pose proof (compare_pos m1 e1 m2 e2 H1 H2) as H.
  unfold fle, SFleb. destruct (SFcompare _ _) as [[]|]; try contradiction.
  - destruct H as [-> ->]. split; [lra|reflexivity].
  - split; [lra|reflexivity].
  - split; [discriminate|lra].
Qed.

Lemma F2R_mult m1 e1 m2 e2 : F2R (m1 * m2) (e1 + e2) = (F2R m1 e1 * F2R m2 e2)%R.
Proof. unfold F2R. rewrite mult_IZR, bpow_add. ring. Qed.

(** Division of positive doubles. *)
Lemma fdiv_pos_spec mx ex my ey :
  canonical (Zpos mx) ex -> canonical (Zpos my) ey ->
  exists v, rounds_to false (fdiv (S754_finite false mx ex) (S754_finite false my ey)) v
            /\ thresholds (F2R (Zpos mx) ex / F2R (Zpos my) ey) v.
Proof.
  intros Hx Hy. unfold fdiv, SFdiv, SFdiv_core_binary.
  change (Zdigits2 (Zpos mx)) with (dig (Zpos mx)).
  change (Zdigits2 (Zpos my)) with (dig (Zpos my)).
  change (SpecFloat.fexp prec emax) with fexp.
  set (mu := dig (Zpos mx) + ex - (dig (Zpos my) + ey)).
  set (e' := Z.min (fexp mu) (ex - ey)).
  set (s := ex - ey - e').
  assert (Hs : 0 <= s) by (unfold s, e'; lia).
  set (m' := match s with Zpos _ => Z.shiftl (Zpos mx) s | Z0 => Zpos mx | Zneg _ => 0 end).
  assert (Hm' : m' = Zpos mx * 2 ^ s).
  { unfold m'. destruct s as [|p|p] eqn:E; try lia.
    rewrite Z.shiftl_mul_pow2 by lia. reflexivity. }
  pose proof (Z_div_mod m' (Zpos my) ltac:(lia)) as Hdiv.
  destruct (Z.div_eucl m' (Zpos my)) as [q r]. destruct Hdiv as [Hqr Hr].
  simpl xorb.
  assert (Hp : 0 < 2 ^ s) by (apply Z.pow_pos_nonneg; lia).
  assert (Hq : 0 <= q) by nia.
  assert (HFy : (0 < F2R (Zpos my) ey)%R) by (apply F2R_pos; lia).
  assert (Hnum : F2R (Zpos mx) ex = F2R m' (e' + ey)).
  { rewrite Hm'. rewrite (F2R_align (Zpos mx) ex (e' + ey)) by (unfold s in Hs; lia).
    f_equal. f_equal. f_equal. unfold s. lia. }
  apply round_aux_spec.
  - exact Hq.
  - (* enough digits *)
    assert (Hd : mu - e' <= dig q).
    { destruct (Z_le_gt_dec (mu - e') 0) as [|Hpos]; [pose proof (dig_nonneg q); lia|].
      assert (Hdm : dig m' = dig (Zpos mx) + s) by (rewrite Hm'; apply dig_mul_pow2; lia).
      pose proof (dig_bounds m' ltac:(lia)) as [Hl _].
      pose proof (dig_bounds (Zpos my) ltac:(lia)) as [_ Hu].
      assert (Hk : mu - e' = dig m' - dig (Zpos my)) by (unfold mu, s in *; lia).
      assert (2 ^ (dig m' - dig (Zpos my) - 1) <= q).
      { assert (2 ^ (dig m' - dig (Zpos my) - 1) * 2 ^ dig (Zpos my) <= m').
        { rewrite <- Z.pow_add_r by (pose proof (dig_nonneg (Zpos my)); lia).
          replace (dig m' - dig (Zpos my) - 1 + dig (Zpos my)) with (dig m' - 1) by lia. exact Hl. }
        assert (0 <= 2 ^ (dig m' - dig (Zpos my) - 1)) by (apply Z.pow_nonneg; lia).
        destruct (Z_le_gt_dec (2 ^ (dig m' - dig (Zpos my) - 1)) q); [assumption|exfalso]. nia. }
      pose proof (dig_ge_pow q (dig m' - dig (Zpos my) - 1) ltac:(lia) H). lia. }
    apply Z.le_trans with (fexp mu); [unfold e'; lia|]. apply fexp_mono. lia.
  - (* enclosure *)
    assert (E1 : (F2R q e' * F2R (Zpos my) ey <= F2R (Zpos mx) ex)%R).
    { rewrite <- F2R_mult, Hnum. apply F2R_le. nia. }
    assert (E2 : (F2R (Zpos mx) ex < F2R (q + 1) e' * F2R (Zpos my) ey)%R).
    { rewrite <- F2R_mult, Hnum. apply F2R_lt. nia. }
    split.
    + apply Rmult_le_reg_r with (F2R (Zpos my) ey); [assumption|].
      unfold Rdiv. rewrite Rmult_assoc, Rinv_l by lra. lra.
    + apply Rmult_lt_reg_r with (F2R (Zpos my) ey); [assumption|].
      unfold Rdiv. rewrite Rmult_assoc, Rinv_l by lra. lra.
  - intros E.
    assert (E1 : (F2R q e' * F2R (Zpos my) ey = F2R (Zpos mx) ex)%R).
    { rewrite <- E. unfold Rdiv. rewrite Rmult_assoc, Rinv_l by lra. lra. }
    rewrite <- F2R_mult, Hnum in E1.
    assert (q * Zpos my = m') by (apply Z.le_antisymm; apply (F2R_le_inv _ _ (e' + ey)); lra).
    assert (r = 0) by lia. subst r.
    unfold new_location, new_location_even, new_location_odd.
    destruct (Z.even (Zpos my)); reflexivity.
Qed.

(** ** Product, exact roundings, truncation *)

Lemma dig_mul_ge a b : 0 < a -> 0 < b -> dig a + dig b - 1 <= dig (a * b).
Proof.
  intros Ha Hb.
  pose proof (dig_bounds a Ha) as [Hla _]. pose proof (dig_bounds b Hb) as [Hlb _].
  pose proof (dig_pos a Ha). pose proof (dig_pos b Hb).
  assert (2 ^ (dig a + dig b - 2) <= a * b).
  { replace (dig a + dig b - 2) with ((dig a - 1) + (dig b - 1)) by lia.
    rewrite Z.pow_add_r by lia.
    assert (0 < 2 ^ (dig a - 1)) by (apply Z.pow_pos_nonneg; lia).
    assert (0 < 2 ^ (dig b - 1)) by (apply Z.pow_pos_nonneg; lia). nia. }
  pose proof (dig_ge_pow (a * b) (dig a + dig b - 2) ltac:(lia) H1). lia.
Qed.

(** Product of finite doubles. *)
Lemma fmul_spec sx sy mx ex my ey :
  canonical (Zpos mx) ex -> canonical (Zpos my) ey ->
  exists v, rounds_to (xorb sx sy)
              (fmul (S754_finite sx mx ex) (S754_finite sy my ey)) v
            /\ thresholds (F2R (Zpos mx) ex * F2R (Zpos my) ey) v.
Proof.
  intros [_ Hx] [_ Hy]. unfold fmul, SFmul.
  rewrite Pos2Z.inj_mul. rewrite <- F2R_mult.
  apply round_aux_spec.
  - lia.
  - pose proof (dig_mul_ge (Zpos mx) (Zpos my) ltac:(lia) ltac:(lia)).
    pose proof (dig_pos (Zpos mx) ltac:(lia)). pose proof (dig_pos (Zpos my) ltac:(lia)).
    rewrite fexp_eq in *. lia.
  - split; [lra|]. apply F2R_lt. lia.
  - reflexivity.
Qed.

(** [binary_round] on a number that needs no rounding. *)
Lemma binary_round_exact s m e :
  fexp (dig (Zpos m) + e) <= e -> fexp (dig (Zpos m) + e) <= 971 ->
  let fe := fexp (dig (Zpos m) + e) in
  binary_round prec emax s m e = S754_finite s (Z.to_pos (Zpos m * 2 ^ (e - fe))) fe
  /\ canonical (Zpos m * 2 ^ (e - fe)) fe.
Proof.
  intros Hfe Hmax fe.
  assert (Hp : 0 < 2 ^ (e - fe)) by (apply Z.pow_pos_nonneg; unfold fe; lia).
  assert (Hc : canonical (Zpos m * 2 ^ (e - fe)) fe).
  { split; [nia|]. rewrite dig_mul_pow2 by (unfold fe; lia).
    replace (dig (Zpos m) + (e - fe) + fe) with (dig (Zpos m) + e) by lia. reflexivity. }
  split; [|exact Hc].
  destruct (binary_round_spec s m e) as (v & Hr & Ht).
  apply (rounds_exact s _ v (F2R (Zpos m) e)); try assumption.
  apply F2R_align. unfold fe. lia.
Qed.

Lemma of_Z_pos z :
  0 < z < 2 ^ 53 ->
  of_Z z = S754_finite false (Z.to_pos (z * 2 ^ (53 - dig z))) (dig z - 53)
  /\ canonical (z * 2 ^ (53 - dig z)) (dig z - 53)
  /\ F2R (z * 2 ^ (53 - dig z)) (dig z - 53) = IZR z.
Proof.
  intros Hz. destruct z as [|p|p]; try lia.
  pose proof (dig_lt_pow (Zpos p) 53 ltac:(lia) ltac:(lia) ltac:(lia)) as Hd.
  pose proof (dig_pos (Zpos p) ltac:(lia)) as Hd0.
  assert (Hfe : fexp (dig (Zpos p) + 0) = dig (Zpos p) - 53) by (rewrite fexp_eq; lia).
  destruct (binary_round_exact false p 0) as [E C]; try (rewrite Hfe; lia).
  rewrite Hfe in E, C. replace (0 - (dig (Zpos p) - 53)) with (53 - dig (Zpos p)) in E, C by lia.
  split; [exact E|]. split; [exact C|].
  transitivity (F2R (Zpos p) 0); [symmetry|unfold F2R, bpow; simpl; lra].
  rewrite (F2R_align (Zpos p) 0 (dig (Zpos p) - 53)) by lia.
  replace (0 - (dig (Zpos p) - 53)) with (53 - dig (Zpos p)) by lia. reflexivity.
Qed.

Lemma normalize_valid s z e : valid (normalize s z e).
Proof.
  destruct z as [|p|p]; try reflexivity. simpl.
  destruct (binary_round_spec s p e) as (v & Hr & _). eapply rounds_to_valid; eassumption.
Qed.

Lemma floor_of_spec m e : 0 < m -> (IZR (floor_of m e) <= F2R m e < IZR (floor_of m e + 1))%R.
Proof.
  intros Hm. unfold floor_of. destruct (Z.leb_spec 0 e) as [He|He].
  - rewrite (F2R_align m e 0) by lia. rewrite Z.sub_0_r.
    unfold F2R, bpow. simpl. rewrite plus_IZR. lra.
  - assert (Hp : 0 < 2 ^ (- e)) by (apply Z.pow_pos_nonneg; lia).
    pose proof (Z.div_mod m (2 ^ (- e)) ltac:(lia)) as Hdm.
    pose proof (Z.mod_pos_bound m (2 ^ (- e)) Hp) as Hmb.
    replace (IZR (m / 2 ^ (- e))) with (F2R (m / 2 ^ (- e)) 0) by (unfold F2R, bpow; simpl; lra).
    replace (IZR (m / 2 ^ (- e) + 1)) with (F2R (m / 2 ^ (- e) + 1) 0) by (unfold F2R, bpow; simpl; lra).
    rewrite (F2R_align (m / 2 ^ (- e)) 0 e), (F2R_align (m / 2 ^ (- e) + 1) 0 e) by lia.
    replace (0 - e) with (- e) by lia. split; [apply F2R_le|apply F2R_lt]; nia.
Qed.

Lemma floor_of_nonneg m e : 0 < m -> 0 <= floor_of m e.
Proof.
  intros. unfold floor_of. destruct (Z.leb_spec 0 e).
  - apply Z.mul_nonneg_nonneg; [lia|]. apply Z.pow_nonneg; lia.
  - apply Z.div_pos; [lia|]. apply Z.pow_pos_nonneg; lia.
Qed.

Lemma to_uint32_pos m e :
  floor_of (Zpos m) e < 2 ^ 32 ->
  to_uint32 (S754_finite false m e) = floor_of (Zpos m) e.
Proof.
  intros H. pose proof (floor_of_nonneg (Zpos m) e ltac:(lia)) as H0.
  unfold to_uint32, trunc, cond_Zopp. cbv beta iota. fold (floor_of (Zpos m) e).
  rewrite Z.abs_eq by assumption.
  destruct (Z.ltb_spec (floor_of (Zpos m) e) (2 ^ 63)); [|lia].
  apply Z.mod_small. lia.
Qed.

(** The integral part that [modf] returns converts like the number itself. *)
Lemma to_uint32_modf m e :
  canonical (Zpos m) e -> floor_of (Zpos m) e < 2 ^ 32 ->
  to_uint32 (snd (modf (S754_finite false m e))) = floor_of (Zpos m) e.
Proof.
  intros Hc Hlt. unfold modf. destruct (Z.leb_spec 0 e) as [He|He].
  - simpl snd. apply to_uint32_pos. assumption.
  - simpl snd. pose proof Hlt as Hlt'. unfold floor_of in Hlt |- *.
    destruct (Z.leb_spec 0 e); [lia|].
    set (i := Zpos m / 2 ^ (- e)) in *.
    assert (Hp : 0 < 2 ^ (- e)) by (apply Z.pow_pos_nonneg; lia).
    assert (Hi : 0 <= i) by (apply Z.div_pos; lia).
    destruct i as [|p|p] eqn:Ei; try lia; [reflexivity|].
    unfold normalize.
    assert (Hd : dig (Zpos p) <= 32) by (apply dig_lt_pow; lia).
    pose proof (dig_pos (Zpos p) ltac:(lia)) as Hd0.
    assert (Hfe : fexp (dig (Zpos p) + 0) = dig (Zpos p) - 53) by (rewrite fexp_eq; lia).
    destruct (binary_round_exact false p 0) as [E C]; try (rewrite Hfe; lia).
    rewrite Hfe in E, C. rewrite E.
    assert (Hq : 0 < 2 ^ (0 - (dig (Zpos p) - 53))) by (apply Z.pow_pos_nonneg; lia).
    rewrite to_uint32_pos; rewrite Z2Pos.id by nia; unfold floor_of;
      (destruct (Z.leb_spec 0 (dig (Zpos p) - 53)); [lia|]);
      replace (- (dig (Zpos p) - 53)) with (0 - (dig (Zpos p) - 53)) by lia;
      rewrite Z.div_mul by lia; lia.
Qed.

(** ** rational_approximation returns *)

Lemma modf_frac_valid x : valid (fst (modf x)).
Proof.
  destruct x as [s|s| |s m e]; simpl; try reflexivity.
  destruct (0 <=? e); [reflexivity|]. apply normalize_valid.
Qed.

Lemma epsilon_eq : epsilon = S754_finite false 5902958103587057 (-69).
Proof. vm_compute. reflexivity. Qed.

Lemma one_eq : of_Z 1 = S754_finite false 4503599627370496 (-52).
Proof. vm_compute. reflexivity. Qed.

Lemma canonical_compute m e :
  (0 <? m) && (fexp (dig m + e) =? e) = true -> canonical m e.
Proof.
  rewrite andb_true_iff, Z.ltb_lt, Z.eqb_eq. intros [H1 H2]. split; assumption.
Qed.

Lemma F2R_pow2_compute m e k : m = 2 ^ (k - e) -> 0 <= k - e -> F2R m e = bpow k.
Proof. intros -> H. rewrite F2R_pow2 by lia. f_equal. lia. Qed.

(** The integer term of a pass is small. *)
Lemma an_bound f :
  valid f -> fle f epsilon = false ->
  0 <= to_uint32 (snd (modf (fdiv (of_Z 1) f))) <= 2 ^ 17.
Proof.
  intros Hv Hle. rewrite one_eq.
  destruct f as [s|s| |s m e].
  - destruct s; vm_compute in Hle; discriminate.
  - destruct s; vm_compute; split; discriminate.
  - vm_compute; split; discriminate.
  - destruct s; [vm_compute in Hle; discriminate|].
    apply valid_finite in Hv. destruct Hv as [Hc He].
    assert (Ceps : canonical (Zpos 5902958103587057) (-69)) by (apply canonical_compute; reflexivity).
    assert (Hgt : (F2R (Zpos 5902958103587057) (-69) < F2R (Zpos m) e)%R).
    { rewrite epsilon_eq in Hle.
      destruct (Rlt_le_dec (F2R (Zpos 5902958103587057) (-69)) (F2R (Zpos m) e)) as [|H]; [assumption|].
      apply (fle_pos m e _ _ Hc Ceps) in H. congruence. }
    assert (Hlow : (bpow (-17) <= F2R (Zpos 5902958103587057) (-69))%R).
    { rewrite <- (F2R_pow2_compute (2 ^ 52) (-69) (-17)) by (reflexivity || lia).
      apply F2R_le. lia. }
    assert (C1 : canonical (Zpos 4503599627370496) (-52)) by (apply canonical_compute; reflexivity).
    destruct (fdiv_pos_spec _ _ _ _ C1 Hc) as (v & Hr & Hlo & Hup).
    assert (H1 : F2R (Zpos 4503599627370496) (-52) = 1%R).
    { rewrite (F2R_pow2_compute _ (-52) 0) by (reflexivity || lia). reflexivity. }
    rewrite H1 in *.
    assert (Hx : (1 / F2R (Zpos m) e <= bpow 17)%R).
    { pose proof (bpow_gt_0 (-17)). pose proof (bpow_add (-17) 17) as Hb.
      change (-17 + 17) with 0 in Hb. change (bpow 0) with 1%R in Hb.
      pose proof (bpow_gt_0 17).
      apply Rmult_le_reg_r with (F2R (Zpos m) e); [lra|].
      unfold Rdiv. rewrite Rmult_assoc, Rinv_l by lra. nra. }
    assert (CT : canonical (2 ^ 52) (-35)) by (apply canonical_compute; reflexivity).
    pose proof (Hup _ _ CT) as Hv17.
    rewrite (F2R_pow2_compute (2 ^ 52) (-35) 17) in Hv17 by (reflexivity || lia).
    specialize (Hv17 Hx).
    destruct Hr as [[-> _]|[(mq & eq & -> & Hcq & Heq & Ev)|[_ Hinf]]].
    + vm_compute; split; discriminate.
    + pose proof (floor_of_spec (Zpos mq) eq ltac:(lia)) as [Hfl _].
      pose proof (floor_of_nonneg (Zpos mq) eq ltac:(lia)).
      assert (floor_of (Zpos mq) eq <= 2 ^ 17).
      { apply le_IZR. rewrite <- bpow_IZR by lia. lra. }
      rewrite to_uint32_modf; [lia|assumption|lia].
    + pose proof (bpow_lt 17 1024 ltac:(lia)). lra.
Qed.

Lemma scan_total f0 D an h0 h1 k0 k1 :
  0 <= an < 2 ^ 32 - 1 ->
  forall fuel m bs, 0 <= m -> (Z.to_nat (an + 1 - m) < fuel)%nat ->
  exists bs', scan fuel f0 D an h0 h1 k0 k1 m bs = Some bs'.
Proof.
  intros Han. induction fuel as [|fuel IH]; intros m bs Hm Hf; [lia|]. simpl.
  destruct (Z.leb_spec m an) as [Hle|Hgt]; [|eexists; reflexivity].
  destruct (u32 (m * k1 + k0) >? D); [eexists; reflexivity|].
  assert (E : u32 (m + 1) = m + 1) by (unfold u32; apply Z.mod_small; lia).
  rewrite E. apply IH; lia.
Qed.

Lemma to_uint32_range x : 0 <= to_uint32 x < 2 ^ 32.
Proof.
  unfold to_uint32. destruct (trunc x) as [t|]; [|lia].
  destruct (Z.abs t <? 2 ^ 63); [|lia]. apply Z.mod_pos_bound. lia.
Qed.

Lemma expand_step_total f0 D st :
  valid (cf_f st) -> fle (cf_f st) epsilon = false ->
  exists st', expand_step f0 D st = Some st' /\ valid (cf_f st').
Proof.
  intros Hv Hle. unfold expand_step.
  pose proof (an_bound (cf_f st) Hv Hle) as Han.
  pose proof (modf_frac_valid (fdiv (of_Z 1) (cf_f st))) as Hv'.
  destruct (modf (fdiv (of_Z 1) (cf_f st))) as [f' anf]. simpl in Han, Hv'.
  set (an := to_uint32 anf) in *.
  destruct (scan_total f0 D an (cf_h0 st) (cf_h1 st) (cf_k0 st) (cf_k1 st) ltac:(lia)
              (scan_fuel an) (u32 (an + 1) / 2) (cf_best st)) as [bs' E].
  - apply Z.div_pos; [|lia]. unfold u32. apply Z.mod_pos_bound. lia.
  - unfold scan_fuel.
    assert (0 <= u32 (an + 1) / 2) by (apply Z.div_pos; [|lia]; unfold u32; apply Z.mod_pos_bound; lia).
    lia.
  - rewrite E. eexists. split; [reflexivity|]. exact Hv'.
Qed.

Lemma expand_total f0 D : forall i st, valid (cf_f st) -> exists bs, expand i f0 D st = Some bs.
Proof.
  induction i as [|i IH]; intros st Hv; simpl; [eexists; reflexivity|].
  destruct (fle (cf_f st) epsilon) eqn:Hle; [eexists; reflexivity|].
  destruct (expand_step_total f0 D st Hv Hle) as (st' & -> & Hv').
  apply IH. exact Hv'.
Qed.

Lemma rational_approximation_total value D out0 :
  exists r, rational_approximation value D out0 = Some r.
Proof.
  unfold rational_approximation.
  pose proof (modf_frac_valid value) as Hv.
  destruct (modf value) as [f0 af]. simpl in Hv.
  destruct (expand_total f0 D 100 (CF f0 1 0 0 1 (Best f0 0 1)) Hv) as [bs E].
  simpl rb. simpl rc. rewrite E. eexists. reflexivity.
Qed.

(** ** The order of the comparisons; the scan as a fold *)

Ltac cmp_cases :=
  repeat match goal with
  | H : context [Z.compare ?a ?b] |- _ => destruct (Z.compare_spec a b); subst
  | |- context [Z.compare ?a ?b] => destruct (Z.compare_spec a b); subst
  end;
  rewrite ?Pos.compare_cont_spec in *; simpl in *;
  repeat match goal with
  | H : context [Pos.compare ?a ?b] |- _ => destruct (Pos.compare_spec a b); subst
  | |- context [Pos.compare ?a ?b] => destruct (Pos.compare_spec a b); subst
  end;
  simpl in *; try discriminate; try reflexivity; try lia.

Lemma flt_irrefl a : flt a a = false.
Proof.
  unfold flt, SFltb. destruct a as [[]|[]| |[] m e]; simpl; try reflexivity; cmp_cases.
Qed.

Lemma flt_trans a b c : flt a b = true -> flt b c = true -> flt a c = true.
Proof.
  unfold flt, SFltb.
  destruct a as [[]|[]| |[] ma ea], b as [[]|[]| |[] mb eb], c as [[]|[]| |[] mc ec];
    simpl; try discriminate; try reflexivity; intros H1 H2; cmp_cases.
Qed.

Lemma compare_antisym a b c : SFcompare a b = Some c -> SFcompare b a = Some (CompOpp c).
Proof.
  destruct a as [[]|[]| |[] ma ea], b as [[]|[]| |[] mb eb];
    simpl; try discriminate; intros H; injection H as <-; try reflexivity; f_equal; cmp_cases.
Qed.

Lemma flt_negtrans a b c :
  b <> S754_nan -> flt a b = false -> flt b c = false -> flt a c = false.
Proof.
  unfold flt, SFltb.
  destruct a as [[]|[]| |[] ma ea], b as [[]|[]| |[] mb eb], c as [[]|[]| |[] mc ec];
    simpl; try discriminate; try reflexivity; try congruence; intros _ H1 H2; cmp_cases.
Qed.

Lemma flt_not_nan a b : flt a b = true -> a <> S754_nan.
Proof. intros H ->. discriminate. Qed.

Lemma scan_fold f0 D an h0 h1 k0 k1 :
  forall fuel m bs bs',
  scan fuel f0 D an h0 h1 k0 k1 m bs = Some bs' ->
  bs' = improve_all f0 (scan_cands fuel D an h0 h1 k0 k1 m) bs.
Proof.
  induction fuel as [|fuel IH]; intros m bs bs' H; simpl in *; [discriminate|].
  destruct (m <=? an); [|injection H as <-; reflexivity].
  destruct (u32 (m * k1 + k0) >? D); [injection H as <-; reflexivity|].
  apply IH in H. exact H.
Qed.

Lemma expand_step_fold f0 D st st' :
  expand_step f0 D st = Some st' ->
  cf_best st' = improve_all f0 (step_cands D st) (cf_best st).
Proof.
  unfold expand_step, step_cands.
  destruct (modf (fdiv (of_Z 1) (cf_f st))) as [f' anf]. simpl snd.
  destruct (scan _ _ _ _ _ _ _ _ _ _) as [bs|] eqn:E; [|discriminate].
  intros H. injection H as <-. simpl. apply scan_fold in E. exact E.
Qed.

Lemma improve_all_app f0 cs1 cs2 bs :
  improve_all f0 (cs1 ++ cs2) bs = improve_all f0 cs2 (improve_all f0 cs1 bs).
Proof. apply fold_left_app. Qed.

Lemma expand_fold f0 D :
  forall i st bs', expand i f0 D st = Some bs' ->
  bs' = improve_all f0 (expand_cands i f0 D st) (cf_best st).
Proof.
  induction i as [|i IH]; intros st bs' H; simpl in *; [injection H as <-; reflexivity|].
  destruct (fle (cf_f st) epsilon); [injection H as <-; reflexivity|].
  destruct (expand_step f0 D st) as [st'|] eqn:E; [|discriminate].
  rewrite improve_all_app. rewrite <- (expand_step_fold _ _ _ _ E). apply IH. exact H.
Qed.

Lemma scan_cands_le D an h0 h1 k0 k1 :
  forall fuel m c, In c (scan_cands fuel D an h0 h1 k0 k1 m) ->
  0 <= fst c < 2 ^ 32 /\ 0 <= snd c < 2 ^ 32 /\ snd c <= D.
Proof.
  induction fuel as [|fuel IH]; intros m c H; simpl in *; [contradiction|].
  destruct (m <=? an); [|contradiction].
  destruct (Z.gtb_spec (u32 (m * k1 + k0)) D); [contradiction|].
  destruct H as [<-|H]; [|eapply IH; eassumption].
  simpl. unfold u32.
  pose proof (Z.mod_pos_bound (m * h1 + h0) (2 ^ 32) ltac:(lia)).
  pose proof (Z.mod_pos_bound (m * k1 + k0) (2 ^ 32) ltac:(lia)). unfold u32 in *. lia.
Qed.

Lemma expand_cands_le f0 D :
  forall i st c, In c (expand_cands i f0 D st) ->
  0 <= fst c < 2 ^ 32 /\ 0 <= snd c < 2 ^ 32 /\ snd c <= D.
Proof.
  induction i as [|i IH]; intros st c H; simpl in *; [contradiction|].
  destruct (fle (cf_f st) epsilon); [contradiction|].
  apply in_app_or in H. destruct H as [H|H].
  - unfold step_cands in H. eapply scan_cands_le; eassumption.
  - destruct (expand_step f0 D st) as [st'|]; [|contradiction]. eapply IH; eassumption.
Qed.

Lemma improve_step f0 hm km bs :
  let bs1 := improve f0 hm km bs in
  flt (cand_err f0 hm km) (delta bs1) = false
  /\ flt (delta bs) (delta bs1) = false
  /\ (delta bs <> S754_nan -> delta bs1 <> S754_nan)
  /\ (bs1 = bs \/ bs1 = Best (cand_err f0 hm km) hm km).
Proof.
  unfold improve. destruct (flt (cand_err f0 hm km) (delta bs)) eqn:E; simpl.
  - split; [apply flt_irrefl|]. split; [|split; [|right; reflexivity]].
    + destruct (flt (delta bs) _) eqn:E'; [|reflexivity].
      pose proof (flt_trans _ _ _ E E') as F. rewrite flt_irrefl in F. discriminate.
    + intros _. eapply flt_not_nan; eassumption.
  - split; [assumption|]. split; [apply flt_irrefl|]. split; [tauto|left; reflexivity].
Qed.

Lemma improve_all_cons f0 c cs bs :
  improve_all f0 (c :: cs) bs = improve_all f0 cs (improve f0 (fst c) (snd c) bs).
Proof. reflexivity. Qed.

(** A fold of [improve] ends on a minimum of the errors. *)
Lemma improve_all_min f0 : forall cs bs,
  delta bs <> S754_nan ->
  (forall c, In c cs ->
     flt (cand_err f0 (fst c) (snd c)) (delta (improve_all f0 cs bs)) = false)
  /\ flt (delta bs) (delta (improve_all f0 cs bs)) = false
  /\ delta (improve_all f0 cs bs) <> S754_nan
  /\ (improve_all f0 cs bs = bs \/
      (In (best_b (improve_all f0 cs bs), best_c (improve_all f0 cs bs)) cs
       /\ delta (improve_all f0 cs bs)
          = cand_err f0 (best_b (improve_all f0 cs bs))
              (best_c (improve_all f0 cs bs)))).
Proof.
  induction cs as [|c cs IH]; intros bs Hn.
  - split; [intros c []|]. split; [apply flt_irrefl|]. split; [assumption|]. left; reflexivity.
  - destruct (improve_step f0 (fst c) (snd c) bs) as (Hc & Hb & Hn1 & Hshape).
    specialize (Hn1 Hn).
    destruct (IH _ Hn1) as (Hall & Hmono & Hnn & Hsel).
    rewrite improve_all_cons.
    set (bs1 := improve f0 (fst c) (snd c) bs) in *.
    set (bs' := improve_all f0 cs bs1) in *.
    split; [|split; [|split]].
    + intros c' [<-|Hin]; [|apply Hall; assumption].
      apply (flt_negtrans _ (delta bs1)); assumption.
    + apply (flt_negtrans _ (delta bs1)); assumption.
    + assumption.
    + destruct Hsel as [E|[Hin Hd]].
      * destruct Hshape as [E1|E1].
        -- left. congruence.
        -- right. rewrite E, E1. simpl. split; [left; destruct c; reflexivity|reflexivity].
      * right. split; [right; assumption|assumption].
Qed.

(** ** The error of a candidate *)

(** Difference of positive doubles. *)
Lemma fsub_pos_spec mx ex my ey :
  let d := (F2R (Zpos mx) ex - F2R (Zpos my) ey)%R in
  let r := fsub (S754_finite false mx ex) (S754_finite false my ey) in
  (d = 0%R /\ r = S754_zero false)
  \/ ((0 < d)%R /\ exists v, rounds_to false r v /\ thresholds d v)
  \/ ((d < 0)%R /\ exists v, rounds_to true r v /\ thresholds (- d) v).
Proof.
  intros d r. unfold r, fsub, SFsub.
  set (ez := Z.min ex ey).
  pose proof (shl_align_spec mx ex ez) as Hx. pose proof (shl_align_spec my ey ez) as Hy.
  destruct (shl_align mx ex ez) as [ax ax']. destruct (shl_align my ey ez) as [ay ay'].
  destruct Hx as [Ex Hx]. destruct Hy as [Ey Hy]. simpl fst. unfold cond_Zopp.
  assert (Ex' : ax' = ez) by (unfold ez in *; lia).
  assert (Ey' : ay' = ez) by (unfold ez in *; lia). clear Ex Ey. subst ax' ay'.
  assert (Vx : F2R (Zpos ax) ez = F2R (Zpos mx) ex).
  { rewrite Hx. symmetry. apply F2R_align. unfold ez. lia. }
  assert (Vy : F2R (Zpos ay) ez = F2R (Zpos my) ey).
  { rewrite Hy. symmetry. apply F2R_align. unfold ez. lia. }
  assert (Vd : F2R (Zpos ax - Zpos ay) ez = d).
  { unfold d. rewrite <- Vx, <- Vy. unfold F2R. rewrite minus_IZR. ring. }
  destruct (Zpos ax - Zpos ay) as [|p|p] eqn:Ed; unfold binary_normalize.
  - left. split; [rewrite <- Vd; apply F2R_0|reflexivity].
  - right; left. split; [rewrite <- Vd; apply F2R_pos; lia|].
    rewrite <- Vd. apply binary_round_spec.
  - right; right.
    assert (Vn : F2R (Zpos p) ez = (- d)%R).
    { rewrite <- Vd. unfold F2R. change (Zneg p) with (- Zpos p). rewrite opp_IZR. ring. }
    split; [pose proof (F2R_pos (Zpos p) ez ltac:(lia)); lra|].
    rewrite <- Vn. apply binary_round_spec.
Qed.

Lemma rounds_to_fabs s r v : rounds_to s r v -> rounds_to false (fabs r) v.
Proof.
  intros [[-> E]|[(m & e & -> & H)|[-> H]]].
  - left. split; [reflexivity|assumption].
  - right; left. exists m, e. split; [reflexivity|assumption].
  - right; right. split; [reflexivity|assumption].
Qed.

Lemma nn_finite m e : canonical (Zpos m) e -> e <= 971 ->
  nn (S754_finite false m e) (F2R (Zpos m) e).
Proof.
  intros Hc He. split.
  - right; left. exists m, e. repeat split; try assumption; apply Hc.
  - apply canonical_lt_max; assumption.
Qed.

Lemma flt_nn a va b vb : nn a va -> nn b vb -> (flt a b = true <-> (va < vb)%R).
Proof.
  intros [Ha La] [Hb Lb].
  destruct Ha as [[-> ->]|[(ma & ea & -> & Hca & Hea & ->)|[_ Ha]]]; [| |lra];
  destruct Hb as [[-> ->]|[(mb & eb & -> & Hcb & Heb & ->)|[_ Hb]]]; try lra.
  - split; [discriminate|lra].
  - pose proof (F2R_pos (Zpos mb) eb ltac:(lia)). split; [intros _; assumption|reflexivity].
  - pose proof (F2R_pos (Zpos ma) ea ltac:(lia)). split; [discriminate|lra].
  - apply flt_pos; assumption.
Qed.

Lemma flt_inf_false x : flt (S754_infinity false) x = false.
Proof. destruct x as [[]|[]| |[] m e]; reflexivity. Qed.

Lemma of_Z_u32 z : 0 < z < 2 ^ 32 ->
  exists m e, of_Z z = S754_finite false m e /\ canonical (Zpos m) e /\ e <= 971
              /\ F2R (Zpos m) e = IZR z.
Proof.
  intros Hz. destruct (of_Z_pos z ltac:(lia)) as (E & C & V).
  pose proof (dig_pos z ltac:(lia)).
  pose proof (dig_lt_pow z 32 ltac:(lia) ltac:(lia) ltac:(lia)).
  assert (0 < z * 2 ^ (53 - dig z)) by (apply C).
  exists (Z.to_pos (z * 2 ^ (53 - dig z))), (dig z - 53).
  rewrite Z2Pos.id by lia. repeat split; try assumption; try apply C; lia.
Qed.

Lemma canonical_one : canonical (2 ^ 52) (-52) /\ F2R (2 ^ 52) (-52) = 1%R.
Proof.
  split; [apply canonical_compute; reflexivity|].
  rewrite (F2R_pow2_compute _ (-52) 0) by (reflexivity || lia). reflexivity.
Qed.

(** The error of a candidate, by cases on the candidate. *)
Lemma cand_err_cases m0 e0 hm km :
  canonical (Zpos m0) e0 -> e0 <= 971 ->
  0 <= hm < 2 ^ 32 -> 0 <= km < 2 ^ 32 ->
  let f0 := S754_finite false m0 e0 in
  let F0 := F2R (Zpos m0) e0 in
  (km = 0 /\ forall x, flt (cand_err f0 hm km) x = false)
  \/ (0 < km /\ hm = 0 /\ cand_err f0 hm km = f0)
  \/ (0 < km /\ 0 < hm /\
      ((cand_err f0 hm km = S754_zero false /\ (km <= hm -> (1 <= F0)%R))
       \/ exists v, rounds_to false (cand_err f0 hm km) v
            /\ (km <= hm -> forall t et, canonical t et ->
                  (F2R t et <= 1 - F0)%R -> (F2R t et <= v)%R)
            /\ (hm = km -> forall t et, canonical t et ->
                  (1 - F0 <= F2R t et)%R -> (F0 < 1)%R -> (v <= F2R t et)%R))).
Proof.
  intros Hc0 He0 Hhm Hkm f0 F0. subst f0. unfold cand_err.
  destruct (Z.eq_dec km 0) as [->|Hk0].
  { left. split; [reflexivity|]. intros x.
    destruct (Z.eq_dec hm 0) as [->|Hh0]; [reflexivity|].
    destruct (of_Z_u32 hm ltac:(lia)) as (m & e & -> & _). simpl. apply flt_inf_false. }
  destruct (of_Z_u32 km ltac:(lia)) as (mk & ek & Ek & Ck & Hek & Vk).
  destruct (Z.eq_dec hm 0) as [->|Hh0].
  { right; left. split; [lia|]. split; [reflexivity|]. rewrite Ek. reflexivity. }
  destruct (of_Z_u32 hm ltac:(lia)) as (mh & eh & Eh & Ch & Heh & Vh).
  right; right. split; [lia|]. split; [lia|]. rewrite Eh, Ek.
  destruct (fdiv_pos_spec mh eh mk ek Ch Ck) as (vq & Hq & Hlo & Hup).
  rewrite Vh, Vk in Hlo, Hup.
  assert (Hkpos : (0 < IZR km)%R) by (apply IZR_lt; lia).
  assert (Hhpos : (0 < IZR hm)%R) by (apply IZR_lt; lia).
  (* the quotient is a positive finite double *)
  assert (Hqlo : (bpow (-32) <= vq)%R).
  { assert (CT : canonical (2 ^ 52) (-84)) by (apply canonical_compute; reflexivity).
    pose proof (Hlo _ _ CT) as H. rewrite (F2R_pow2_compute _ (-84) (-32)) in H by (reflexivity || lia).
    apply H. apply Rmult_le_reg_r with (IZR km); [assumption|].
    unfold Rdiv. rewrite Rmult_assoc, Rinv_l by lra.
    pose proof (bpow_add (-32) 32) as Hb. change (-32 + 32) with 0 in Hb. change (bpow 0) with 1%R in Hb.
    assert (IZR km <= bpow 32)%R by (rewrite bpow_IZR by lia; apply IZR_le; lia).
    assert (1 <= IZR hm)%R by (apply IZR_le; lia).
    pose proof (bpow_gt_0 (-32)). nra. }
  assert (Hqup : (vq <= bpow 32)%R).
  { assert (CT : canonical (2 ^ 52) (-20)) by (apply canonical_compute; reflexivity).
    pose proof (Hup _ _ CT) as H. rewrite (F2R_pow2_compute _ (-20) 32) in H by (reflexivity || lia).
    apply H. apply Rmult_le_reg_r with (IZR km); [assumption|].
    unfold Rdiv. rewrite Rmult_assoc, Rinv_l by lra.
    assert (IZR hm <= bpow 32)%R by (rewrite bpow_IZR by lia; apply IZR_le; lia).
    assert (1 <= IZR km)%R by (apply IZR_le; lia).
    pose proof (bpow_gt_0 32). nra. }
  pose proof (bpow_gt_0 (-32)) as Hb32.
  destruct Hq as [[_ Ev]|[(mq & eq & Eq & Cq & Heq & Ev)|[_ Hinf]]];
    [lra| |pose proof (bpow_lt 32 1024 ltac:(lia)); lra].
  fold fdiv. rewrite Eq. subst vq.
  pose proof (fsub_pos_spec mq eq m0 e0) as Hs. cbv zeta in Hs. fold F0 in Hs.
  destruct Hs as [[Hd Er]|[[Hd (v & Hr & Ht)]|[Hd (v & Hr & Ht)]]].
  - (* the quotient is f0 *)
    left. rewrite Er. split; [reflexivity|]. intros Hge.
    assert (1 <= F2R (Zpos mq) eq)%R; [|lra].
    destruct canonical_one as [C1 V1]. rewrite <- V1. apply Hlo; [assumption|]. rewrite V1.
    apply Rmult_le_reg_r with (IZR km); [assumption|].
    unfold Rdiv. rewrite Rmult_assoc, Rinv_l by lra. apply IZR_le in Hge. lra.
  - right. exists v. split; [apply (rounds_to_fabs false); assumption|].
    destruct Ht as [Tlo Tup]. split.
    + intros Hge t et Ct Hle. apply Tlo; [assumption|].
      assert (1 <= F2R (Zpos mq) eq)%R.
      { destruct canonical_one as [C1 V1]. rewrite <- V1. apply Hlo; [assumption|]. rewrite V1.
        apply Rmult_le_reg_r with (IZR km); [assumption|].
        unfold Rdiv. rewrite Rmult_assoc, Rinv_l by lra. apply IZR_le in Hge. lra. }
      lra.
    + intros -> t et Ct Hle _. apply Tup; [assumption|].
      assert (F2R (Zpos mq) eq <= 1)%R.
      { destruct canonical_one as [C1 V1]. rewrite <- V1. apply Hup; [assumption|]. rewrite V1.
        unfold Rdiv. rewrite Rinv_r by lra. lra. }
      lra.
  - right. exists v. split; [apply (rounds_to_fabs true); assumption|].
    split.
    + intros Hge t et Ct Hle. exfalso.
      assert (1 <= F2R (Zpos mq) eq)%R.
      { destruct canonical_one as [C1 V1]. rewrite <- V1. apply Hlo; [assumption|]. rewrite V1.
        apply Rmult_le_reg_r with (IZR km); [assumption|].
        unfold Rdiv. rewrite Rmult_assoc, Rinv_l by lra. apply IZR_le in Hge. lra. }
      pose proof (F2R_pos t et (proj1 Ct)). lra.
    + intros -> t et Ct Hle Hlt. exfalso.
      assert (1 <= F2R (Zpos mq) eq)%R.
      { destruct canonical_one as [C1 V1]. rewrite <- V1. apply Hlo; [assumption|]. rewrite V1.
        unfold Rdiv. rewrite Rinv_r by lra. lra. }
      lra.
Qed.

(** ** The invariant of the running best *)

Lemma rounds_to_nn_or_inf r v :
  rounds_to false r v -> nn r v \/ r = S754_infinity false.
Proof.
  intros H. pose proof H as H'.
  destruct H as [[-> ->]|[(m & e & -> & Hc & He & ->)|[-> _]]].
  - left. split; [assumption|]. apply bpow_gt_0.
  - left. split; [assumption|]. apply canonical_lt_max; assumption.
  - right. reflexivity.
Qed.

Lemma improve_inv m0 e0 D Bnd hm km bs :
  canonical (Zpos m0) e0 -> (F2R (Zpos m0) e0 < 1)%R ->
  representable Bnd -> (Bnd <= F2R (Zpos m0) e0)%R -> (Bnd <= 1 - F2R (Zpos m0) e0)%R ->
  0 <= hm < 2 ^ 32 -> 0 <= km < 2 ^ 32 -> km <= D ->
  inv D Bnd bs -> inv D Bnd (improve (S754_finite false m0 e0) hm km bs).
Proof.
  intros Hc HF1 (t & et & Ct & Vt) HB1 HB2 Hhm Hkm HkD (vd & Hnn & Hvd & Hsh & Hcd).
  assert (He0 : e0 <= 971).
  { destruct (Z_le_gt_dec e0 971); [assumption|exfalso].
    pose proof (F2R_dig (Zpos m0) e0 ltac:(lia)) as [Hl _].
    pose proof (dig_pos (Zpos m0) ltac:(lia)).
    pose proof (bpow_le 0 (dig (Zpos m0) + e0 - 1) ltac:(lia)). change (bpow 0) with 1%R in H0. lra. }
  unfold improve.
  destruct (flt (cand_err (S754_finite false m0 e0) hm km) (delta bs)) eqn:E;
    [|exact (ex_intro _ vd (conj Hnn (conj Hvd (conj Hsh Hcd))))].
  simpl.
  destruct (cand_err_cases m0 e0 hm km Hc He0 Hhm Hkm)
    as [[_ Hf]|[(Hk & _ & Ec)|(Hk & Hh & [[Ez Hge]|(v & Hr & Hlo & _)])]].
  - rewrite Hf in E. discriminate.
  - rewrite Ec in E.
    apply (flt_nn _ (F2R (Zpos m0) e0) _ vd (nn_finite m0 e0 Hc He0) Hnn) in E. lra.
  - rewrite Ez in *.
    assert (Hz : nn (S754_zero false) 0).
    { split; [left; split; reflexivity|apply bpow_gt_0]. }
    apply (flt_nn _ 0 _ vd Hz Hnn) in E.
    exists 0%R. split; [assumption|]. split; [lra|]. split.
    + right; right. simpl. destruct (Z_lt_ge_dec hm km); [lia|]. specialize (Hge ltac:(lia)). lra.
    + simpl. lia.
  - destruct (rounds_to_nn_or_inf _ _ Hr) as [Hn|Einf];
      [|rewrite Einf, flt_inf_false in E; discriminate].
    apply (flt_nn _ v _ vd Hn Hnn) in E.
    exists v. split; [assumption|]. split; [lra|]. split.
    + right; right. simpl. destruct (Z_lt_ge_dec hm km); [lia|].
      specialize (Hlo ltac:(lia) t et Ct ltac:(lra)). lra.
    + simpl. lia.
Qed.

Lemma improve_all_inv m0 e0 D Bnd :
  canonical (Zpos m0) e0 -> (F2R (Zpos m0) e0 < 1)%R ->
  representable Bnd -> (Bnd <= F2R (Zpos m0) e0)%R -> (Bnd <= 1 - F2R (Zpos m0) e0)%R ->
  forall cs bs,
  (forall c, In c cs -> 0 <= fst c < 2 ^ 32 /\ 0 <= snd c < 2 ^ 32 /\ snd c <= D) ->
  inv D Bnd bs -> inv D Bnd (improve_all (S754_finite false m0 e0) cs bs).
Proof.
  intros Hc HF1 HR HB1 HB2. induction cs as [|c cs IH]; intros bs Hcs Hinv; [exact Hinv|].
  rewrite improve_all_cons. apply IH; [intros c' Hin; apply Hcs; right; assumption|].
  destruct (Hcs c (or_introl eq_refl)) as (H1 & H2 & H3).
  apply (improve_inv m0 e0 D Bnd); assumption.
Qed.

(** The fractional part of a non-negative double. *)
Lemma modf_frac_pos m e :
  canonical (Zpos m) e ->
  let f0 := fst (modf (S754_finite false m e)) in
  f0 = S754_zero false
  \/ exists m0 e0, f0 = S754_finite false m0 e0 /\ canonical (Zpos m0) e0
                   /\ (F2R (Zpos m0) e0 < 1)%R.
Proof.
  intros Hc. simpl. destruct (Z.leb_spec 0 e) as [He|He]; [left; reflexivity|]. simpl fst.
  assert (Hp : 0 < 2 ^ (- e)) by (apply Z.pow_pos_nonneg; lia).
  pose proof (Z.mod_pos_bound (Zpos m) (2 ^ (- e)) Hp) as Hb.
  destruct (Zpos m mod 2 ^ (- e)) as [|p|p] eqn:Er; [left; reflexivity| |lia].
  right. unfold normalize.
  assert (Hdp : dig (Zpos p) <= dig (Zpos m)).
  { apply dig_le. split; [lia|]. rewrite <- Er. apply Z.mod_le; lia. }
  destruct Hc as [_ Hc].
  assert (Hfe : fexp (dig (Zpos p) + e) <= e).
  { rewrite <- Hc at 2. apply fexp_mono. lia. }
  destruct (binary_round_exact false p e Hfe ltac:(lia)) as [E C].
  set (fe := fexp (dig (Zpos p) + e)) in *.
  assert (Hq : 0 < 2 ^ (e - fe)) by (apply Z.pow_pos_nonneg; lia).
  exists (Z.to_pos (Zpos p * 2 ^ (e - fe))), fe. rewrite Z2Pos.id by nia.
  split; [exact E|]. split; [exact C|].
  rewrite <- (F2R_align (Zpos p) e fe) by lia.
  replace 1%R with (F2R (2 ^ (- e)) e).
  - apply F2R_lt. lia.
  - rewrite F2R_pow2 by lia. replace (- e + e) with 0 by lia. reflexivity.
Qed.

Lemma half_lt_canonical m0 e0 :
  canonical (Zpos m0) e0 -> (/ 2 < F2R (Zpos m0) e0 < 1)%R ->
  e0 = -53 /\ 2 ^ 52 < Zpos m0 < 2 ^ 53.
Proof.
  intros [_ Hc] [Hl Hu].
  pose proof (F2R_dig (Zpos m0) e0 ltac:(lia)) as [Hdl Hdu].
  assert (dig (Zpos m0) + e0 = 0).
  { assert (dig (Zpos m0) + e0 - 1 < 0).
    { apply bpow_lt_inv. change (bpow 0) with 1%R. lra. }
    assert (-1 < dig (Zpos m0) + e0).
    { apply bpow_lt_inv. replace (bpow (-1)) with (/ 2)%R; [lra|].
      unfold bpow. simpl. lra. }
    lia. }
  rewrite H in Hc. change (fexp 0) with (-53) in Hc. subst e0. split; [reflexivity|].
  split.
  - apply (F2R_lt_inv _ _ (-53)). rewrite (F2R_pow2_compute (2 ^ 52) (-53) (-1)) by (reflexivity || lia).
    replace (bpow (-1)) with (/ 2)%R; [lra|]. unfold bpow. simpl. lra.
  - apply (F2R_lt_inv _ _ (-53)). rewrite (F2R_pow2_compute (2 ^ 53) (-53) 0) by (reflexivity || lia).
    change (bpow 0) with 1%R. lra.
Qed.

Lemma representable_of z e :
  0 < z -> fexp (dig z + e) <= e -> representable (F2R z e).
Proof.
  intros Hz Hfe. destruct z as [|p|p]; try lia.
  destruct (Z_le_gt_dec (fexp (dig (Zpos p) + e)) 971) as [Hm|Hm].
  - destruct (binary_round_exact false p e Hfe Hm) as [_ C].
    eexists _, _. split; [exact C|]. symmetry. apply F2R_align. lia.
  - exists (Zpos p * 2 ^ (e - fexp (dig (Zpos p) + e))), (fexp (dig (Zpos p) + e)).
    assert (Hp : 0 < 2 ^ (e - fexp (dig (Zpos p) + e))) by (apply Z.pow_pos_nonneg; lia).
    split; [|symmetry; apply F2R_align; lia].
    split; [nia|]. rewrite dig_mul_pow2 by lia.
    replace (dig (Zpos p) + (e - fexp (dig (Zpos p) + e)) + fexp (dig (Zpos p) + e))
      with (dig (Zpos p) + e) by lia. reflexivity.
Qed.

Lemma one_minus_representable m0 e0 :
  canonical (Zpos m0) e0 -> (/ 2 < F2R (Zpos m0) e0 < 1)%R ->
  representable (1 - F2R (Zpos m0) e0).
Proof.
  intros Hc Hr. destruct (half_lt_canonical m0 e0 Hc Hr) as [-> Hm].
  replace (1 - F2R (Zpos m0) (-53))%R with (F2R (2 ^ 53 - Zpos m0) (-53)).
  - apply representable_of; [lia|].
    pose proof (dig_lt_pow (2 ^ 53 - Zpos m0) 53 ltac:(lia) ltac:(lia) ltac:(lia)).
    rewrite fexp_eq. lia.
  - unfold F2R. rewrite minus_IZR.
    pose proof (F2R_pow2_compute (2 ^ 53) (-53) 0 ltac:(reflexivity) ltac:(lia)) as H.
    unfold F2R in H. change (bpow 0) with 1%R in H. lra.
Qed.

(** ** The first candidate, and the shape of the result *)

Lemma an_first m0 e0 :
  canonical (Zpos m0) e0 -> (/ 2 < F2R (Zpos m0) e0 < 1)%R ->
  1 <= to_uint32 (snd (modf (fdiv (of_Z 1) (S754_finite false m0 e0)))) <= 2.
Proof.
  intros Hc [Hl Hu]. rewrite one_eq.
  destruct canonical_one as [C1 V1].
  destruct (fdiv_pos_spec 4503599627370496 (-52) m0 e0 C1 Hc) as (v & Hr & Hlo & Hup).
  change (Z.pos 4503599627370496) with (2 ^ 52) in Hlo, Hup. rewrite V1 in Hlo, Hup.
  assert (H1 : (1 <= v)%R).
  { rewrite <- V1. apply Hlo; [assumption|]. rewrite V1.
    apply Rmult_le_reg_r with (F2R (Zpos m0) e0); [lra|].
    unfold Rdiv. rewrite Rmult_assoc, Rinv_l by lra. lra. }
  assert (H2 : (v <= 2)%R).
  { assert (C2 : canonical (2 ^ 52) (-51)) by (apply canonical_compute; reflexivity).
    assert (V2 : F2R (2 ^ 52) (-51) = 2%R).
    { rewrite (F2R_pow2_compute _ (-51) 1) by (reflexivity || lia). unfold bpow. simpl. lra. }
    rewrite <- V2. apply Hup; [assumption|]. rewrite V2.
    apply Rmult_le_reg_r with (F2R (Zpos m0) e0); [lra|].
    unfold Rdiv. rewrite Rmult_assoc, Rinv_l by lra. lra. }
  destruct Hr as [[_ Ev]|[(mq & eq & -> & Cq & Heq & Ev)|[_ Hinf]]].
  - lra.
  - pose proof (floor_of_spec (Zpos mq) eq ltac:(lia)) as [Hfl Hfu]. rewrite <- Ev in Hfl, Hfu.
    assert (floor_of (Zpos mq) eq <= 2) by (apply le_IZR; lra).
    assert (0 < floor_of (Zpos mq) eq + 1) by (apply lt_IZR; lra).
    assert (floor_of (Zpos mq) eq <> 0).
    { intros E0. rewrite E0 in Hfu. simpl in Hfu. lra. }
    rewrite to_uint32_modf; [lia|assumption|lia].
  - pose proof (bpow_lt 1 1024 ltac:(lia)). replace (bpow 1) with 2%R in H by (unfold bpow; simpl; lra). lra.
Qed.

Lemma epsilon_small : (F2R (Zpos 5902958103587057) (-69) < / 2)%R.
Proof.
  replace (/ 2)%R with (F2R (2 ^ 68) (-69)).
  - apply F2R_lt. reflexivity.
  - rewrite (F2R_pow2_compute _ (-69) (-1)) by (reflexivity || lia). unfold bpow. simpl. lra.
Qed.

Lemma fle_epsilon_half m0 e0 :
  canonical (Zpos m0) e0 -> (/ 2 < F2R (Zpos m0) e0)%R ->
  fle (S754_finite false m0 e0) epsilon = false.
Proof.
  intros Hc Hl. rewrite epsilon_eq.
  assert (Ceps : canonical (Zpos 5902958103587057) (-69)) by (apply canonical_compute; reflexivity).
  destruct (fle (S754_finite false m0 e0) _) eqn:E; [|reflexivity].
  apply (fle_pos m0 e0 _ _ Hc Ceps) in E. pose proof epsilon_small. lra.
Qed.

Lemma scan_cands_first n D an :
  1 <= an -> 1 <= D ->
  scan_cands (S n) D an 1 0 0 1 1 = (1, 1) :: scan_cands n D an 1 0 0 1 2.
Proof.
  intros Han HD. simpl.
  destruct (Z.leb_spec 1 an); [|lia].
  change (u32 1) with 1. change (u32 2) with 2.
  destruct (Z.gtb_spec 1 D); [lia|]. reflexivity.
Qed.

Lemma first_candidate m0 e0 D bs :
  canonical (Zpos m0) e0 -> (/ 2 < F2R (Zpos m0) e0 < 1)%R -> 1 <= D ->
  let f0 := S754_finite false m0 e0 in
  exists rest, expand_cands 100 f0 D (CF f0 1 0 0 1 bs) = (1, 1) :: rest.
Proof.
  intros Hc Hr HD f0. subst f0.
  change (expand_cands 100) with (expand_cands (S 99)).
  cbn [expand_cands cf_f]. rewrite (fle_epsilon_half m0 e0 Hc (proj1 Hr)).
  unfold step_cands. cbn [cf_f cf_h0 cf_h1 cf_k0 cf_k1].
  pose proof (an_first m0 e0 Hc Hr) as Han.
  set (an := to_uint32 _) in *.
  assert (Em : u32 (an + 1) / 2 = 1).
  { assert (an = 1 \/ an = 2) as [->| ->] by lia; reflexivity. }
  rewrite Em. unfold scan_fuel. replace (Z.to_nat an + 2)%nat with (S (Z.to_nat an + 1)) by lia.
  rewrite scan_cands_first by lia. eexists. reflexivity.
Qed.

Lemma improve_first m0 e0 D :
  canonical (Zpos m0) e0 -> (/ 2 < F2R (Zpos m0) e0 < 1)%R -> 1 <= D ->
  let f0 := S754_finite false m0 e0 in
  inv D (1 - F2R (Zpos m0) e0) (improve f0 1 1 (Best f0 0 1)).
Proof.
  intros Hc Hr HD f0. subst f0.
  destruct (half_lt_canonical m0 e0 Hc Hr) as [He0 _].
  destruct (one_minus_representable m0 e0 Hc Hr) as (t & et & Ct & Vt).
  unfold improve. cbn [delta].
  destruct (cand_err_cases m0 e0 1 1 Hc ltac:(lia) ltac:(lia) ltac:(lia))
    as [[H _]|[(_ & H & _)|(_ & _ & [[Ez Hge]|(v & Hv & Hlo & Hup)])]]; try lia.
  - specialize (Hge ltac:(lia)). lra.
  - assert (Ev : v = (1 - F2R (Zpos m0) e0)%R).
    { apply Rle_antisym.
      - rewrite <- Vt. apply (Hup eq_refl); [assumption|lra|lra].
      - rewrite <- Vt. apply (Hlo ltac:(lia)); [assumption|lra]. }
    destruct (rounds_to_nn_or_inf _ _ Hv) as [Hn|Einf].
    + assert (E : flt (cand_err (S754_finite false m0 e0) 1 1) (S754_finite false m0 e0) = true).
      { apply (flt_nn _ v _ (F2R (Zpos m0) e0) Hn (nn_finite m0 e0 Hc ltac:(lia))). lra. }
      rewrite E. exists v. cbn [delta best_b best_c]. split; [assumption|]. split; [lra|].
      split; [right; left; split; reflexivity|lia].
    + exfalso. rewrite Einf in Hv.
      destruct Hv as [[Hv _]|[(? & ? & Hv & _)|[_ Hv]]]; try discriminate.
      pose proof (bpow_lt 0 1024 ltac:(lia)). change (bpow 0) with 1%R in H. lra.
Qed.

Lemma expand_zero s D bs i :
  expand (S i) (S754_zero s) D (CF (S754_zero s) 1 0 0 1 bs) = Some bs.
Proof. destruct s; reflexivity. Qed.

(** The returned pair, for a fractional part that is a positive double. *)
Lemma best_shape m0 e0 D bs :
  canonical (Zpos m0) e0 -> (F2R (Zpos m0) e0 < 1)%R -> 1 <= D ->
  let f0 := S754_finite false m0 e0 in
  expand 100 f0 D (CF f0 1 0 0 1 (Best f0 0 1)) = Some bs ->
  shape (best_b bs) (best_c bs) /\ 1 <= best_c bs <= D.
Proof.
  intros Hc HF1 HD f0 E. subst f0.
  apply expand_fold in E. cbn [cf_best] in E.
  assert (He0 : e0 <= 971).
  { destruct (Z_le_gt_dec e0 971); [assumption|exfalso].
    pose proof (F2R_dig (Zpos m0) e0 ltac:(lia)) as [Hl _].
    pose proof (dig_pos (Zpos m0) ltac:(lia)).
    pose proof (bpow_le 0 (dig (Zpos m0) + e0 - 1) ltac:(lia)). change (bpow 0) with 1%R in H0. lra. }
  pose proof (expand_cands_le (S754_finite false m0 e0) D 100
                (CF (S754_finite false m0 e0) 1 0 0 1 (Best (S754_finite false m0 e0) 0 1))) as Hle.
  destruct (Rle_lt_dec (F2R (Zpos m0) e0) (/ 2)) as [Hh|Hh].
  - (* at most one half: the bound is f0 itself *)
    assert (Hinv : inv D (F2R (Zpos m0) e0) bs).
    { rewrite E. apply improve_all_inv; try assumption; try lra.
      - exists (Zpos m0), e0. split; [assumption|reflexivity].
      - exists (F2R (Zpos m0) e0). split; [apply nn_finite; assumption|].
        split; [lra|]. split; [left; split; reflexivity|simpl; lia]. }
    destruct Hinv as (v & _ & _ & Hs & Hcd). split; assumption.
  - destruct (first_candidate m0 e0 D (Best (S754_finite false m0 e0) 0 1) Hc (conj Hh HF1) HD)
      as [rest Er].
    cbv zeta in Er. rewrite Er in E, Hle. rewrite improve_all_cons in E. cbn [fst snd] in E.
    assert (Hinv : inv D (1 - F2R (Zpos m0) e0) bs).
    { rewrite E. apply improve_all_inv; try assumption; try lra.
      - apply one_minus_representable; [assumption|lra].
      - intros c Hin. apply Hle. right. assumption.
      - apply improve_first; [assumption|lra|assumption]. }
    destruct Hinv as (v & _ & _ & Hs & Hcd). split; assumption.
Qed.

(** ** The loop of the first scenario *)

Lemma fle_of_not_flt a b :
  a <> S754_nan -> b <> S754_nan -> flt a b = false -> fle b a = true.
Proof.
  unfold flt, fle, SFltb, SFleb.
  destruct a as [[]|[]| |[] ma ea], b as [[]|[]| |[] mb eb];
    simpl; try discriminate; try reflexivity; try congruence; intros _ _ H; cmp_cases.
Qed.

Lemma additional_clocks_total junk_out e pll idx :
  exists ls, additional_clocks junk_out e pll idx = Some ls.
Proof.
  induction idx as [|i idx [ls IH]]; simpl; [eexists; reflexivity|].
  destruct (rational_approximation_total (fdiv pll (clks e i)) SI5351_MAX_DENOMINATOR junk_out)
    as [r ->].
  rewrite IH. destruct (_ || _); eexists; reflexivity.
Qed.

Lemma plan_a_total junk_out e c :
  exists ev, plan_a junk_out e c = Some ev /\ candidate_of ev = [c].
Proof.
  unfold plan_a.
  destruct (rational_approximation_total (feedback_ms_a e c) SI5351_MAX_DENOMINATOR junk_out)
    as [r ->].
  destruct (additional_clocks_total junk_out e (fmul (xtal e) (ratio_value r)) (clock_indices e))
    as [ls ->].
  eexists. split; reflexivity.
Qed.

Lemma descending_S c n : descending c (S n) = c :: descending (c - 2) n.
Proof.
  unfold descending. cbn [seq map]. f_equal; [lia|].
  rewrite <- seq_shift, map_map. apply map_ext. intros i. lia.
Qed.

(** The loop visits [c], [c - 2], ... and ends on the first candidate
    that the test of the loop refuses. *)
Lemma scenario_a_loop_run junk_out e :
  forall fuel c, 0 <= c < 2 ^ 32 -> (Z.to_nat c < fuel)%nat ->
  exists evs n,
    scenario_a_loop junk_out fuel e c = Some evs
    /\ candidates evs = descending c n
    /\ (forall i, (i < n)%nat -> stops_a e (c - 2 * Z.of_nat i) = false)
    /\ stops_a e (c - 2 * Z.of_nat n) = true.
Proof.
  induction fuel as [|fuel IH]; intros c Hc Hf; [lia|]. simpl.
  destruct (stops_a e c) eqn:Es.
  - exists [], 0%nat. split; [reflexivity|]. split; [reflexivity|].
    split; [intros i Hi; lia|]. rewrite Z.sub_0_r. exact Es.
  - assert (H4 : 4 <= c).
    { unfold stops_a in Es. apply orb_false_iff in Es. destruct Es as [Es _].
      apply Z.ltb_ge in Es. exact Es. }
    assert (Eu : u32 (c - 2) = c - 2) by (unfold u32; apply Z.mod_small; lia).
    rewrite Eu.
    destruct (IH (c - 2) ltac:(lia) ltac:(lia)) as (evs & n & E & Hcs & Hvis & Hstop).
    rewrite E. simpl option_map.
    assert (Hnext : forall i, (i < S n)%nat -> stops_a e (c - 2 * Z.of_nat i) = false).
    { intros [|i] Hi; [rewrite Z.sub_0_r; exact Es|].
      replace (c - 2 * Z.of_nat (S i)) with (c - 2 - 2 * Z.of_nat i) by lia.
      apply Hvis. lia. }
    assert (Hlast : stops_a e (c - 2 * Z.of_nat (S n)) = true).
    { replace (c - 2 * Z.of_nat (S n)) with (c - 2 - 2 * Z.of_nat n) by lia. exact Hstop. }
    destruct (rejects_a e c).
    + eexists _, (S n). split; [reflexivity|]. split; [|split; assumption].
      rewrite descending_S. unfold candidates in *. simpl. f_equal. exact Hcs.
    + destruct (plan_a_total junk_out e c) as (ev & -> & Hev).
      eexists _, (S n). split; [reflexivity|]. split; [|split; assumption].
      rewrite descending_S. unfold candidates in *. simpl. rewrite Hev. simpl. f_equal. exact Hcs.
Qed.

(** ** The clock at the entry of the first scenario *)

Lemma representable_Z z : 0 < z < 2 ^ 32 -> representable (IZR z).
Proof.
  intros Hz. destruct (of_Z_u32 z Hz) as (m & e & _ & C & _ & V).
  exists (Zpos m), e. split; assumption.
Qed.

Lemma representable_bpow k : -1022 <= k <= 1023 -> representable (bpow k).
Proof.
  intros Hk. exists (2 ^ 52), (k - 52). split.
  - split; [reflexivity|]. change (dig (2 ^ 52)) with 53. rewrite fexp_eq. lia.
  - rewrite F2R_pow2 by lia. f_equal. lia.
Qed.

(** What the entry of the first scenario tells about the pre-divided clock. *)
Lemma scenario_a_clock r :
  valid r -> flt r (of_Z 1000000) = false ->
  4 <= (let t := to_uint32 (fdiv SI5351_MAX_VCO_FREQ r) in u32 (t - t mod 2)) ->
  exists m e, r = S754_finite false m e /\ canonical (Zpos m) e
    /\ (F2R (Zpos m) e <= bpow 28)%R
    /\ exists t, trunc (fdiv SI5351_MAX_VCO_FREQ r) = Some t /\ 4 <= t <= 1000
         /\ to_uint32 (fdiv SI5351_MAX_VCO_FREQ r) = t.
Proof.
  intros Hv Hlt H4.
  destruct r as [s|s| |s m e].
  - destruct s; vm_compute in Hlt; discriminate.
  - destruct s; [vm_compute in Hlt; discriminate|]. vm_compute in H4. exfalso. apply H4. reflexivity.
  - vm_compute in H4. exfalso. apply H4. reflexivity.
  - destruct s; [vm_compute in Hlt; discriminate|].
    apply valid_finite in Hv. destruct Hv as [Hc He].
    destruct (of_Z_u32 1000000 ltac:(lia)) as (m6 & e6 & E6 & C6 & H6 & V6).
    rewrite E6 in Hlt.
    assert (HR : (1000000 <= F2R (Zpos m) e)%R).
    { destruct (Rle_lt_dec 1000000 (F2R (Zpos m) e)) as [|Hl]; [assumption|].
      rewrite <- V6 in Hl. apply (flt_pos m e m6 e6 Hc C6) in Hl. congruence. }
    unfold SI5351_MAX_VCO_FREQ in *.
    destruct (of_Z_u32 1000000000 ltac:(lia)) as (m9 & e9 & E9 & C9 & H9 & V9).
    rewrite E9 in *.
    destruct (fdiv_pos_spec m9 e9 m e C9 Hc) as (v & Hr & Hlo & Hup).
    rewrite V9 in Hlo, Hup.
    assert (Hv1000 : (v <= 1000)%R).
    { destruct (representable_Z 1000 ltac:(lia)) as (t & et & Ct & Vt).
      rewrite <- Vt. apply Hup; [assumption|]. rewrite Vt.
      apply Rmult_le_reg_r with (F2R (Zpos m) e); [lra|].
      unfold Rdiv. rewrite Rmult_assoc, Rinv_l by lra. lra. }
    destruct Hr as [[Ez _]|[(mq & eq & Eq & Cq & Heq & Ev)|[_ Hinf]]].
    + rewrite Ez in H4. vm_compute in H4. exfalso. apply H4. reflexivity.
    + rewrite Eq in *.
      pose proof (floor_of_spec (Zpos mq) eq ltac:(lia)) as [Hfl Hfu].
      pose proof (floor_of_nonneg (Zpos mq) eq ltac:(lia)) as Hf0.
      assert (Hf1000 : floor_of (Zpos mq) eq <= 1000) by (apply le_IZR; lra).
      rewrite to_uint32_pos in * by lia.
      set (t := floor_of (Zpos mq) eq) in *. cbv zeta in H4.
      assert (Ht4 : 4 <= t).
      { pose proof (Z.mod_pos_bound t 2 ltac:(lia)).
        pose proof (Z.mod_le t 2 ltac:(lia) ltac:(lia)).
        unfold u32 in H4. rewrite Z.mod_small in H4 by lia. lia. }
      exists m, e. split; [reflexivity|]. split; [assumption|]. split.
      * destruct (Rle_lt_dec (F2R (Zpos m) e) (bpow 28)) as [|Hgt]; [assumption|exfalso].
        assert (Hv375 : (v <= 15 / 4)%R).
        { assert (R375 : representable (F2R 15 (-2))).
          { apply representable_of; [lia|]. vm_compute. discriminate. }
          assert (V375 : F2R 15 (-2) = (15 / 4)%R) by (unfold F2R, bpow; simpl; lra).
          rewrite V375 in R375. destruct R375 as (t' & et & Ct & Vt).
          rewrite <- Vt. apply Hup; [assumption|]. rewrite Vt.
          rewrite bpow_IZR in Hgt by lia. change (2 ^ 28) with 268435456 in Hgt.
          apply Rmult_le_reg_r with (F2R (Zpos m) e); [lra|].
          unfold Rdiv at 1. rewrite Rmult_assoc, Rinv_l by lra. lra. }
        apply IZR_le in Ht4. lra.
      * exists t. split; [reflexivity|]. split; [lia|reflexivity].
    + pose proof (bpow_lt 10 1024 ltac:(lia)) as Hb. rewrite (bpow_IZR 10) in Hb by lia.
      change (2 ^ 10) with 1024 in Hb. lra.
Qed.

Lemma f_vco_at_2 m e :
  canonical (Zpos m) e -> (F2R (Zpos m) e <= bpow 28)%R ->
  flt (fmul (S754_finite false m e) (of_Z 2)) SI5351_MIN_VCO_FREQ = true.
Proof.
  intros Hc HR.
  destruct (of_Z_u32 2 ltac:(lia)) as (m2 & e2 & E2 & C2 & H2 & V2). rewrite E2.
  destruct (fmul_spec false false m e m2 e2 Hc C2) as (v & Hr & Hlo & Hup). rewrite V2 in Hlo, Hup.
  assert (Hv : (v <= bpow 29)%R).
  { destruct (representable_bpow 29 ltac:(lia)) as (t & et & Ct & Vt).
    rewrite <- Vt. apply Hup; [assumption|]. rewrite Vt.
    replace (bpow 29) with (bpow 28 * 2)%R; [lra|].
    rewrite !bpow_IZR by lia. change (2 ^ 28) with 268435456. change (2 ^ 29) with 536870912. lra. }
  unfold SI5351_MIN_VCO_FREQ.
  destruct (of_Z_u32 600000000 ltac:(lia)) as (mf & ef & Ef & Cf & Hf & Vf). rewrite Ef.
  rewrite bpow_IZR in Hv by lia. change (2 ^ 29) with 536870912 in Hv.
  destruct (rounds_to_nn_or_inf _ _ Hr) as [Hn|Einf].
  - apply (flt_nn _ v _ (F2R (Zpos mf) ef) Hn (nn_finite mf ef Cf Hf)). rewrite Vf. lra.
  - exfalso. rewrite Einf in Hr.
    destruct Hr as [[Hr _]|[(? & ? & Hr & _)|[_ Hr]]]; try discriminate.
    pose proof (bpow_lt 30 1024 ltac:(lia)) as Hb. rewrite (bpow_IZR 30) in Hb by lia.
    change (2 ^ 30) with 1073741824 in Hb. lra.
Qed.

Lemma fmul_pos_not_nan m e c :
  canonical (Zpos m) e -> 0 < c < 2 ^ 32 ->
  fmul (S754_finite false m e) (of_Z c) <> S754_nan.
Proof.
  intros Hc Hcc.
  destruct (of_Z_u32 c Hcc) as (mc & ec & Ec & Cc & _). rewrite Ec.
  destruct (fmul_spec false false m e mc ec Hc Cc) as (v & Hr & _).
  destruct Hr as [[-> _]|[(? & ? & -> & _)|[-> _]]]; discriminate.
Qed.

Lemma min_vco_not_nan : SI5351_MIN_VCO_FREQ <> S754_nan.
Proof. vm_compute. discriminate. Qed.

Lemma in_descending c0 n c :
  In c (descending c0 n) -> exists i, (i < n)%nat /\ c = c0 - 2 * Z.of_nat i.
Proof.
  unfold descending. rewrite in_map_iff. intros (i & <- & Hi).
  apply in_seq in Hi. exists i. split; [lia|reflexivity].
Qed.

(** ** The passes of the expansion; integers *)

Lemma expand_steps f0 D :
  forall i st bs, expand i f0 D st = Some bs ->
  exists n st', (n <= i)%nat /\ steps n f0 D st = Some st' /\ bs = cf_best st'
                /\ ((n < i)%nat -> fle (cf_f st') epsilon = true).
Proof.
  induction i as [|i IH]; intros st bs H; simpl in H.
  - injection H as <-. exists 0%nat, st. repeat split; try reflexivity; lia.
  - destruct (fle (cf_f st) epsilon) eqn:Hle.
    + injection H as <-. exists 0%nat, st. repeat split; try reflexivity; [lia|]. intros _; exact Hle.
    + destruct (expand_step f0 D st) as [st1|] eqn:E; [|discriminate].
      destruct (IH st1 bs H) as (n & st' & Hn & Hs & Hb & Hf).
      exists (S n), st'. simpl. rewrite E. repeat split; try assumption; [lia|]. intros; apply Hf; lia.
Qed.

Lemma to_uint32_of_Z v : 0 <= v < 2 ^ 53 -> to_uint32 (of_Z v) = v mod 2 ^ 32.
Proof.
  intros Hv. destruct (Z.eq_dec v 0) as [->|Hn]; [reflexivity|].
  destruct (of_Z_pos v ltac:(lia)) as (E & C & V). rewrite E.
  pose proof (dig_pos v ltac:(lia)).
  pose proof (dig_lt_pow v 53 ltac:(lia) ltac:(lia) ltac:(lia)).
  assert (Hp : 0 < 2 ^ (53 - dig v)) by (apply Z.pow_pos_nonneg; lia).
  assert (Hf : floor_of (v * 2 ^ (53 - dig v)) (dig v - 53) = v).
  { unfold floor_of. destruct (Z.leb_spec 0 (dig v - 53)).
    - replace (dig v) with 53 by lia. simpl. lia.
    - replace (- (dig v - 53)) with (53 - dig v) by lia. apply Z.div_mul. lia. }
  unfold to_uint32, trunc, cond_Zopp. cbv beta iota.
  rewrite Z2Pos.id by nia. fold (floor_of (v * 2 ^ (53 - dig v)) (dig v - 53)).
  rewrite Hf, Z.abs_eq by lia.
  destruct (Z.ltb_spec v (2 ^ 63)); [reflexivity|lia].
Qed.

Lemma modf_of_Z v : 0 <= v < 2 ^ 53 -> modf (of_Z v) = (S754_zero false, of_Z v).
Proof.
  intros Hv. destruct (Z.eq_dec v 0) as [->|Hn]; [reflexivity|].
  destruct (of_Z_pos v ltac:(lia)) as (E & C & V). rewrite E.
  pose proof (dig_pos v ltac:(lia)).
  pose proof (dig_lt_pow v 53 ltac:(lia) ltac:(lia) ltac:(lia)).
  assert (Hp : 0 < 2 ^ (53 - dig v)) by (apply Z.pow_pos_nonneg; lia).
  unfold modf. destruct (Z.leb_spec 0 (dig v - 53)); [reflexivity|].
  rewrite Z2Pos.id by nia.
  replace (- (dig v - 53)) with (53 - dig v) by lia.
  rewrite Z.mod_mul, Z.div_mul by lia. rewrite <- E.
  destruct v as [|p|p]; try lia. reflexivity.
Qed.

(** ** The fractional part of a non-negative value *)

Lemma modf_frac_class value :
  nonneg_finite value ->
  (exists s, fst (modf value) = S754_zero s)
  \/ (exists m e, fst (modf value) = S754_finite false m e)
  \/ fst (modf value) = S754_infinity false.
Proof.
  destruct value as [s|s| |s m e]; try contradiction; intros Hn.
  - left. exists s. reflexivity.
  - simpl in Hn. subst s. simpl. destruct (0 <=? e); [left; exists false; reflexivity|].
    simpl. destruct (Zpos m mod 2 ^ (- e)) as [|p|p]; try (left; exists false; reflexivity).
    unfold normalize. destruct (binary_round_spec false p e) as (v & Hr & _).
    destruct Hr as [[-> _]|[(m' & e' & -> & _)|[-> _]]].
    + left. exists false. reflexivity.
    + right; left. exists m', e'. reflexivity.
    + right; right. reflexivity.
Qed.

Lemma cand_err_default f0 :
  (exists m e, f0 = S754_finite false m e) \/ f0 = S754_infinity false ->
  cand_err f0 0 1 = f0.
Proof. intros [(m & e & ->)| ->]; reflexivity. Qed.

(** ** The band test of the first scenario *)

Lemma plan_a_feedback junk_out e c ev :
  plan_a junk_out e c = Some ev ->
  plan_feedbacks [ev] = [(c, feedback_ms_a e c)] /\ rejected_feedbacks [ev] = [].
Proof.
  unfold plan_a. destruct (rational_approximation _ _ _) as [r|]; [|discriminate].
  destruct (additional_clocks _ _ _ _) as [ls|]; [|discriminate].
  intros H. injection H as <-. split; reflexivity.
Qed.

Lemma plan_feedbacks_cons ev evs :
  plan_feedbacks (ev :: evs) = plan_feedbacks [ev] ++ plan_feedbacks evs.
Proof. unfold plan_feedbacks. simpl. rewrite app_nil_r. reflexivity. Qed.

Lemma rejected_feedbacks_cons ev evs :
  rejected_feedbacks (ev :: evs) = rejected_feedbacks [ev] ++ rejected_feedbacks evs.
Proof. unfold rejected_feedbacks. simpl. rewrite app_nil_r. reflexivity. Qed.

(** One turn of the loop of the first scenario. *)
Lemma scenario_a_turn junk_out e fuel c evs :
  scenario_a_loop junk_out (S fuel) e c = Some evs ->
  stops_a e c = false ->
  exists rest,
    scenario_a_loop junk_out fuel e (u32 (c - 2)) = Some rest
    /\ ((out_of_band (feedback_ms_a e c) = true
         /\ evs = RejectedFeedback (feedback_ms_a e c) c (f_vco_a e c) :: rest)
        \/ (out_of_band (feedback_ms_a e c) = false
            /\ exists ev, plan_a junk_out e c = Some ev /\ evs = ev :: rest)).
Proof.
  simpl. intros H Hs. rewrite Hs in H.
  change (rejects_a e c) with (out_of_band (feedback_ms_a e c)) in H.
  destruct (out_of_band (feedback_ms_a e c)).
  - destruct (scenario_a_loop junk_out fuel e (u32 (c - 2))) as [rest|]; [|discriminate].
    injection H as <-. exists rest. split; [reflexivity|]. left. split; reflexivity.
  - destruct (plan_a junk_out e c) as [ev|]; [|discriminate].
    destruct (scenario_a_loop junk_out fuel e (u32 (c - 2))) as [rest|]; [|discriminate].
    injection H as <-. exists rest. split; [reflexivity|]. right. split; [reflexivity|].
    exists ev. split; reflexivity.
Qed.

Lemma scenario_a_band junk_out e :
  forall fuel c evs,
  scenario_a_loop junk_out fuel e c = Some evs ->
  (forall o fb, In (o, fb) (plan_feedbacks evs) ->
     fb = feedback_ms_a e o /\ out_of_band fb = false)
  /\ (forall o fb, In (o, fb) (rejected_feedbacks evs) ->
        fb = feedback_ms_a e o /\ out_of_band fb = true).
Proof.
  induction fuel as [|fuel IH]; intros c evs H; [discriminate|].
  destruct (stops_a e c) eqn:Hs.
  - simpl in H. rewrite Hs in H. injection H as <-. split; intros o fb [].
  - destruct (scenario_a_turn junk_out e fuel c evs H Hs)
      as (rest & Hrest & [[Hb ->]|[Hb (ev & Hev & ->)]]);
      destruct (IH _ _ Hrest) as [IHp IHr].
    + split; intros o fb Hin.
      * apply IHp. exact Hin.
      * destruct Hin as [Heq|Hin]; [|apply IHr; exact Hin].
        injection Heq as <- <-. split; [reflexivity|exact Hb].
    + destruct (plan_a_feedback junk_out e c ev Hev) as [Ep Er].
      rewrite plan_feedbacks_cons, rejected_feedbacks_cons, Ep, Er. split; intros o fb Hin.
      * destruct Hin as [Heq|Hin]; [|apply IHp; exact Hin].
        injection Heq as <- <-. split; [reflexivity|exact Hb].
      * apply IHr. exact Hin.
Qed.

(** ** The two divider loops *)

Lemma rdiv_loop_total :
  forall fuel r d, 0 <= d -> (Z.to_nat (8 - d) < fuel)%nat ->
  exists r' d', rdiv_loop fuel r d = Some (r', d') /\ d <= d' <= Z.max d 8.
Proof.
  induction fuel as [|fuel IH]; intros r d Hd Hf; [lia|]. cbn [rdiv_loop].
  destruct (flt r (of_Z 1000000)); cbn [andb]; [|exists r, d; split; [reflexivity|lia]].
  destruct (Z.leb_spec d 7); [|exists r, d; split; [reflexivity|lia]].
  assert (E : u8 (d + 1) = d + 1) by (unfold u8; apply Z.mod_small; lia). rewrite E.
  destruct (IH (fmul r (of_Z 2)) (d + 1) ltac:(lia) ltac:(lia)) as (r' & d' & -> & Hd').
  exists r', d'. split; [reflexivity|lia].
Qed.

Lemma clkin_loop_total :
  forall fuel x d, 0 <= d -> (Z.to_nat (4 - d) < fuel)%nat ->
  exists x' d', clkin_loop fuel x d = Some (x', d') /\ d <= d' <= Z.max d 4.
Proof.
  induction fuel as [|fuel IH]; intros x d Hd Hf; [lia|]. cbn [clkin_loop].
  destruct (flt (of_Z 40000000) x); cbn [andb]; [|exists x, d; split; [reflexivity|lia]].
  destruct (Z.leb_spec d 3); [|exists x, d; split; [reflexivity|lia]].
  assert (E : u8 (d + 1) = d + 1) by (unfold u8; apply Z.mod_small; lia). rewrite E.
  destruct (IH (fdiv x (of_Z 2)) (d + 1) ltac:(lia) ltac:(lia)) as (x' & d' & -> & Hd').
  exists x', d'. split; [reflexivity|lia].
Qed.

Lemma two_eq : of_Z 2 = S754_finite false 4503599627370496 (-51).
Proof. vm_compute. reflexivity. Qed.

Lemma fmul_two_valid x : valid x -> valid (fmul x (of_Z 2)).
Proof.
  intros Hv. rewrite two_eq. destruct x as [s|s| |s m e]; try reflexivity.
  apply valid_finite in Hv. destruct Hv as [Hc He].
  assert (C2 : canonical (Zpos 4503599627370496) (-51)) by (apply canonical_compute; reflexivity).
  destruct (fmul_spec s false m e _ _ Hc C2) as (v & Hr & _).
  eapply rounds_to_valid. exact Hr.
Qed.

Lemma rdiv_loop_valid :
  forall fuel r d r' d', valid r -> rdiv_loop fuel r d = Some (r', d') -> valid r'.
Proof.
  induction fuel as [|fuel IH]; intros r d r' d' Hv H; [discriminate|].
  cbn [rdiv_loop] in H. destruct (flt r (of_Z 1000000) && (d <=? 7)).
  - apply (IH _ _ _ _ (fmul_two_valid r Hv) H).
  - injection H as <- <-. exact Hv.
Qed.

(** What [setup] leaves in the variables of the primary clock. *)
Lemma setup_clock junk_clks argv out e :
  setup junk_clks argv = (out, inr e) ->
  rdiv_loop 9 (clks e 0%nat) 0 = Some (r_clk0 e, rdiv e)
  /\ flt (r_clk0 e) (of_Z 1000000) = false.
Proof.
  unfold setup. destruct (too_many_arguments _); [discriminate|].
  destruct argv as [|x cs]; [discriminate|].
  destruct (xtal_out_of_range x); [discriminate|].
  destruct (clkin_loop 5 x 0) as [[x' d]|]; [|discriminate].
  destruct (rdiv_loop 9 _ 0) as [[r d']|] eqn:Er; [|discriminate].
  destruct (flt r (of_Z 1000000)) eqn:El; [discriminate|].
  intros H. injection H as _ <-. cbn [clks r_clk0 rdiv]. split; assumption.
Qed.

(** ** The value of a double *)

Lemma F2R_opp m e : F2R (- m) e = (- F2R m e)%R.
Proof. unfold F2R. rewrite opp_IZR. lra. Qed.

Lemma B2R_pos m e : B2R (S754_finite false m e) = F2R (Zpos m) e.
Proof. reflexivity. Qed.

Lemma B2R_neg m e : B2R (S754_finite true m e) = (- F2R (Zpos m) e)%R.
Proof. unfold B2R, cond_Zopp. apply (F2R_opp (Zpos m)). Qed.

Lemma finite_cases x :
  valid x -> is_finite x = true ->
  (exists s, x = S754_zero s)
  \/ (exists s m e, x = S754_finite s m e /\ canonical (Zpos m) e /\ e <= 971).
Proof.
  intros Hv Hf. destruct x as [s|s| |s m e]; try discriminate.
  - left. exists s. reflexivity.
  - right. exists s, m, e. split; [reflexivity|]. apply (proj1 (valid_finite s m e)). exact Hv.
Qed.

(** Comparisons with a positive double. *)
Lemma flt_pos_r x m e :
  valid x -> is_finite x = true -> canonical (Zpos m) e ->
  (flt x (S754_finite false m e) = true <-> (B2R x < F2R (Zpos m) e)%R).
Proof.
  intros Hv Hf Hc. pose proof (F2R_pos (Zpos m) e ltac:(lia)) as Hp.
  destruct (finite_cases x Hv Hf) as [[s ->]|(s & mx & ex & -> & Cx & Ex)].
  - cbn [B2R]. split; [intros _; exact Hp|intros _; reflexivity].
  - destruct s.
    + rewrite B2R_neg. pose proof (F2R_pos (Zpos mx) ex ltac:(lia)).
      split; [intros _; lra|intros _; reflexivity].
    + rewrite B2R_pos. apply flt_pos; assumption.
Qed.

Lemma flt_pos_l x m e :
  valid x -> is_finite x = true -> canonical (Zpos m) e ->
  (flt (S754_finite false m e) x = true <-> (F2R (Zpos m) e < B2R x)%R).
Proof.
  intros Hv Hf Hc. pose proof (F2R_pos (Zpos m) e ltac:(lia)) as Hp.
  destruct (finite_cases x Hv Hf) as [[s ->]|(s & mx & ex & -> & Cx & Ex)].
  - cbn [B2R]. split; [discriminate|intros; lra].
  - destruct s.
    + rewrite B2R_neg. pose proof (F2R_pos (Zpos mx) ex ltac:(lia)).
      split; [discriminate|intros; lra].
    + rewrite B2R_pos. apply flt_pos; assumption.
Qed.

Lemma flt_of_Z_r x z :
  valid x -> is_finite x = true -> 0 < z < 2 ^ 32 ->
  (flt x (of_Z z) = true <-> (B2R x < IZR z)%R).
Proof.
  intros Hv Hf Hz. destruct (of_Z_u32 z Hz) as (m & e & -> & C & _ & <-).
  apply flt_pos_r; assumption.
Qed.

Lemma flt_of_Z_l x z :
  valid x -> is_finite x = true -> 0 < z < 2 ^ 32 ->
  (flt (of_Z z) x = true <-> (IZR z < B2R x)%R).
Proof.
  intros Hv Hf Hz. destruct (of_Z_u32 z Hz) as (m & e & -> & C & _ & <-).
  apply flt_pos_l; assumption.
Qed.

Lemma flt_of_Z_r_false x z :
  valid x -> is_finite x = true -> 0 < z < 2 ^ 32 ->
  (flt x (of_Z z) = false <-> (IZR z <= B2R x)%R).
Proof.
  intros Hv Hf Hz. pose proof (flt_of_Z_r x z Hv Hf Hz) as H.
  destruct (flt x (of_Z z)).
  - split; [discriminate|]. intros Hle. apply proj1 in H. specialize (H eq_refl). lra.
  - split; [|reflexivity]. intros _. destruct (Rle_lt_dec (IZR z) (B2R x)); [assumption|].
    apply proj2 in H. specialize (H r). discriminate.
Qed.

Lemma flt_of_Z_l_false x z :
  valid x -> is_finite x = true -> 0 < z < 2 ^ 32 ->
  (flt (of_Z z) x = false <-> (B2R x <= IZR z)%R).
Proof.
  intros Hv Hf Hz. pose proof (flt_of_Z_l x z Hv Hf Hz) as H.
  destruct (flt (of_Z z) x).
  - split; [discriminate|]. intros Hle. apply proj1 in H. specialize (H eq_refl). lra.
  - split; [|reflexivity]. intros _. destruct (Rle_lt_dec (B2R x) (IZR z)); [assumption|].
    apply proj2 in H. specialize (H r). discriminate.
Qed.

(** A value that a double holds is the result of its rounding. *)
Lemma thresholds_exact x v : representable x -> thresholds x v -> v = x.
Proof.
  intros (t & et & Ct & <-) [Hlo Hup].
  apply Rle_antisym; [apply Hup|apply Hlo]; try assumption; lra.
Qed.

Lemma rounds_to_B2R sx r v :
  rounds_to sx r v -> (v < bpow 1024)%R ->
  is_finite r = true /\ valid r /\ B2R r = (if sx then - v else v)%R.
Proof.
  intros Hr Hv. split; [|split; [eapply rounds_to_valid; exact Hr|]].
  - destruct Hr as [[-> _]|[(m & e & -> & _)|[_ Hr]]]; try reflexivity. lra.
  - destruct Hr as [[-> ->]|[(m & e & -> & _ & _ & ->)|[_ Hr]]].
    + cbn [B2R]. destruct sx; lra.
    + destruct sx; [apply B2R_neg|apply B2R_pos].
    + lra.
Qed.

Lemma bpow_1 : bpow 1 = 2%R.
Proof. rewrite bpow_IZR by lia. reflexivity. Qed.

(** Doubling and halving are exact where the code uses them. *)
Lemma representable_double m e :
  canonical (Zpos m) e -> e < 971 -> representable (F2R (Zpos m) e * 2).
Proof.
  intros [Hm Hc] He. rewrite fexp_eq in Hc.
  destruct (Z.eq_dec e (-1074)) as [->|Hn].
  - (* a subnormal number or the least normal binade *)
    destruct (Z_lt_le_dec (dig (Zpos m)) 53) as [Hd|Hd].
    + exists (Zpos m * 2), (-1074). split.
      * split; [lia|]. change (Zpos m * 2) with (Zpos m * 2 ^ 1).
        rewrite dig_mul_pow2 by lia. rewrite fexp_eq. lia.
      * unfold F2R. rewrite mult_IZR. lra.
    + exists (Zpos m), (-1073). split.
      * split; [lia|]. rewrite fexp_eq. lia.
      * unfold F2R. replace (-1073) with (-1074 + 1) by lia. rewrite bpow_add.
        rewrite bpow_1. lra.
  - exists (Zpos m), (e + 1). split.
    + split; [lia|]. rewrite fexp_eq. lia.
    + unfold F2R. rewrite bpow_add. rewrite bpow_1. lra.
Qed.

Lemma two_canonical :
  canonical (Zpos 4503599627370496) (-51) /\ F2R (Zpos 4503599627370496) (-51) = 2%R.
Proof.
  split; [apply canonical_compute; reflexivity|].
  rewrite (F2R_pow2_compute _ _ 1); [apply bpow_1|reflexivity|lia].
Qed.

Lemma fmul_two_exact x :
  valid x -> is_finite x = true -> (0 <= B2R x < bpow 1000)%R ->
  is_finite (fmul x (of_Z 2)) = true /\ valid (fmul x (of_Z 2))
  /\ B2R (fmul x (of_Z 2)) = (B2R x * 2)%R.
Proof.
  intros Hv Hf Hb. rewrite two_eq. destruct two_canonical as [C2 V2].
  destruct (finite_cases x Hv Hf) as [[s ->]|(s & m & e & -> & C & E)].
  - destruct s; cbn [B2R]; (split; [reflexivity|split; [reflexivity|cbn; lra]]).
  - destruct s.
    { rewrite B2R_neg in Hb. pose proof (F2R_pos (Zpos m) e ltac:(lia)). lra. }
    rewrite B2R_pos in Hb.
    destruct (fmul_spec false false m e _ _ C C2) as (v & Hr & Ht). rewrite V2 in Ht.
    assert (He : e < 971).
    { pose proof (F2R_dig (Zpos m) e ltac:(lia)) as [Hl _].
      destruct (Z_lt_le_dec e 971); [assumption|exfalso].
      destruct C as [_ C]. rewrite fexp_eq in C.
      pose proof (bpow_le 1000 (dig (Zpos m) + e - 1) ltac:(lia)). lra. }
    apply thresholds_exact in Ht; [|apply representable_double; assumption].
    assert (Hv2 : (v < bpow 1024)%R).
    { subst v. pose proof (bpow_lt 1001 1024 ltac:(lia)) as Hb2.
      replace 1001 with (1000 + 1) in Hb2 by lia. rewrite bpow_add in Hb2.
      rewrite bpow_1 in Hb2. lra. }
    destruct (rounds_to_B2R _ _ _ Hr Hv2) as (F & V & B).
    split; [exact F|split; [exact V|]]. rewrite B, B2R_pos. cbn [xorb]. subst v. lra.
Qed.

Lemma representable_half m e :
  canonical (Zpos m) e -> -1074 < e -> canonical (Zpos m) (e - 1).
Proof.
  intros [Hm Hc] He. split; [assumption|]. rewrite fexp_eq in *. lia.
Qed.

Lemma fdiv_two_exact x :
  valid x -> is_finite x = true -> (1 <= B2R x)%R ->
  is_finite (fdiv x (of_Z 2)) = true /\ valid (fdiv x (of_Z 2))
  /\ B2R (fdiv x (of_Z 2)) = (B2R x / 2)%R.
Proof.
  intros Hv Hf Hb. rewrite two_eq. destruct two_canonical as [C2 V2].
  destruct (finite_cases x Hv Hf) as [[s ->]|(s & m & e & -> & C & E)].
  - cbn [B2R] in Hb. lra.
  - destruct s.
    { rewrite B2R_neg in Hb. pose proof (F2R_pos (Zpos m) e ltac:(lia)). lra. }
    rewrite B2R_pos in Hb.
    destruct (fdiv_pos_spec m e _ _ C C2) as (v & Hr & Ht). rewrite V2 in Ht.
    assert (He : -1074 < e).
    { pose proof (F2R_dig (Zpos m) e ltac:(lia)) as [_ Hu].
      assert (0 < dig (Zpos m) + e).
      { apply bpow_lt_inv. change (bpow 0) with 1%R. lra. }
      destruct C as [_ C]. rewrite fexp_eq in C. lia. }
    assert (Hh : (F2R (Zpos m) e / 2 = F2R (Zpos m) (e - 1))%R).
    { unfold F2R. replace e with (e - 1 + 1) at 1 by lia. rewrite bpow_add, bpow_1. lra. }
    apply thresholds_exact in Ht;
      [|exists (Zpos m), (e - 1); split; [apply representable_half; assumption|lra]].
    assert (Hv2 : (v < bpow 1024)%R).
    { subst v. pose proof (canonical_lt_max _ _ C E).
      pose proof (F2R_pos (Zpos m) e ltac:(lia)). lra. }
    destruct (rounds_to_B2R _ _ _ Hr Hv2) as (F & V & B).
    split; [exact F|split; [exact V|]]. rewrite B, B2R_pos. subst v. reflexivity.
Qed.

(** ** The stages of [setup] *)

(** What a successful [setup] went through. *)
Lemma setup_env junk_clks argv out e :
  setup junk_clks argv = (out, inr e) ->
  exists cs d,
    argv = xtal_orig e :: cs /\ (length argv <= 4)%nat
    /\ xtal_out_of_range (xtal_orig e) = false
    /\ clkin_loop 5 (xtal_orig e) 0 = Some (xtal e, d)
    /\ out = (if 0 <? d then [ClkinDivLine d] else [])
    /\ xtal_div e = Z.shiftl 1 d
    /\ clks e = parse_clks junk_clks cs
    /\ nclks e = Z.of_nat (length cs)
    /\ rdiv_loop 9 (clks e 0%nat) 0 = Some (r_clk0 e, rdiv e)
    /\ flt (r_clk0 e) (of_Z 1000000) = false.
Proof.
  unfold setup, too_many_arguments. change (MAX_CLOCKS + 2) with 5.
  destruct (Z.gtb_spec (Z.of_nat (length argv) + 1) 5) as [Hgt|Hle]; [discriminate|].
  destruct argv as [|x cs]; [discriminate|].
  destruct (xtal_out_of_range x) eqn:Ex; [discriminate|].
  destruct (clkin_loop 5 x 0) as [[x' d]|] eqn:Ec; [|discriminate].
  destruct (rdiv_loop 9 _ 0) as [[r d']|] eqn:Er; [|discriminate].
  destruct (flt r (of_Z 1000000)) eqn:El; [discriminate|].
  intros H. injection H as <- <-.
  exists cs, d. split; [reflexivity|]. split; [simpl length in Hle |- *; lia|].
  split; [exact Ex|]. split; [exact Ec|]. split; [reflexivity|]. split; [reflexivity|].
  split; [reflexivity|]. split; [|split; [exact Er|exact El]].
  change (Z.of_nat (length (x :: cs)) + 1 - 2 = Z.of_nat (length cs)).
  simpl length. lia.
Qed.

(** A reference that passed the range test. *)
Lemma xtal_in_range x :
  valid x -> x <> S754_nan -> xtal_out_of_range x = false ->
  is_finite x = true /\ (10000000 <= B2R x <= 100000000)%R.
Proof.
  intros Hv Hn Hr. unfold xtal_out_of_range in Hr. apply orb_false_iff in Hr.
  destruct Hr as [H1 H2].
  assert (Hf : is_finite x = true).
  { destruct x as [s|s| |s m e]; try reflexivity; [|congruence].
    destruct s; [discriminate H1|discriminate H2]. }
  split; [assumption|]. split.
  - apply (flt_of_Z_r_false x 10000000); [assumption|assumption|lia|exact H1].
  - apply (flt_of_Z_l_false x 100000000); [assumption|assumption|lia|exact H2].
Qed.

(** The reference divider: at most two halvings, each exact. *)
Lemma clkin_loop_spec x :
  valid x -> is_finite x = true -> (10000000 <= B2R x <= 100000000)%R ->
  exists x' d,
    clkin_loop 5 x 0 = Some (x', d)
    /\ valid x' /\ is_finite x' = true
    /\ 0 <= d <= 2
    /\ (B2R x' * IZR (2 ^ d) = B2R x)%R
    /\ (B2R x' <= 40000000)%R
    /\ (d = 0 <-> (B2R x <= 40000000)%R)
    /\ (0 < d -> (20000000 < B2R x')%R).
Proof.
  intros Hv Hf Hb. cbn [clkin_loop].
  destruct (flt (of_Z 40000000) x) eqn:E0.
  2:{ apply flt_of_Z_l_false in E0; [|assumption|assumption|lia].
      exists x, 0. cbn [andb]. repeat split; try assumption; try lia; try (intros; lra);
        try (change (2 ^ 0) with 1; lra). }
  apply flt_of_Z_l in E0; [|assumption|assumption|lia].
  change (0 <=? 3) with true. cbn [andb]. change (u8 (0 + 1)) with 1.
  destruct (fdiv_two_exact x Hv Hf ltac:(lra)) as (F1 & V1 & B1).
  set (x1 := fdiv x (of_Z 2)) in *.
  destruct (flt (of_Z 40000000) x1) eqn:E1.
  2:{ apply flt_of_Z_l_false in E1; [|assumption|assumption|lia].
      exists x1, 1. cbn [andb]. repeat split; try assumption; try lia; try (intros; lra);
        try (change (2 ^ 1) with 2; lra). }
  apply flt_of_Z_l in E1; [|assumption|assumption|lia].
  change (1 <=? 3) with true. cbn [andb]. change (u8 (1 + 1)) with 2.
  destruct (fdiv_two_exact x1 V1 F1 ltac:(lra)) as (F2 & V2 & B2).
  set (x2 := fdiv x1 (of_Z 2)) in *.
  assert (E2 : flt (of_Z 40000000) x2 = false).
  { apply flt_of_Z_l_false; [assumption|assumption|lia|lra]. }
  rewrite E2. cbn [andb].
  exists x2, 2. repeat split; try assumption; try lia; try (intros; lra);
    try (change (2 ^ 2) with 4; lra).
Qed.

(** The clock divider on a clock that is not negative: each doubling is
    exact, and the loop leaves with a clock of 1 MHz or more unless it
    made eight doublings. *)
Lemma rdiv_loop_pos :
  forall fuel r d r' d',
  valid r -> is_finite r = true -> (0 <= B2R r)%R -> 0 <= d <= 8 ->
  rdiv_loop fuel r d = Some (r', d') ->
  valid r' /\ is_finite r' = true /\ d <= d' <= 8
  /\ (B2R r' = B2R r * IZR (2 ^ (d' - d)))%R
  /\ (flt r' (of_Z 1000000) = true -> d' = 8)
  /\ (d' = d -> r' = r)
  /\ (d < d' -> (B2R r' < 2000000)%R).
Proof.
  induction fuel as [|fuel IH]; intros r d r' d' Hv Hf Hp Hd H; [discriminate|].
  cbn [rdiv_loop] in H.
  destruct (flt r (of_Z 1000000)) eqn:El; cbn [andb] in H.
  - destruct (Z.leb_spec d 7) as [Hle|Hgt].
    + assert (E : u8 (d + 1) = d + 1) by (unfold u8; apply Z.mod_small; lia).
      rewrite E in H.
      apply flt_of_Z_r in El; [|assumption|assumption|lia].
      assert (Hb : (B2R r < bpow 1000)%R).
      { pose proof (bpow_lt 20 1000 ltac:(lia)) as Hb. rewrite (bpow_IZR 20) in Hb by lia.
        change (2 ^ 20) with 1048576 in Hb. lra. }
      destruct (fmul_two_exact r Hv Hf (conj Hp Hb)) as (F1 & V1 & B1).
      destruct (IH (fmul r (of_Z 2)) (d + 1) r' d' V1 F1 ltac:(lra) ltac:(lia) H)
        as (V' & F' & Hd' & B' & L' & Q' & U').
      split; [assumption|]. split; [assumption|]. split; [lia|]. split; [|split; [|split]].
      * rewrite B', B1. replace (d' - d) with (1 + (d' - (d + 1))) by lia.
        rewrite Z.pow_add_r by lia. rewrite mult_IZR. change (2 ^ 1) with 2. lra.
      * assumption.
      * intros ->. lia.
      * intros _. destruct (Z.eq_dec d' (d + 1)) as [->|Hne].
        -- rewrite (Q' eq_refl), B1. lra.
        -- apply U'. lia.
    + injection H as <- <-. split; [assumption|]. split; [assumption|]. split; [lia|].
      split; [rewrite Z.sub_diag; change (2 ^ 0) with 1; lra|].
      split; [intros _; lia|]. split; [reflexivity|lia].
  - injection H as <- <-. split; [assumption|]. split; [assumption|]. split; [lia|].
    split; [rewrite Z.sub_diag; change (2 ^ 0) with 1; lra|].
    split; [congruence|]. split; [reflexivity|lia].
Qed.

Lemma fmul_two_nonpos x : valid x -> nonpos_double x -> nonpos_double (fmul x (of_Z 2)).
Proof.
  intros Hv Hn. rewrite two_eq. destruct x as [s|s| |s m e]; try contradiction.
  - exact I.
  - destruct s; [exact I|contradiction].
  - destruct s; [|contradiction]. apply valid_finite in Hv. destruct Hv as [C _].
    destruct two_canonical as [C2 _].
    destruct (fmul_spec true false m e _ _ C C2) as (v & Hr & _). cbn [xorb] in Hr.
    destruct Hr as [[-> _]|[(m' & e' & -> & _)|[-> _]]]; exact I.
Qed.

Lemma flt_nonpos x : nonpos_double x -> flt x (of_Z 1000000) = true.
Proof.
  destruct x as [s|s| |s m e]; try contradiction; destruct s; try contradiction;
    reflexivity.
Qed.

Lemma rdiv_loop_nonpos :
  forall fuel r d r' d',
  valid r -> nonpos_double r -> rdiv_loop fuel r d = Some (r', d') -> nonpos_double r'.
Proof.
  induction fuel as [|fuel IH]; intros r d r' d' Hv Hn H; [discriminate|].
  cbn [rdiv_loop] in H. destruct (flt r (of_Z 1000000) && (d <=? 7)).
  - apply (IH _ _ _ _ (fmul_two_valid r Hv) (fmul_two_nonpos r Hv Hn) H).
  - injection H as <- <-. exact Hn.
Qed.

Lemma finite_sign x :
  valid x -> is_finite x = true -> (0 <= B2R x)%R \/ (nonpos_double x /\ (B2R x < 0)%R).
Proof.
  intros Hv Hf. destruct (finite_cases x Hv Hf) as [[s ->]|(s & m & e & -> & C & E)].
  - left. cbn. lra.
  - pose proof (F2R_pos (Zpos m) e ltac:(lia)). destruct s.
    + right. split; [exact I|]. rewrite B2R_neg. lra.
    + left. rewrite B2R_pos. lra.
Qed.

(** ** Quotients and their integer parts *)

Lemma Rdiv_ge a b c : (0 < b)%R -> (c * b <= a)%R -> (c <= a / b)%R.
Proof.
  intros Hb H. apply Rmult_le_reg_r with b; [assumption|].
  unfold Rdiv. rewrite Rmult_assoc, Rinv_l by lra. lra.
Qed.

Lemma Rdiv_le a b c : (0 < b)%R -> (a <= c * b)%R -> (a / b <= c)%R.
Proof.
  intros Hb H. apply Rmult_le_reg_r with b; [assumption|].
  unfold Rdiv. rewrite Rmult_assoc, Rinv_l by lra. lra.
Qed.

Lemma Rdiv_gt a b c : (0 < b)%R -> (a < c * b)%R -> (a / b < c)%R.
Proof.
  intros Hb H. apply Rmult_lt_reg_r with b; [assumption|].
  unfold Rdiv. rewrite Rmult_assoc, Rinv_l by lra. lra.
Qed.

Lemma finite_positive x :
  valid x -> is_finite x = true -> (0 < B2R x)%R ->
  exists m e, x = S754_finite false m e /\ canonical (Zpos m) e /\ e <= 971.
Proof.
  intros Hv Hf Hp. destruct (finite_cases x Hv Hf) as [[s ->]|(s & m & e & -> & C & E)].
  - cbn in Hp. lra.
  - destruct s.
    + rewrite B2R_neg in Hp. pose proof (F2R_pos (Zpos m) e ltac:(lia)). lra.
    + exists m, e. repeat split; try assumption; apply C.
Qed.

Lemma rounds_to_nonneg r v : rounds_to false r v -> (0 <= v)%R.
Proof.
  intros [[_ ->]|[(m & e & _ & _ & _ & ->)|[_ H]]].
  - lra.
  - pose proof (F2R_pos (Zpos m) e ltac:(lia)). lra.
  - pose proof (bpow_gt_0 1024). lra.
Qed.

(** The conversion to [uint32_t] of a double that is not negative. *)
Lemma to_uint32_rounds r v lo hi :
  rounds_to false r v -> 0 <= lo -> hi < 2 ^ 32 ->
  (IZR lo <= v < IZR hi + 1)%R ->
  lo <= to_uint32 r <= hi /\ trunc r = Some (to_uint32 r).
Proof.
  intros Hr Hlo Hhi [Hl Hu].
  destruct Hr as [[-> ->]|[(m & e & -> & C & E & ->)|[_ H]]].
  - change (to_uint32 (S754_zero false)) with 0. split; [|reflexivity].
    apply le_IZR in Hl. rewrite <- plus_IZR in Hu. apply lt_IZR in Hu. lia.
  - pose proof (floor_of_spec (Zpos m) e ltac:(lia)) as [Fl Fu].
    pose proof (floor_of_nonneg (Zpos m) e ltac:(lia)) as F0.
    rewrite plus_IZR in Fu.
    assert (H1 : lo <= floor_of (Zpos m) e).
    { assert (IZR lo < IZR (floor_of (Zpos m) e) + 1)%R by lra.
      rewrite <- plus_IZR in H. apply lt_IZR in H. lia. }
    assert (H2 : floor_of (Zpos m) e <= hi).
    { assert (IZR (floor_of (Zpos m) e) < IZR hi + 1)%R by lra.
      rewrite <- plus_IZR in H. apply lt_IZR in H. lia. }
    rewrite to_uint32_pos by lia. split; [lia|reflexivity].
  - exfalso. pose proof (bpow_lt 33 1024 ltac:(lia)) as Hb. rewrite (bpow_IZR 33) in Hb by lia.
    assert (IZR hi + 1 <= IZR (2 ^ 33))%R.
    { rewrite <- plus_IZR. apply IZR_le. change (2 ^ 33) with (2 * 2 ^ 32). lia. }
    lra.
Qed.

(** The integer part of a quotient of positive doubles, from bounds on
    the exact quotient: [lo] is an integer and [T] a double below
    [hi + 1]. *)
Lemma fdiv_uint32_bounds mx ex my ey lo hi T :
  canonical (Zpos mx) ex -> canonical (Zpos my) ey ->
  0 <= lo < 2 ^ 32 -> hi < 2 ^ 32 ->
  representable T -> (T < IZR hi + 1)%R ->
  (IZR lo * F2R (Zpos my) ey <= F2R (Zpos mx) ex)%R ->
  (F2R (Zpos mx) ex <= T * F2R (Zpos my) ey)%R ->
  let q := fdiv (S754_finite false mx ex) (S754_finite false my ey) in
  lo <= to_uint32 q <= hi /\ trunc q = Some (to_uint32 q).
Proof.
  intros Cx Cy Hlo Hhi HT HTh Hl Hu q.
  destruct (fdiv_pos_spec mx ex my ey Cx Cy) as (v & Hr & Tlo & Tup). fold q in Hr.
  pose proof (F2R_pos (Zpos my) ey ltac:(lia)) as Hy.
  apply (to_uint32_rounds q v lo hi Hr); [lia|assumption|]. split.
  - destruct (Z.eq_dec lo 0) as [->|Hn]; [apply (rounds_to_nonneg _ _ Hr)|].
    destruct (representable_Z lo ltac:(lia)) as (t & et & Ct & Vt).
    rewrite <- Vt. apply Tlo; [assumption|]. rewrite Vt. apply Rdiv_ge; assumption.
  - destruct HT as (t & et & Ct & Vt). apply Rle_lt_trans with T; [|assumption].
    rewrite <- Vt. apply Tup; [assumption|]. rewrite Vt. apply Rdiv_le; assumption.
Qed.

Lemma bpow_m12 : (bpow (-12) * 4096 = 1)%R.
Proof.
  change 4096%R with (IZR (2 ^ 12)). rewrite <- bpow_IZR by lia.
  rewrite <- bpow_add. reflexivity.
Qed.

Lemma bpow_m26 : (bpow (-26) * 67108864 = 1)%R.
Proof.
  change 67108864%R with (IZR (2 ^ 26)). rewrite <- bpow_IZR by lia.
  rewrite <- bpow_add. reflexivity.
Qed.

Lemma max_vco_eq :
  exists m e, SI5351_MAX_VCO_FREQ = S754_finite false m e /\ canonical (Zpos m) e
              /\ F2R (Zpos m) e = 1000000000%R.
Proof.
  destruct (of_Z_u32 1000000000 ltac:(lia)) as (m & e & E & C & _ & V).
  exists m, e. repeat split; try assumption; apply C.
Qed.

(** ** The first divider of the first scenario *)

(** The divider the first scenario starts from, for a pre-divided clock
    in the three ranges that the test on it separates. *)
Lemma initial_output_ms_cases m e :
  canonical (Zpos m) e ->
  let r := S754_finite false m e in
  let t := to_uint32 (fdiv SI5351_MAX_VCO_FREQ r) in
  ((1108648 <= F2R (Zpos m) e <= 250000000)%R -> 4 <= t <= 901)
  /\ ((1000000 <= F2R (Zpos m) e <= 1108647)%R -> 902 <= t <= 1000)
  /\ ((250000001 <= F2R (Zpos m) e)%R -> 0 <= t <= 3).
Proof.
  intros C r t. destruct max_vco_eq as (mM & eM & EM & CM & VM).
  unfold t, r. rewrite EM. split; [|split]; intros H.
  - apply (fdiv_uint32_bounds mM eM m e 4 901 (F2R 3694591 (-12))); try assumption; try lia.
    + apply representable_of; [lia|]. vm_compute. discriminate.
    + unfold F2R. pose proof bpow_m12 as Hb. lra.
    + rewrite VM. lra.
    + rewrite VM. unfold F2R at 1. pose proof bpow_m12 as Hb.
      assert (Hq : (bpow (-12) * F2R (Zpos m) e * 4096 = F2R (Zpos m) e)%R).
      { rewrite (Rmult_comm (bpow (-12))), Rmult_assoc, Hb. lra. }
      lra.
  - apply (fdiv_uint32_bounds mM eM m e 902 1000 1000); try assumption; try lia.
    + apply (representable_Z 1000). lia.
    + lra.
    + rewrite VM. lra.
    + rewrite VM. lra.
  - apply (fdiv_uint32_bounds mM eM m e 0 3 (F2R 268435455 (-26))); try assumption; try lia.
    + apply representable_of; [lia|]. vm_compute. discriminate.
    + unfold F2R. pose proof bpow_m26 as Hb. lra.
    + rewrite VM. pose proof (F2R_pos (Zpos m) e ltac:(lia)). lra.
    + rewrite VM. unfold F2R at 1. pose proof bpow_m26 as Hb.
      assert (Hq : (bpow (-26) * F2R (Zpos m) e * 67108864 = F2R (Zpos m) e)%R).
      { rewrite (Rmult_comm (bpow (-26))), Rmult_assoc, Hb. lra. }
      lra.
Qed.

Lemma even_part t : 0 <= t < 2 ^ 32 ->
  u32 (t - t mod 2) = t - t mod 2 /\ Z.even (t - t mod 2) = true
  /\ t - 1 <= t - t mod 2 <= t.
Proof.
  intros Ht. pose proof (Z.mod_pos_bound t 2 ltac:(lia)) as Hm.
  pose proof (Z.div_mod t 2 ltac:(lia)) as Hd.
  assert (0 <= t / 2) by (apply Z.div_pos; lia).
  split; [unfold u32; apply Z.mod_small; lia|]. split; [|lia].
  replace (t - t mod 2) with (2 * (t / 2)) by lia.
  rewrite Z.even_mul. reflexivity.
Qed.

Lemma even_ge_4 x : Z.even x = true -> 3 <= x -> 4 <= x.
Proof.
  intros He Hx. apply Z.even_spec in He. destruct He as [k ->]. lia.
Qed.

(** ** The plans of the first scenario *)

(** Every event of the loop is the rejection or the plan of a divider
    that passed the test of the loop. *)
Lemma scenario_a_events junk_out e :
  forall fuel c evs ev,
  0 <= c < 2 ^ 32 ->
  scenario_a_loop junk_out fuel e c = Some evs -> In ev evs ->
  exists o, 4 <= o < 2 ^ 32 /\ stops_a e o = false
    /\ ((out_of_band (feedback_ms_a e o) = true
         /\ ev = RejectedFeedback (feedback_ms_a e o) o (f_vco_a e o))
        \/ (out_of_band (feedback_ms_a e o) = false
            /\ plan_a junk_out e o = Some ev)).
Proof.
  induction fuel as [|fuel IH]; intros c evs ev Hc H Hin; [discriminate|].
  destruct (stops_a e c) eqn:Es.
  { simpl in H. rewrite Es in H. injection H as <-. contradiction. }
  destruct (scenario_a_turn _ _ _ _ _ H Es) as (rest & Hrest & Hcase).
  assert (H4 : 4 <= c).
  { unfold stops_a in Es. apply orb_false_iff in Es. destruct Es as [Es _].
    apply Z.ltb_ge in Es. exact Es. }
  assert (Hu : 0 <= u32 (c - 2) < 2 ^ 32) by (unfold u32; apply Z.mod_pos_bound; lia).
  destruct Hcase as [[Hob ->]|(Hob & ev0 & Hp & ->)]; destruct Hin as [<-|Hin].
  - exists c. split; [lia|]. split; [assumption|]. left. split; [assumption|reflexivity].
  - apply (IH _ _ _ Hu Hrest Hin).
  - exists c. split; [lia|]. split; [assumption|]. right. split; assumption.
  - apply (IH _ _ _ Hu Hrest Hin).
Qed.

Lemma min_vco_eq :
  exists m e, SI5351_MIN_VCO_FREQ = S754_finite false m e /\ canonical (Zpos m) e
              /\ F2R (Zpos m) e = 600000000%R.
Proof.
  destruct (of_Z_u32 600000000 ltac:(lia)) as (m & e & E & C & _ & V).
  exists m, e. repeat split; try assumption; apply C.
Qed.

Lemma positive_cases x :
  flt (S754_zero false) x = true ->
  x = S754_infinity false \/ exists m e, x = S754_finite false m e.
Proof.
  destruct x as [s|s| |s m e]; try discriminate; destruct s; try discriminate.
  - left. reflexivity.
  - right. exists m, e. reflexivity.
Qed.

(** A feedback ratio that passed the tests of the loop and of the band
    is a finite number between 15 and 90. *)
Lemma feedback_in_band e o :
  valid (xtal e) -> is_finite (xtal e) = true -> flt (S754_zero false) (xtal e) = true ->
  valid (r_clk0 e) -> is_finite (r_clk0 e) = true ->
  4 <= o < 2 ^ 32 ->
  stops_a e o = false -> out_of_band (feedback_ms_a e o) = false ->
  exists m2 e2, feedback_ms_a e o = S754_finite false m2 e2
    /\ canonical (Zpos m2) e2 /\ e2 <= 971
    /\ (15 <= F2R (Zpos m2) e2 <= 90)%R.
Proof.
  intros Vx Fx Px Vr Fr Ho Hs Hb.
  unfold stops_a in Hs. apply orb_false_iff in Hs. destruct Hs as [_ Hs].
  unfold out_of_band in Hb. apply orb_false_iff in Hb. destruct Hb as [Hb1 Hb2].
  unfold feedback_ms_a in *. unfold f_vco_a in *.
  destruct min_vco_eq as (mv & ev & Emin & Cmin & Vmin). rewrite Emin in Hs.
  destruct (of_Z_u32 o ltac:(lia)) as (mo & eo & Eo & Co & _ & Vo). rewrite Eo in *.
  destruct (positive_cases _ Px) as [Ex|(mx & ex & Ex)]; rewrite Ex in *; [discriminate|].
  apply valid_finite in Vx. destruct Vx as [Cx _].
  destruct (finite_cases _ Vr Fr) as [[s Er]|(s & mr & er & Er & Cr & _)]; rewrite Er in *.
  { destruct s; discriminate Hs. }
  destruct (fmul_spec s false mr er mo eo Cr Co) as (v1 & R1 & _).
  destruct s.
  { cbn [xorb] in R1.
    destruct R1 as [[E1 _]|[(m1 & e1 & E1 & _)|[E1 _]]]; rewrite E1 in Hs; discriminate Hs. }
  cbn [xorb] in R1.
  destruct R1 as [[E1 _]|[(m1 & e1 & E1 & C1 & _)|[E1 _]]]; rewrite E1 in *.
  - discriminate Hs.
  - destruct (fdiv_pos_spec m1 e1 mx ex C1 Cx) as (v2 & R2 & _).
    destruct R2 as [[E2 _]|[(m2 & e2 & E2 & C2 & L2 & _)|[E2 _]]]; rewrite E2 in *.
    + discriminate Hb1.
    + exists m2, e2. split; [reflexivity|]. split; [assumption|]. split; [assumption|].
      assert (V2 : valid (S754_finite false m2 e2)) by (apply valid_finite; split; assumption).
      rewrite <- B2R_pos. split.
      * apply (flt_of_Z_r_false _ 15 V2 eq_refl); [lia|assumption].
      * apply (flt_of_Z_l_false _ 90 V2 eq_refl); [lia|assumption].
    + discriminate Hb2.
  - discriminate Hb2.
Qed.

(** The ratio for a positive double: the integer part and the shape of
    the fraction. *)
Lemma ratio_of_positive m e D out0 :
  canonical (Zpos m) e -> floor_of (Zpos m) e < 2 ^ 32 -> 1 <= D ->
  exists r, rational_approximation (S754_finite false m e) D out0 = Some r
    /\ ra r = floor_of (Zpos m) e
    /\ 1 <= rc r <= D /\ shape (rb r) (rc r).
Proof.
  intros Hc Hfl HD.
  destruct (rational_approximation_total (S754_finite false m e) D out0) as [r Er].
  exists r. split; [exact Er|].
  unfold rational_approximation in Er.
  pose proof (to_uint32_modf m e Hc Hfl) as Ha.
  pose proof (modf_frac_pos m e Hc) as Hf. cbv zeta in Hf.
  destruct (modf (S754_finite false m e)) as [f0 af]. cbn [fst snd] in Hf, Ha.
  cbn [rb rc ra] in Er.
  destruct Hf as [->|(m0 & e0 & -> & Hc0 & HF1)].
  - rewrite expand_zero in Er. injection Er as <-. cbn [ra rb rc].
    split; [assumption|]. split; [lia|]. left. split; reflexivity.
  - destruct (expand 100 _ D _) as [bs|] eqn:Eb; [|discriminate]. injection Er as <-.
    cbn [ra rb rc]. split; [assumption|].
    apply (best_shape m0 e0 D bs Hc0 HF1 HD) in Eb. tauto.
Qed.

(** ** The upper end of the VCO range *)

Lemma bpow_m43 : (bpow (-43) * IZR (2 ^ 43) = 1)%R.
Proof. rewrite <- bpow_IZR by lia. rewrite <- bpow_add. reflexivity. Qed.

Lemma bpow_m15 : (bpow (-15) * 32768 = 1)%R.
Proof.
  change 32768%R with (IZR (2 ^ 15)). rewrite <- bpow_IZR by lia.
  rewrite <- bpow_add. reflexivity.
Qed.

(** The double below an integer [t] at the distance 2^-43. *)
Lemma representable_below t :
  1 <= t < 1024 -> representable (IZR t - bpow (-43)).
Proof.
  intros Ht. replace (IZR t - bpow (-43))%R with (F2R (t * 2 ^ 43 - 1) (-43)).
  - apply representable_of; [lia|].
    assert (Hd : dig (t * 2 ^ 43 - 1) <= 53).
    { apply dig_lt_pow; [lia|lia|]. change (2 ^ 53) with (1024 * 2 ^ 43). lia. }
    rewrite fexp_eq. lia.
  - unfold F2R. rewrite minus_IZR, mult_IZR. pose proof bpow_m43 as Hb.
    rewrite Rmult_minus_distr_r, Rmult_assoc, (Rmult_comm (IZR (2 ^ 43))), Hb. lra.
Qed.

(** The integer part [t] of a rounded quotient may be above the exact
    quotient, by less than 2^-43. *)
Lemma fdiv_floor_lower mx ex my ey T :
  canonical (Zpos mx) ex -> canonical (Zpos my) ey ->
  representable T -> (T < IZR (2 ^ 32 - 1))%R ->
  (F2R (Zpos mx) ex <= T * F2R (Zpos my) ey)%R ->
  let t := to_uint32 (fdiv (S754_finite false mx ex) (S754_finite false my ey)) in
  1 <= t < 1024 ->
  ((IZR t - bpow (-43)) * F2R (Zpos my) ey < F2R (Zpos mx) ex)%R.
Proof.
  intros Cx Cy HT HTh Hu t Ht.
  destruct (fdiv_pos_spec mx ex my ey Cx Cy) as (v & Hr & Tlo & Tup). fold t in Hr.
  pose proof (F2R_pos (Zpos my) ey ltac:(lia)) as Hy.
  assert (Hv : (v <= T)%R).
  { destruct HT as (u & eu & Cu & Vu). rewrite <- Vu. apply Tup; [assumption|].
    rewrite Vu. apply Rdiv_le; assumption. }
  assert (Hq : (IZR t <= v)%R).
  { unfold t in *. destruct Hr as [[E ->]|[(m & e & E & C & L & ->)|[_ H]]].
    - rewrite E in Ht. change (to_uint32 (S754_zero false)) with 0 in Ht. lia.
    - rewrite E in *.
      pose proof (floor_of_spec (Zpos m) e ltac:(lia)) as [Fl Fu].
      pose proof (floor_of_nonneg (Zpos m) e ltac:(lia)) as F0.
      assert (Hlt : floor_of (Zpos m) e < 2 ^ 32 - 1) by (apply lt_IZR; lra).
      rewrite to_uint32_pos by lia. assumption.
    - exfalso. pose proof (bpow_lt 32 1024 ltac:(lia)) as Hb.
      rewrite (bpow_IZR 32) in Hb by lia.
      assert (IZR (2 ^ 32 - 1) <= IZR (2 ^ 32))%R by (apply IZR_le; lia). lra. }
  destruct (Rlt_le_dec ((IZR t - bpow (-43)) * F2R (Zpos my) ey) (F2R (Zpos mx) ex))
    as [|Hge]; [assumption|exfalso].
  destruct (representable_below t Ht) as (u & eu & Cu & Vu).
  assert (v <= F2R u eu)%R.
  { apply Tup; [assumption|]. rewrite Vu. apply Rdiv_le; assumption. }
  pose proof (bpow_gt_0 (-43)). lra.
Qed.

(** The VCO frequency of a divider that is at most the integer part of
    1 GHz over the divided frequency [y], for [y] between 1 MHz and
    2^28 Hz: below 1 GHz + 1 Hz. *)
Lemma vco_upper my ey c :
  canonical (Zpos my) ey ->
  (1000000 <= F2R (Zpos my) ey <= bpow 28)%R ->
  let y := S754_finite false my ey in
  0 < c <= to_uint32 (fdiv SI5351_MAX_VCO_FREQ y) ->
  is_finite (fmul y (of_Z c)) = true /\ valid (fmul y (of_Z c))
  /\ (B2R (fmul y (of_Z c)) < 1000000001)%R.
Proof.
  intros Cy Hy y Hc. destruct max_vco_eq as (mM & eM & EM & CM & VM).
  unfold y in *. rewrite EM in Hc.
  set (t := to_uint32 (fdiv (S754_finite false mM eM) (S754_finite false my ey))) in *.
  assert (Ht : 0 <= t <= 1000).
  { unfold t. apply (fdiv_uint32_bounds mM eM my ey 0 1000 1000); try assumption; try lia.
    - apply (representable_Z 1000). lia.
    - lra.
    - rewrite VM. lra.
    - rewrite VM. lra. }
  assert (Hlow : ((IZR t - bpow (-43)) * F2R (Zpos my) ey < 1000000000)%R).
  { rewrite <- VM. apply (fdiv_floor_lower mM eM my ey 1000); try assumption.
    - apply (representable_Z 1000). lia.
    - apply IZR_lt. lia.
    - rewrite VM. lra.
    - fold t. lia. }
  assert (Hprod : (F2R (Zpos my) ey * IZR c <= 1000000000 + bpow (-15))%R).
  { assert (Hct : (IZR c <= IZR t)%R) by (apply IZR_le; lia).
    assert (Hb : (bpow (-43) * bpow 28 = bpow (-15))%R) by (rewrite <- bpow_add; reflexivity).
    pose proof (bpow_gt_0 (-43)). pose proof (bpow_gt_0 28).
    assert (H1 : (F2R (Zpos my) ey * IZR c <= F2R (Zpos my) ey * IZR t)%R).
    { apply Rmult_le_compat_l; lra. }
    assert (H2 : (bpow (-43) * F2R (Zpos my) ey <= bpow (-43) * bpow 28)%R).
    { apply Rmult_le_compat_l; lra. }
    lra. }
  destruct (of_Z_u32 c ltac:(lia)) as (mc & ec & Ec & Cc & _ & Vc). rewrite Ec.
  destruct (fmul_spec false false my ey mc ec Cy Cc) as (v & Hr & _ & Tup).
  rewrite Vc in Tup. cbn [xorb] in Hr.
  assert (Hrep : representable (1000000000 + bpow (-15))).
  { replace (1000000000 + bpow (-15))%R with (F2R 32768000000001 (-15)).
    - apply representable_of; [lia|]. vm_compute. discriminate.
    - unfold F2R. pose proof bpow_m15. lra. }
  assert (Hv : (v <= 1000000000 + bpow (-15))%R).
  { destruct Hrep as (u & eu & Cu & Vu). rewrite <- Vu. apply Tup; [assumption|].
    rewrite Vu. exact Hprod. }
  assert (Hs : (bpow (-15) < 1)%R) by (pose proof bpow_m15; lra).
  assert (Hv2 : (v < bpow 1024)%R).
  { pose proof (bpow_lt 32 1024 ltac:(lia)) as Hb. rewrite (bpow_IZR 32) in Hb by lia.
    change (2 ^ 32) with 4294967296 in Hb. lra. }
  destruct (rounds_to_B2R _ _ _ Hr Hv2) as (F & V & B).
  split; [exact F|]. split; [exact V|]. rewrite B. lra.
Qed.

(** ** The second scenario *)

Lemma plan_b_total junk_out e c :
  exists ev, plan_b junk_out e c = Some ev /\ feedback_of ev = [c].
Proof.
  unfold plan_b.
  destruct (rational_approximation_total (fdiv (f_vco_b e c) (r_clk0 e))
              SI5351_MAX_DENOMINATOR junk_out) as [r ->].
  destruct (additional_clocks_total junk_out e (fmul (xtal e) (of_Z c)) (clock_indices e))
    as [ls ->].
  eexists. split; reflexivity.
Qed.

(** The loop visits [c], [c - 2], ..., writes a plan for each, and ends
    on the first candidate that the test of the loop refuses. *)
Lemma scenario_b_loop_run junk_out e :
  forall fuel c, 0 <= c < 2 ^ 32 -> (Z.to_nat c < fuel)%nat ->
  exists evs n,
    scenario_b_loop junk_out fuel e c = Some evs
    /\ feedbacks evs = descending c n
    /\ (forall i, (i < n)%nat -> stops_b e (c - 2 * Z.of_nat i) = false)
    /\ stops_b e (c - 2 * Z.of_nat n) = true.
Proof.
  induction fuel as [|fuel IH]; intros c Hc Hf; [lia|]. simpl.
  destruct (stops_b e c) eqn:Es.
  - exists [], 0%nat. split; [reflexivity|]. split; [reflexivity|].
    split; [intros i Hi; lia|]. rewrite Z.sub_0_r. exact Es.
  - assert (H16 : 16 <= c).
    { unfold stops_b in Es. apply orb_false_iff in Es. destruct Es as [Es _].
      apply Z.ltb_ge in Es. exact Es. }
    assert (Eu : u32 (c - 2) = c - 2) by (unfold u32; apply Z.mod_small; lia).
    rewrite Eu.
    destruct (IH (c - 2) ltac:(lia) ltac:(lia)) as (evs & n & E & Hcs & Hvis & Hstop).
    rewrite E. simpl option_map.
    assert (Hnext : forall i, (i < S n)%nat -> stops_b e (c - 2 * Z.of_nat i) = false).
    { intros [|i] Hi; [rewrite Z.sub_0_r; exact Es|].
      replace (c - 2 * Z.of_nat (S i)) with (c - 2 - 2 * Z.of_nat i) by lia.
      apply Hvis. lia. }
    assert (Hlast : stops_b e (c - 2 * Z.of_nat (S n)) = true).
    { replace (c - 2 * Z.of_nat (S n)) with (c - 2 - 2 * Z.of_nat n) by lia. exact Hstop. }
    destruct (plan_b_total junk_out e c) as (ev & -> & Hev).
    eexists _, (S n). split; [reflexivity|]. split; [|split; assumption].
    rewrite descending_S. unfold feedbacks in *. simpl. rewrite Hev. simpl. f_equal.
    exact Hcs.
Qed.

(** The integer part of a quotient is above the exact quotient less 1. *)
Lemma fdiv_floor_upper mx ex my ey T :
  canonical (Zpos mx) ex -> canonical (Zpos my) ey ->
  representable T -> (T < IZR (2 ^ 32 - 1))%R ->
  (F2R (Zpos mx) ex <= T * F2R (Zpos my) ey)%R ->
  let q := fdiv (S754_finite false mx ex) (S754_finite false my ey) in
  (F2R (Zpos mx) ex < IZR (to_uint32 q + 1) * F2R (Zpos my) ey)%R.
Proof.
  intros Cx Cy HT HTh Hu q.
  destruct (fdiv_pos_spec mx ex my ey Cx Cy) as (v & Hr & Tlo & Tup). fold q in Hr.
  pose proof (F2R_pos (Zpos my) ey ltac:(lia)) as Hy.
  pose proof (F2R_pos (Zpos mx) ex ltac:(lia)) as Hx.
  assert (Hv : (v <= T)%R).
  { destruct HT as (t & et & Ct & Vt). rewrite <- Vt. apply Tup; [assumption|].
    rewrite Vt. apply Rdiv_le; assumption. }
  assert (Hq : 0 <= to_uint32 q < 2 ^ 32 - 1 /\ (v < IZR (to_uint32 q + 1))%R).
  { destruct Hr as [[-> ->]|[(m & e & -> & C & E & ->)|[_ H]]].
    - change (to_uint32 (S754_zero false)) with 0. split; [lia|simpl; lra].
    - pose proof (floor_of_spec (Zpos m) e ltac:(lia)) as [Fl Fu].
      pose proof (floor_of_nonneg (Zpos m) e ltac:(lia)) as F0.
      assert (Hlt : floor_of (Zpos m) e < 2 ^ 32 - 1).
      { apply lt_IZR. lra. }
      rewrite to_uint32_pos by lia. split; [lia|assumption].
    - exfalso. pose proof (bpow_lt 32 1024 ltac:(lia)) as Hb.
      rewrite (bpow_IZR 32) in Hb by lia.
      assert (IZR (2 ^ 32 - 1) <= IZR (2 ^ 32))%R by (apply IZR_le; lia). lra. }
  destruct Hq as [Hq Hlt].
  destruct (Rlt_le_dec (F2R (Zpos mx) ex) (IZR (to_uint32 q + 1) * F2R (Zpos my) ey))
    as [|Hge]; [assumption|exfalso].
  destruct (representable_Z (to_uint32 q + 1) ltac:(lia)) as (t & et & Ct & Vt).
  assert (F2R t et <= v)%R.
  { apply Tlo; [assumption|]. rewrite Vt. apply Rdiv_ge; assumption. }
  lra.
Qed.

(** A product of positive doubles that is at least a number a double
    holds. *)
Lemma fmul_ge mx ex c z :
  canonical (Zpos mx) ex -> 0 < c < 2 ^ 32 -> 0 < z < 2 ^ 32 ->
  (IZR z <= F2R (Zpos mx) ex * IZR c)%R ->
  flt (fmul (S754_finite false mx ex) (of_Z c)) (of_Z z) = false.
Proof.
  intros Cx Hc Hz H.
  destruct (of_Z_u32 c Hc) as (mc & ec & Ec & Cc & _ & Vc). rewrite Ec.
  destruct (fmul_spec false false mx ex mc ec Cx Cc) as (v & Hr & Tlo & _).
  rewrite Vc in Tlo. cbn [xorb] in Hr.
  destruct (of_Z_u32 z Hz) as (mz & ez & Ez & Cz & Lz & Vz). rewrite Ez.
  assert (Hv : (IZR z <= v)%R).
  { rewrite <- Vz. apply Tlo; [assumption|]. rewrite Vz. assumption. }
  destruct (rounds_to_nn_or_inf _ _ Hr) as [Hn | ->]; [|apply flt_inf_false].
  pose proof (flt_nn _ v _ (F2R (Zpos mz) ez) Hn (nn_finite mz ez Cz Lz)) as Hiff.
  destruct (flt _ _); [|reflexivity].
  apply proj1 in Hiff. specialize (Hiff eq_refl). rewrite Vz in Hiff. lra.
Qed.

(** A product of positive doubles that is below a number a double
    holds. *)
Lemma fmul_lt mx ex c z' z :
  canonical (Zpos mx) ex -> 0 < c < 2 ^ 32 -> 0 < z' < z -> z < 2 ^ 32 ->
  (F2R (Zpos mx) ex * IZR c <= IZR z')%R ->
  flt (fmul (S754_finite false mx ex) (of_Z c)) (of_Z z) = true.
Proof.
  intros Cx Hc Hz' Hz H.
  destruct (of_Z_u32 c Hc) as (mc & ec & Ec & Cc & _ & Vc). rewrite Ec.
  destruct (fmul_spec false false mx ex mc ec Cx Cc) as (v & Hr & _ & Tup).
  rewrite Vc in Tup. cbn [xorb] in Hr.
  destruct (of_Z_u32 z ltac:(lia)) as (mz & ez & Ez & Cz & Lz & Vz). rewrite Ez.
  assert (Hv : (v <= IZR z')%R).
  { destruct (representable_Z z' ltac:(lia)) as (t & et & Ct & Vt).
    rewrite <- Vt. apply Tup; [assumption|]. rewrite Vt. assumption. }
  assert (Hlt : (IZR z' < IZR z)%R) by (apply IZR_lt; lia).
  destruct (rounds_to_nn_or_inf _ _ Hr) as [Hn|Einf].
  - apply (flt_nn _ v _ (F2R (Zpos mz) ez) Hn (nn_finite mz ez Cz Lz)). rewrite Vz. lra.
  - exfalso. rewrite Einf in Hr.
    destruct Hr as [[Hr _]|[(? & ? & Hr & _)|[_ Hr]]]; try discriminate.
    pose proof (bpow_lt 32 1024 ltac:(lia)) as Hb. rewrite (bpow_IZR 32) in Hb by lia.
    assert (IZR z' <= IZR (2 ^ 32))%R by (apply IZR_le; lia). lra.
Qed.

Lemma descending_first c n : (1 <= n)%nat -> In c (descending c n).
Proof.
  intros Hn. destruct n as [|n]; [lia|]. rewrite descending_S. left. reflexivity.
Qed.

(** The second scenario on a divided reference between 10 MHz and
    40 MHz. *)
Lemma scenario_b_run junk_out e mx ex :
  xtal e = S754_finite false mx ex -> canonical (Zpos mx) ex ->
  (10000000 <= F2R (Zpos mx) ex <= 40000000)%R ->
  let c0 := Z.min 90 (initial_feedback_ms e) in
  24 <= initial_feedback_ms e <= 100 /\ Z.even (initial_feedback_ms e) = true
  /\ exists evs n,
       scenario_b junk_out e = (evs, EXIT_SUCCESS)
       /\ (1 <= n)%nat
       /\ feedbacks evs = descending c0 n
       /\ (forall c, In c (feedbacks evs) ->
             Z.even c = true /\ 16 <= c <= 90
             /\ is_finite (f_vco_b e c) = true
             /\ (600000000 <= B2R (f_vco_b e c) < 1000000001)%R)
       /\ flt (f_vco_b e (c0 - 2 * Z.of_nat n)) SI5351_MIN_VCO_FREQ = true.
Proof.
  intros Ex Cx Hb c0.
  destruct max_vco_eq as (mM & eM & EM & CM & VM).
  set (t := to_uint32 (fdiv SI5351_MAX_VCO_FREQ (xtal e))).
  assert (Ht : 25 <= t <= 100).
  { unfold t. rewrite EM, Ex.
    apply (fdiv_uint32_bounds mM eM mx ex 25 100 100); try assumption; try lia.
    - apply (representable_Z 100). lia.
    - lra.
    - rewrite VM. lra.
    - rewrite VM. lra. }
  assert (Hup : (1000000000 < IZR (t + 1) * F2R (Zpos mx) ex)%R).
  { unfold t. rewrite EM, Ex. rewrite <- VM.
    apply (fdiv_floor_upper mM eM mx ex 100); try assumption.
    - apply (representable_Z 100). lia.
    - apply IZR_lt. lia.
    - rewrite VM. lra. }
  destruct (even_part t ltac:(lia)) as (Eu & Ev & Hb2).
  assert (Ei : initial_feedback_ms e = t - t mod 2) by (unfold initial_feedback_ms; exact Eu).
  assert (Hi : 24 <= initial_feedback_ms e <= 100) by lia.
  split; [assumption|]. split; [rewrite Ei; assumption|].
  assert (Hev : Z.even c0 = true).
  { unfold c0. destruct (Z.min_spec 90 (initial_feedback_ms e)) as [[_ ->]|[_ ->]];
      [reflexivity|rewrite Ei; assumption]. }
  assert (Hc0 : 24 <= c0 <= 90) by (unfold c0; lia).
  (* the first candidate has a VCO frequency of at least 600 MHz *)
  assert (Hfirst : flt (f_vco_b e c0) SI5351_MIN_VCO_FREQ = false).
  { unfold f_vco_b. rewrite Ex. apply fmul_ge; [assumption|lia|lia|].
    destruct (Z_le_gt_dec 90 (initial_feedback_ms e)) as [Hge|Hlt].
    - assert (c0 = 90) by (unfold c0; lia). rewrite H. lra.
    - assert (Hc : c0 = t - t mod 2) by (unfold c0; lia).
      assert (Hle : (IZR (t + 1) <= IZR c0 + 2)%R).
      { rewrite <- (plus_IZR c0 2). apply IZR_le. lia. }
      pose proof (F2R_pos (Zpos mx) ex ltac:(lia)). nra. }
  unfold scenario_b. fold c0.
  replace (initial_feedback_ms e <? 16) with false by (symmetry; apply Z.ltb_ge; lia).
  assert (Eclamp : (if 90 <? initial_feedback_ms e then 90 else initial_feedback_ms e) = c0).
  { unfold c0. destruct (Z.ltb_spec 90 (initial_feedback_ms e)); lia. }
  rewrite Eclamp. fold (f_vco_b e c0). rewrite Hfirst, andb_false_r.
  destruct (scenario_b_loop_run junk_out e (loop_fuel c0) c0 ltac:(lia)
              ltac:(unfold loop_fuel; lia)) as (evs & n & El & Hcs & Hvis & Hstop).
  rewrite El. exists evs, n. split; [reflexivity|].
  assert (Hn : (1 <= n)%nat).
  { destruct n as [|n]; [|lia]. exfalso. rewrite Z.sub_0_r in Hstop.
    unfold stops_b in Hstop. rewrite Hfirst, orb_false_r in Hstop.
    apply Z.ltb_lt in Hstop. lia. }
  split; [assumption|]. split; [assumption|]. split.
  2:{ unfold stops_b in Hstop. apply orb_true_iff in Hstop.
      destruct Hstop as [Hs|Hs]; [|exact Hs]. apply Z.ltb_lt in Hs.
      destruct n as [|n]; [lia|].
      specialize (Hvis n ltac:(lia)). unfold stops_b in Hvis. apply orb_false_iff in Hvis.
      destruct Hvis as [H16 _]. apply Z.ltb_ge in H16.
      assert (Hodd : Z.even (c0 - 2 * Z.of_nat (S n)) = true).
      { rewrite Z.even_sub, Hev, Z.even_mul. reflexivity. }
      set (s := c0 - 2 * Z.of_nat (S n)) in *.
      assert (H14 : 14 <= s < 16) by lia.
      assert (s = 14 \/ s = 15) as [-> | ->] by lia; [|discriminate].
      unfold f_vco_b. rewrite Ex.
      apply (fmul_lt mx ex 14 560000000 600000000); [assumption|lia|lia|lia|lra]. }
  intros c Hin. rewrite Hcs in Hin.
  destruct (in_descending _ _ _ Hin) as (i & Hlt & ->).
  specialize (Hvis i Hlt). unfold stops_b in Hvis. apply orb_false_iff in Hvis.
  destruct Hvis as [H16 Hf]. apply Z.ltb_ge in H16. split; [|split; [lia|]].
  - rewrite Z.even_sub, Hev, Z.even_mul. reflexivity.
  - assert (Hb28 : (40000000 <= bpow 28)%R).
    { rewrite bpow_IZR by lia. change (2 ^ 28) with 268435456. lra. }
    destruct (vco_upper mx ex (c0 - 2 * Z.of_nat i) Cx ltac:(lra)) as (F & V & U).
    { cbv zeta. rewrite <- Ex. fold t. lia. }
    unfold f_vco_b in *. rewrite Ex in *. split; [exact F|]. split; [|exact U].
    apply (flt_of_Z_r_false _ 600000000 V F); [lia|exact Hf].
Qed.

(** ** The run as a whole *)

Lemma setup_ends junk_clks argv : snd (setup junk_clks argv) <> inl Diverges.
Proof.
  unfold setup. destruct (too_many_arguments _); [discriminate|].
  destruct argv as [|x cs]; [discriminate|].
  destruct (xtal_out_of_range x); [discriminate|].
  destruct (clkin_loop_total 5 x 0 ltac:(lia) ltac:(simpl; lia)) as (x' & d & -> & _).
  destruct (rdiv_loop_total 9 (parse_clks junk_clks cs 0%nat) 0 ltac:(lia) ltac:(simpl; lia))
    as (r & d' & -> & _).
  destruct (flt r (of_Z 1000000)); discriminate.
Qed.

Lemma initial_output_ms_range e : 0 <= initial_output_ms e < 2 ^ 32.
Proof. unfold initial_output_ms, u32. apply Z.mod_pos_bound. lia. Qed.

Lemma initial_feedback_ms_range e : 0 <= initial_feedback_ms e < 2 ^ 32.
Proof. unfold initial_feedback_ms, u32. apply Z.mod_pos_bound. lia. Qed.

Lemma scenario_a_ends junk_out e : snd (scenario_a junk_out e) <> Some Diverges.
Proof.
  unfold scenario_a. destruct (_ || _); [discriminate|].
  destruct (scenario_a_loop_run junk_out e (loop_fuel (initial_output_ms e))
              (initial_output_ms e) (initial_output_ms_range e)
              ltac:(unfold loop_fuel; lia)) as (evs & n & -> & _).
  discriminate.
Qed.

Lemma scenario_b_ends junk_out e : snd (scenario_b junk_out e) <> Diverges.
Proof.
  unfold scenario_b. destruct (initial_feedback_ms e <? 16); [discriminate|].
  pose proof (initial_feedback_ms_range e) as Hr.
  set (c := if 90 <? initial_feedback_ms e then 90 else initial_feedback_ms e).
  assert (Hc : 0 <= c < 2 ^ 32) by (unfold c; destruct (90 <? initial_feedback_ms e); lia).
  destruct (_ && _); [discriminate|].
  destruct (scenario_b_loop_run junk_out e (loop_fuel c) c Hc ltac:(unfold loop_fuel; lia))
    as (evs & n & -> & _).
  discriminate.
Qed.

(** What [setup] leaves of a reference that is a number. *)
Lemma setup_xtal junk_clks argv out e :
  setup junk_clks argv = (out, inr e) ->
  valid (xtal_orig e) -> xtal_orig e <> S754_nan ->
  valid (xtal e) /\ is_finite (xtal e) = true
  /\ flt (xtal e) (of_Z 10000000) = false /\ flt (of_Z 40000000) (xtal e) = false.
Proof.
  intros Hs Hv Hn.
  destruct (setup_env _ _ _ _ Hs) as (cs & d & _ & _ & Hr & Hc & _).
  destruct (xtal_in_range _ Hv Hn Hr) as [Hf Hb].
  destruct (clkin_loop_spec _ Hv Hf Hb) as (x' & d' & Ec & V' & F' & D' & B' & U' & Z' & L').
  rewrite Hc in Ec. injection Ec as <- <-.
  split; [assumption|]. split; [assumption|]. split.
  - apply flt_of_Z_r_false; [assumption|assumption|lia|].
    assert (H2 : d = 0 \/ d = 1 \/ d = 2) by lia.
    destruct H2 as [-> | [-> | ->]].
    + change (2 ^ 0) with 1 in B'. lra.
    + specialize (L' ltac:(lia)). lra.
    + specialize (L' ltac:(lia)). lra.
  - apply flt_of_Z_l_false; [assumption|assumption|lia|assumption].
Qed.

(** ** The lines of the additional clocks *)

Lemma seq_sorted a n : StronglySorted lt (seq a n).
Proof.
  revert a. induction n as [|n IH]; intros a; [constructor|].
  cbn [seq]. constructor; [apply IH|].
  apply Forall_forall. intros x Hx. apply in_seq in Hx. lia.
Qed.

(** The lines are those of the indices, in their order, whose ratio
    passed the test. *)
Lemma additional_clocks_spec junk_out e pll :
  forall idx ls,
  additional_clocks junk_out e pll idx = Some ls ->
  (length ls <= length idx)%nat
  /\ (StronglySorted lt idx -> StronglySorted Z.lt (map cl_nclk ls))
  /\ forall l, In l ls ->
       exists n, In n idx /\ cl_nclk l = Z.of_nat n
         /\ rational_approximation (fdiv pll (clks e n)) SI5351_MAX_DENOMINATOR junk_out
            = Some (cl_ratio l)
         /\ flt (ratio_value (cl_ratio l)) (of_Z 4) = false
         /\ flt (of_Z 900) (ratio_value (cl_ratio l)) = false
         /\ cl_actual_clk l = fdiv pll (ratio_value (cl_ratio l))
         /\ cl_diff l = flagged_diff (fsub (cl_actual_clk l) (clks e n)).
Proof.
  induction idx as [|n idx IH]; intros ls H.
  - injection H as <-. split; [simpl; lia|]. split; [constructor|intros l []].
  - cbn [additional_clocks] in H.
    destruct (rational_approximation _ _ _) as [r|] eqn:Er; [|discriminate].
    destruct (additional_clocks junk_out e pll idx) as [ls'|]; [|discriminate].
    destruct (IH ls' eq_refl) as (Hlen & Hsort & Hall).
    destruct (flt (ratio_value r) (of_Z 4) || flt (of_Z 900) (ratio_value r)) eqn:Eb.
    + injection H as <-. split; [simpl; lia|]. split.
      * intros Hs. apply Hsort. inversion Hs. assumption.
      * intros l Hin. destruct (Hall l Hin) as (n' & Hn' & Hrest).
        exists n'. split; [right; assumption|assumption].
    + injection H as <-. apply orb_false_iff in Eb. destruct Eb as [E4 E9].
      split; [simpl; lia|]. split.
      * intros Hs. inversion Hs as [|? ? Hs' Hfor]; subst. cbn [map cl_nclk].
        constructor; [apply Hsort; assumption|].
        apply Forall_forall. intros z Hz. apply in_map_iff in Hz.
        destruct Hz as (l & <- & Hl). destruct (Hall l Hl) as (n' & Hn' & -> & _).
        rewrite Forall_forall in Hfor. specialize (Hfor n' Hn'). lia.
      * intros l [<-|Hin].
        -- exists n. cbn [cl_nclk cl_ratio cl_actual_clk cl_diff].
           repeat split; try assumption; try reflexivity. left. reflexivity.
        -- destruct (Hall l Hin) as (n' & Hn' & Hrest).
           exists n'. split; [right; assumption|assumption].
Qed.

(** ** The ratio of a value: sign, integer part, error *)

Lemma fle_nonpos_epsilon x : nonpos_double x -> fle x epsilon = true.
Proof.
  rewrite epsilon_eq.
  destruct x as [s|s| |s m e]; try contradiction; destruct s; try contradiction;
    reflexivity.
Qed.

Lemma modf_frac_nonpos x :
  nonpos_double x \/ x = S754_infinity false ->
  nonpos_double (fst (modf x)).
Proof.
  intros [H| ->]; [|exact I].
  destruct x as [s|s| |s m e]; try contradiction.
  - exact I.
  - exact I.
  - destruct s; [|contradiction]. cbn [modf]. destruct (0 <=? e); [exact I|].
    cbn [fst]. unfold normalize. destruct (Zpos m mod 2 ^ (- e)) as [|p|p]; try exact I.
    destruct (binary_round_spec true p e) as (v & Hr & _).
    destruct Hr as [[-> _]|[(m' & e' & -> & _)|[-> _]]]; exact I.
Qed.

Lemma pow32_eq :
  exists m e, of_Z 4294967296 = S754_finite false m e /\ canonical (Zpos m) e
              /\ F2R (Zpos m) e = 4294967296%R.
Proof.
  destruct (of_Z_pos 4294967296 ltac:(lia)) as (E & C & V).
  eexists _, _. split; [exact E|]. rewrite Z2Pos.id by (apply C). split; assumption.
Qed.

(** The error of the pair the expansion ends with: the one the code
    computed for it, at most the fractional part and at most its
    distance to 1. *)
Lemma best_error m0 e0 D bs :
  canonical (Zpos m0) e0 -> (F2R (Zpos m0) e0 < 1)%R -> 1 <= D ->
  let f0 := S754_finite false m0 e0 in
  expand 100 f0 D (CF f0 1 0 0 1 (Best f0 0 1)) = Some bs ->
  delta bs = cand_err f0 (best_b bs) (best_c bs)
  /\ exists v, nn (delta bs) v
       /\ (v <= F2R (Zpos m0) e0)%R /\ (v <= 1 - F2R (Zpos m0) e0)%R.
Proof.
  intros Hc HF1 HD f0 E. subst f0.
  apply expand_fold in E. cbn [cf_best] in E.
  set (f0 := S754_finite false m0 e0) in *.
  set (cs := expand_cands 100 f0 D (CF f0 1 0 0 1 (Best f0 0 1))) in *.
  split.
  - destruct (improve_all_min f0 cs (Best f0 0 1) ltac:(discriminate)) as (_ & _ & _ & Hsel).
    rewrite <- E in Hsel. destruct Hsel as [->|[_ Hd]]; [|exact Hd].
    cbn [delta best_b best_c]. symmetry. apply cand_err_default. left. eexists _, _. reflexivity.
  - assert (He0 : e0 <= 971).
    { destruct (Z_le_gt_dec e0 971); [assumption|exfalso].
      pose proof (F2R_dig (Zpos m0) e0 ltac:(lia)) as [Hl _].
      pose proof (dig_pos (Zpos m0) ltac:(lia)).
      pose proof (bpow_le 0 (dig (Zpos m0) + e0 - 1) ltac:(lia)) as Hb.
      change (bpow 0) with 1%R in Hb. lra. }
    pose proof (expand_cands_le f0 D 100 (CF f0 1 0 0 1 (Best f0 0 1))) as Hle. fold cs in Hle.
    destruct (Rle_lt_dec (F2R (Zpos m0) e0) (/ 2)) as [Hh|Hh].
    + assert (Hinv : inv D (F2R (Zpos m0) e0) bs).
      { rewrite E. apply improve_all_inv; try assumption; try lra.
        - exists (Zpos m0), e0. split; [assumption|reflexivity].
        - exists (F2R (Zpos m0) e0). split; [apply nn_finite; assumption|].
          split; [lra|]. split; [left; split; reflexivity|simpl; lia]. }
      destruct Hinv as (v & Hn & Hb & _). exists v. split; [assumption|]. split; lra.
    + destruct (first_candidate m0 e0 D (Best f0 0 1) Hc (conj Hh HF1) HD) as [rest Er].
      cbv zeta in Er. fold f0 in Er. fold cs in Er.
      rewrite Er in E, Hle. rewrite improve_all_cons in E. cbn [fst snd] in E.
      assert (Hinv : inv D (1 - F2R (Zpos m0) e0) bs).
      { rewrite E. apply improve_all_inv; try assumption; try lra.
        - apply one_minus_representable; [assumption|lra].
        - intros c Hin. apply Hle. right. assumption.
        - apply improve_first; [assumption|lra|assumption]. }
      destruct Hinv as (v & Hn & Hb & _). exists v. split; [assumption|]. split; lra.
Qed.

(** ** More on the loop of the first scenario *)

(** A feedback ratio of a divider that passed the test of the loop is
    not below 15, for a divided reference of at most 40 MHz. *)
Lemma feedback_not_below e o :
  valid (xtal e) -> is_finite (xtal e) = true -> flt (S754_zero false) (xtal e) = true ->
  flt (of_Z 40000000) (xtal e) = false ->
  valid (r_clk0 e) -> is_finite (r_clk0 e) = true ->
  4 <= o < 2 ^ 32 ->
  stops_a e o = false ->
  flt (feedback_ms_a e o) (of_Z 15) = false.
Proof.
  intros Vx Fx Px Ux Vr Fr Ho Hs.
  apply flt_of_Z_l_false in Ux; [|assumption|assumption|lia].
  unfold stops_a in Hs. apply orb_false_iff in Hs. destruct Hs as [_ Hs].
  unfold feedback_ms_a in *. unfold f_vco_a in *.
  destruct min_vco_eq as (mv & ev & Emin & Cmin & Vmin). rewrite Emin in Hs.
  destruct (of_Z_u32 o ltac:(lia)) as (mo & eo & Eo & Co & _ & Vo). rewrite Eo in *.
  destruct (of_Z_u32 15 ltac:(lia)) as (mf & ef & Ef & Cf & Lf & Vf). rewrite Ef.
  destruct (positive_cases _ Px) as [Ex|(mx & ex & Ex)]; rewrite Ex in *; [discriminate|].
  apply valid_finite in Vx. destruct Vx as [Cx _]. rewrite B2R_pos in Ux.
  pose proof (F2R_pos (Zpos mx) ex ltac:(lia)) as Hx.
  destruct (finite_cases _ Vr Fr) as [[s Er]|(s & mr & er & Er & Cr & _)]; rewrite Er in *.
  { destruct s; discriminate Hs. }
  destruct (fmul_spec s false mr er mo eo Cr Co) as (v1 & R1 & _).
  destruct s.
  { cbn [xorb] in R1.
    destruct R1 as [[E1 _]|[(m1 & e1 & E1 & _)|[E1 _]]]; rewrite E1 in Hs; discriminate Hs. }
  cbn [xorb] in R1.
  destruct R1 as [[E1 _]|[(m1 & e1 & E1 & C1 & _)|[E1 _]]]; rewrite E1 in *.
  - discriminate Hs.
  - assert (H6 : (600000000 <= F2R (Zpos m1) e1)%R).
    { rewrite <- Vmin. destruct (Rle_lt_dec (F2R (Zpos mv) ev) (F2R (Zpos m1) e1)) as [|Hlt];
        [assumption|].
      apply (flt_pos m1 e1 mv ev C1 Cmin) in Hlt. congruence. }
    destruct (fdiv_pos_spec m1 e1 mx ex C1 Cx) as (v2 & R2 & Tlo & _).
    assert (Hv2 : (15 <= v2)%R).
    { rewrite <- Vf. apply Tlo; [assumption|]. rewrite Vf. apply Rdiv_ge; [assumption|lra]. }
    destruct R2 as [[E2 V2]|[(m2 & e2 & E2 & C2 & L2 & V2)|[E2 _]]]; rewrite E2.
    + lra.
    + destruct (flt (S754_finite false m2 e2) (S754_finite false mf ef)) eqn:El;
        [|reflexivity].
      apply (flt_pos m2 e2 mf ef C2 Cf) in El. lra.
    + reflexivity.
  - reflexivity.
Qed.

(** ** Parity of the candidates *)

Lemma odd_u32 x : Z.odd (u32 x) = Z.odd x.
Proof.
  unfold u32. rewrite Zmod_eq_full by lia.
  rewrite Z.odd_sub, Z.odd_mul. change (Z.odd (2 ^ 32)) with false.
  rewrite andb_false_r, xorb_false_r. reflexivity.
Qed.

(** The candidates of a pass, for convergents with an odd determinant. *)
Lemma scan_cands_odd D an h0 h1 k0 k1 :
  Z.odd (h1 * k0 - h0 * k1) = true ->
  forall fuel m c, In c (scan_cands fuel D an h0 h1 k0 k1 m) ->
  Z.odd (fst c) = true \/ Z.odd (snd c) = true.
Proof.
  intros Hdet. induction fuel as [|fuel IH]; intros m c Hin; [contradiction|].
  cbn [scan_cands] in Hin. destruct (m <=? an); [|contradiction].
  cbv zeta in Hin. destruct (u32 (m * k1 + k0) >? D); [contradiction|].
  destruct Hin as [<-|Hin]; [|apply (IH _ _ Hin)].
  cbn [fst snd]. rewrite !odd_u32.
  rewrite Z.odd_sub, !Z.odd_mul in Hdet. rewrite !Z.odd_add, !Z.odd_mul.
  destruct (Z.odd h0), (Z.odd h1), (Z.odd k0), (Z.odd k1), (Z.odd m);
    try discriminate; auto.
Qed.

Lemma expand_step_odd f0 D st st' :
  expand_step f0 D st = Some st' ->
  Z.odd (cf_h1 st' * cf_k0 st' - cf_h0 st' * cf_k1 st')
  = Z.odd (cf_h1 st * cf_k0 st - cf_h0 st * cf_k1 st).
Proof.
  unfold expand_step. destruct (modf _) as [f' anf].
  destruct (scan _ _ _ _ _ _ _ _ _ _) as [bs|]; [|discriminate].
  intros H. injection H as <-. cbn [cf_h0 cf_h1 cf_k0 cf_k1].
  rewrite !Z.odd_sub, !Z.odd_mul, !odd_u32, !Z.odd_add, !Z.odd_mul.
  destruct (Z.odd (cf_h0 st)), (Z.odd (cf_h1 st)), (Z.odd (cf_k0 st)), (Z.odd (cf_k1 st)),
    (Z.odd (to_uint32 anf)); reflexivity.
Qed.

Lemma expand_cands_odd f0 D :
  forall i st,
  Z.odd (cf_h1 st * cf_k0 st - cf_h0 st * cf_k1 st) = true ->
  forall c, In c (expand_cands i f0 D st) ->
  Z.odd (fst c) = true \/ Z.odd (snd c) = true.
Proof.
  induction i as [|i IH]; intros st Hdet c Hin; [contradiction|].
  cbn [expand_cands] in Hin. destruct (fle (cf_f st) epsilon); [contradiction|].
  apply in_app_or in Hin. destruct Hin as [Hin|Hin].
  - unfold step_cands in Hin. apply (scan_cands_odd _ _ _ _ _ _ Hdet _ _ _ Hin).
  - destruct (expand_step f0 D st) as [st'|] eqn:Es; [|contradiction].
    apply (IH st'); [|assumption]. rewrite (expand_step_odd _ _ _ _ Es). assumption.
Qed.

Lemma improve_all_keeps (P : Z -> Z -> Prop) f0 :
  forall cs bs,
  P (best_b bs) (best_c bs) -> (forall c, In c cs -> P (fst c) (snd c)) ->
  P (best_b (improve_all f0 cs bs)) (best_c (improve_all f0 cs bs)).
Proof.
  induction cs as [|c cs IH]; intros bs Hb Hall; [exact Hb|].
  rewrite improve_all_cons. apply IH; [|intros c' Hc'; apply Hall; right; assumption].
  unfold improve. destruct (flt _ _); [|assumption].
  cbn [best_b best_c]. apply Hall. left. reflexivity.
Qed.

(** ** The plans of the second scenario *)

Lemma scenario_b_events junk_out e :
  forall fuel c evs ev,
  scenario_b_loop junk_out fuel e c = Some evs -> In ev evs ->
  exists o, plan_b junk_out e o = Some ev.
Proof.
  induction fuel as [|fuel IH]; intros c evs ev H Hin; [discriminate|].
  cbn [scenario_b_loop] in H. destruct (stops_b e c).
  { injection H as <-. contradiction. }
  destruct (plan_b junk_out e c) as [ev0|] eqn:Ep; [|discriminate].
  destruct (scenario_b_loop junk_out fuel e (u32 (c - 2))) as [rest|] eqn:Er; [|discriminate].
  injection H as <-. destruct Hin as [<-|Hin].
  - exists c. exact Ep.
  - apply (IH _ _ _ Er Hin).
Qed.

Lemma ratio_of_zero s D out0 :
  rational_approximation (S754_zero s) D out0 = Some (Ratio 0 0 1).
Proof.
  unfold rational_approximation. cbn [modf]. rewrite expand_zero. destruct s; reflexivity.
Qed.

(** ** A bound of zero on the denominator *)

Lemma cand_err_zero_den f0 hm x :
  0 <= hm < 2 ^ 32 -> flt (cand_err f0 hm 0) x = false.
Proof.
  intros Hh. unfold cand_err. change (of_Z 0) with (S754_zero false).
  destruct (Z.eq_dec hm 0) as [->|Hn].
  - change (of_Z 0) with (S754_zero false). reflexivity.
  - destruct (of_Z_u32 hm ltac:(lia)) as (m & e & -> & _).
    change (fdiv (S754_finite false m e) (S754_zero false)) with (S754_infinity false).
    destruct f0 as [s|s| |s m0 e0]; try reflexivity; destruct s;
      first [reflexivity | apply flt_inf_false].
Qed.

Lemma improve_all_zero_den f0 :
  forall cs bs,
  (forall c, In c cs -> 0 <= fst c < 2 ^ 32 /\ snd c = 0) ->
  improve_all f0 cs bs = bs.
Proof.
  induction cs as [|c cs IH]; intros bs Hall; [reflexivity|].
  rewrite improve_all_cons. destruct (Hall c ltac:(left; reflexivity)) as [Hh Hk].
  unfold improve. rewrite Hk, cand_err_zero_den by assumption.
  apply IH. intros c' Hc'. apply Hall. right. assumption.
Qed.

(** ** Fractions that are a power of two *)

Lemma pow2_canonical k :
  -1022 <= k <= 1023 ->
  canonical (Zpos 4503599627370496) (k - 52)
  /\ F2R (Zpos 4503599627370496) (k - 52) = bpow k.
Proof.
  intros Hk. split.
  - split; [reflexivity|]. change (dig (Zpos 4503599627370496)) with 53.
    rewrite fexp_eq. lia.
  - apply F2R_pow2_compute; [|lia]. replace (k - (k - 52)) with 52 by lia. reflexivity.
Qed.

Lemma of_Z_pow2 k : 0 <= k <= 52 -> of_Z (2 ^ k) = pow2 k.
Proof.
  intros Hk.
  assert (Hp : 0 < 2 ^ k) by (apply Z.pow_pos_nonneg; lia).
  assert (Hlt : 2 ^ k < 2 ^ 53) by (apply Z.pow_lt_mono_r; lia).
  destruct (of_Z_pos (2 ^ k) (conj Hp Hlt)) as (E & _).
  assert (Hd : dig (2 ^ k) = k + 1).
  { replace (2 ^ k) with (1 * 2 ^ k) by lia. rewrite dig_mul_pow2 by lia.
    change (dig 1) with 1. lia. }
  rewrite Hd in E. rewrite E. unfold pow2.
  replace (2 ^ k * 2 ^ (53 - (k + 1))) with (2 ^ 52).
  - f_equal. lia.
  - rewrite <- Z.pow_add_r by lia. f_equal. lia.
Qed.

Lemma bpow_div a b : (bpow a / bpow b = bpow (a - b))%R.
Proof.
  pose proof (bpow_gt_0 b) as Hb.
  replace a with (a - b + b) at 1 by lia. rewrite bpow_add.
  unfold Rdiv. rewrite Rmult_assoc, Rinv_r by lra. lra.
Qed.

(** Quotients of powers of two are exact. *)
Lemma fdiv_pow2 a b :
  -1022 <= a <= 1023 -> -1022 <= b <= 1023 -> -1022 <= a - b <= 1023 ->
  fdiv (pow2 a) (pow2 b) = pow2 (a - b).
Proof.
  intros Ha Hb Hab.
  destruct (pow2_canonical a Ha) as [Ca Va].
  destruct (pow2_canonical b Hb) as [Cb Vb].
  destruct (pow2_canonical (a - b) Hab) as [Cc Vc].
  unfold pow2 at 1 2.
  destruct (fdiv_pos_spec _ _ _ _ Ca Cb) as (v & Hr & Ht).
  rewrite Va, Vb, bpow_div in Ht.
  apply (rounds_exact _ _ _ _ _ _ Hr Ht Cc); [lia|]. symmetry. exact Vc.
Qed.

Lemma fle_pow2_epsilon k : 1 <= k <= 16 -> fle (pow2 (- k)) epsilon = false.
Proof.
  intros Hk. rewrite epsilon_eq. unfold pow2, fle, SFleb, SFcompare.
  destruct (Z.compare_spec (- k - 52) (-69)) as [H|H|H]; first [reflexivity | lia].
Qed.

Lemma positive_delta r : (r <> S754_zero false) ->
  (exists v, rounds_to false r v) -> flt (S754_zero false) (fabs r) = true.
Proof.
  intros Hn (v & [[E _]|[(m & e & -> & _)|[-> _]]]); [contradiction| |]; reflexivity.
Qed.

(** The error of [1/m] for [m] below [2^k]: above zero. *)
Lemma cand_err_unit_pos k m :
  1 <= k <= 16 -> 1 <= m < 2 ^ k ->
  flt (S754_zero false) (cand_err (pow2 (- k)) 1 m) = true.
Proof.
  intros Hk Hm. unfold cand_err. rewrite one_eq.
  assert (H2k : 2 ^ k <= 2 ^ 16) by (apply Z.pow_le_mono_r; lia).
  change (2 ^ 16) with 65536 in H2k.
  destruct (of_Z_u32 m ltac:(lia)) as (mm & em & -> & Cm & _ & Vm).
  destruct canonical_one as [C1 V1]. change (2 ^ 52) with (Zpos 4503599627370496) in C1, V1.
  destruct (pow2_canonical (- k) ltac:(lia)) as [Cf Vf].
  destruct (pow2_canonical (- (2 * k)) ltac:(lia)) as [Cs Vs].
  destruct (fdiv_pos_spec _ _ _ _ C1 Cm) as (vq & Rq & Tlo & Tup).
  rewrite V1, Vm in Tlo, Tup.
  set (A := IZR (2 ^ k)). set (B := bpow (- (2 * k))).
  assert (HA : bpow k = A) by (apply bpow_IZR; lia).
  assert (HAB : (A * A * B = 1)%R).
  { unfold B. rewrite <- HA, <- !bpow_add. replace (k + k + - (2 * k)) with 0 by lia.
    reflexivity. }
  assert (HAf : (A * bpow (- k) = 1)%R).
  { rewrite <- HA, <- bpow_add. replace (k + - k) with 0 by lia. reflexivity. }
  assert (HfB : (bpow (- k) = A * B)%R).
  { unfold B. rewrite <- HA, <- bpow_add. f_equal. lia. }
  assert (HB : (0 < B)%R) by apply bpow_gt_0.
  assert (HA1 : (2 <= A)%R).
  { unfold A. apply IZR_le. change 2 with (2 ^ 1). apply Z.pow_le_mono_r; lia. }
  assert (Hm1 : (1 <= IZR m <= A - 1)%R).
  { split; [apply IZR_le; lia|]. unfold A. rewrite <- minus_IZR. apply IZR_le. lia. }
  (* the quotient is at least 2^-k + 2^-2k and at most 1 *)
  assert (HL : ((A + 1) * B <= vq)%R).
  { assert (Hrep : representable ((A + 1) * B)).
    { replace ((A + 1) * B)%R with (F2R (2 ^ k + 1) (- (2 * k))).
      - apply representable_of; [lia|].
        assert (dig (2 ^ k + 1) <= 53) by (apply dig_lt_pow; lia).
        rewrite fexp_eq. lia.
      - unfold F2R, A, B. rewrite plus_IZR. reflexivity. }
    destruct Hrep as (t & et & Ct & Vt). rewrite <- Vt. apply Tlo; [assumption|].
    rewrite Vt. apply Rdiv_ge; [lra|]. nra. }
  assert (HU : (vq <= 1)%R).
  { rewrite <- V1. apply Tup; [assumption|]. rewrite V1. apply Rdiv_le; lra. }
  destruct Rq as [[_ Hz]|[(mq & eq & -> & Cq & _ & Vq)|[_ Hinf]]].
  - exfalso. nra.
  - pose proof (fsub_pos_spec mq eq 4503599627370496 (- k - 52)) as Hs. cbv zeta in Hs.
    fold (pow2 (- k)) in Hs. rewrite <- Vq, Vf in Hs.
    destruct Hs as [[Hd _]|[(Hd & v & Rv & Tv)|[Hd _]]]; [exfalso; nra| |exfalso; nra].
    apply positive_delta; [|exists v; exact Rv].
    intros E. rewrite E in Rv.
    assert (Hv : (B <= v)%R).
    { unfold B. rewrite <- Vs. apply (proj1 Tv); [assumption|]. rewrite Vs. fold B. nra. }
    destruct Rv as [[_ Hz]|[(? & ? & Hf & _)|[Hf _]]]; try discriminate. lra.
  - exfalso. pose proof (bpow_lt 0 1024 ltac:(lia)) as Hb. change (bpow 0) with 1%R in Hb. lra.
Qed.

(** The error of [1/2^k]: zero. *)
Lemma cand_err_unit_zero k :
  1 <= k <= 16 -> cand_err (pow2 (- k)) 1 (2 ^ k) = S754_zero false.
Proof.
  intros Hk. unfold cand_err. rewrite (of_Z_pow2 k) by lia.
  change (of_Z 1) with (of_Z (2 ^ 0)). rewrite (of_Z_pow2 0) by lia.
  rewrite fdiv_pow2 by lia. replace (0 - k) with (- k) by lia.
  pose proof (fsub_pos_spec 4503599627370496 (- k - 52) 4503599627370496 (- k - 52)) as Hs.
  cbv zeta in Hs. fold (pow2 (- k)) in Hs.
  destruct Hs as [[_ ->]|[(Hd & _)|[Hd _]]]; [reflexivity|lra|lra].
Qed.

(** The scan of the first pass, from [m] on: it ends on [1/2^k]. *)
Lemma scan_unit k D :
  1 <= k <= 16 -> 2 ^ k <= D ->
  forall n fuel m bs,
  m + Z.of_nat n = 2 ^ k -> 1 <= m ->
  flt (S754_zero false) (delta bs) = true ->
  (n + 1 < fuel)%nat ->
  scan fuel (pow2 (- k)) D (2 ^ k) 1 0 0 1 m bs
  = Some (Best (S754_zero false) 1 (2 ^ k)).
Proof.
  intros Hk HD.
  assert (H2k : 2 ^ k <= 2 ^ 16) by (apply Z.pow_le_mono_r; lia).
  change (2 ^ 16) with 65536 in H2k.
  induction n as [|n IH]; intros fuel m bs Hm H1 Hp Hf.
  - destruct fuel as [|[|fuel]]; try lia.
    assert (m = 2 ^ k) by lia. subst m.
    cbn [scan]. rewrite Z.leb_refl. cbv zeta.
    replace (2 ^ k * 0 + 1) with 1 by lia. replace (2 ^ k * 1 + 0) with (2 ^ k) by lia.
    change (u32 1) with 1.
    assert (Eu : u32 (2 ^ k) = 2 ^ k) by (unfold u32; apply Z.mod_small; lia).
    rewrite Eu.
    replace (2 ^ k >? D) with false by (symmetry; rewrite Z.gtb_ltb; apply Z.ltb_ge; lia).
    unfold improve. rewrite cand_err_unit_zero by assumption. rewrite Hp.
    assert (Eu2 : u32 (2 ^ k + 1) = 2 ^ k + 1) by (unfold u32; apply Z.mod_small; lia).
    rewrite Eu2. replace (2 ^ k + 1 <=? 2 ^ k) with false by (symmetry; apply Z.leb_gt; lia).
    reflexivity.
  - destruct fuel as [|fuel]; [lia|].
    cbn [scan]. replace (m <=? 2 ^ k) with true by (symmetry; apply Z.leb_le; lia).
    cbv zeta. replace (m * 0 + 1) with 1 by lia. replace (m * 1 + 0) with m by lia.
    change (u32 1) with 1.
    assert (Eu : u32 m = m) by (unfold u32; apply Z.mod_small; lia).
    rewrite Eu. replace (m >? D) with false by (symmetry; rewrite Z.gtb_ltb; apply Z.ltb_ge; lia).
    assert (Eu2 : u32 (m + 1) = m + 1) by (unfold u32; apply Z.mod_small; lia).
    rewrite Eu2. apply IH; try lia.
    unfold improve. destruct (flt (cand_err (pow2 (- k)) 1 m) (delta bs)); [|exact Hp].
    cbn [delta]. apply cand_err_unit_pos; [assumption|lia].
Qed.

(** ** Rounding errors in the unit interval *)

Lemma bpow_m53 : (bpow (-53) * 9007199254740992 = 1)%R.
Proof.
  change 9007199254740992%R with (IZR (2 ^ 53)). rewrite <- bpow_IZR by lia.
  rewrite <- bpow_add. reflexivity.
Qed.

Lemma bpow_m52 : (bpow (-52) = 2 * bpow (-53))%R.
Proof.
  change (-52) with (1 + -53). rewrite bpow_add, bpow_1. reflexivity.
Qed.

Lemma bpow_m51 : (bpow (-51) = 4 * bpow (-53))%R.
Proof.
  change (-51) with (1 + (1 + -53)). rewrite !bpow_add, bpow_1. ring.
Qed.

(** The multiples of 2^-53 up to 1 are doubles. *)
Lemma representable_grid j : 0 < j <= 2 ^ 53 -> representable (F2R j (-53)).
Proof.
  intros Hj. destruct (Z.eq_dec j (2 ^ 53)) as [->|Hn].
  - destruct canonical_one as [C1 V1]. exists (2 ^ 52), (-52). split; [exact C1|].
    rewrite V1. symmetry. apply (F2R_pow2_compute _ (-53) 0); [reflexivity|lia].
  - apply representable_of; [lia|].
    pose proof (dig_lt_pow j 53 ltac:(lia) ltac:(lia) ltac:(lia)).
    rewrite fexp_eq. lia.
Qed.

(** A number of the unit interval is rounded, up or down, to a double
    at a distance of at most 2^-53. *)
Lemma round_unit x v :
  thresholds x v -> (0 <= x <= 1)%R -> (0 <= v)%R ->
  (x - bpow (-53) <= v <= x + bpow (-53))%R.
Proof.
  intros [Tlo Tup] Hx Hv.
  pose proof bpow_m53 as Hb. pose proof (bpow_gt_0 (-53)) as Hb0.
  remember (bpow (-53)) as b eqn:Eb.
  remember (x * 9007199254740992)%R as y eqn:Ey.
  assert (Exy : x = (y * b)%R) by (rewrite Ey, Rmult_assoc, (Rmult_comm _ b), Hb; ring).
  destruct (base_Int_part y) as [Hk1 Hk2]. remember (Int_part y) as k eqn:Ek.
  assert (Hy : (0 <= y <= 9007199254740992)%R) by lra.
  assert (Hk0 : 0 <= k).
  { assert (H : (IZR (-1) < IZR k)%R) by (change (IZR (-1)) with (-1)%R; lra).
    apply lt_IZR in H. lia. }
  assert (HkM : k <= 2 ^ 53).
  { apply le_IZR. change (IZR (2 ^ 53)) with 9007199254740992%R. lra. }
  split.
  - destruct (Z.eq_dec k 0) as [E0|Hn].
    + rewrite E0 in Hk2. assert (y * b < 1 * b)%R by (apply Rmult_lt_compat_r; lra). lra.
    + destruct (representable_grid k ltac:(lia)) as (t & et & Ct & Vt).
      assert (Hle : (F2R k (-53) <= x)%R).
      { unfold F2R. rewrite <- Eb, Exy. apply Rmult_le_compat_r; lra. }
      pose proof (Tlo t et Ct ltac:(rewrite Vt; exact Hle)) as H. rewrite Vt in H.
      unfold F2R in H. rewrite <- Eb in H.
      assert ((y - 1) * b < IZR k * b)%R by (apply Rmult_lt_compat_r; lra). lra.
  - destruct (Z.eq_dec k (2 ^ 53)) as [EM|Hn].
    + rewrite EM in Hk1. change (IZR (2 ^ 53)) with 9007199254740992%R in Hk1.
      destruct canonical_one as [C1 V1].
      pose proof (Tup _ _ C1 ltac:(rewrite V1; lra)) as H. rewrite V1 in H. lra.
    + destruct (representable_grid (k + 1) ltac:(lia)) as (t & et & Ct & Vt).
      assert (Hle : (x <= F2R (k + 1) (-53))%R).
      { unfold F2R. rewrite <- Eb, Exy, plus_IZR. apply Rmult_le_compat_r; lra. }
      pose proof (Tup t et Ct ltac:(rewrite Vt; exact Hle)) as H. rewrite Vt in H.
      unfold F2R in H. rewrite <- Eb, plus_IZR in H.
      assert (IZR k * b <= y * b)%R by (apply Rmult_le_compat_r; lra). lra.
Qed.

Lemma nn_unique x v1 v2 : nn x v1 -> nn x v2 -> v1 = v2.
Proof.
  intros [H1 L1] [H2 L2].
  destruct H1 as [[E1 ->]|[(m1 & e1 & E1 & _ & _ & ->)|[_ H1]]]; [| |lra];
  destruct H2 as [[E2 ->]|[(m2 & e2 & E2 & _ & _ & ->)|[_ H2]]]; try lra;
  rewrite E1 in E2; try discriminate.
  injection E2 as <- <-. reflexivity.
Qed.

Lemma small_exponent m0 e0 :
  canonical (Zpos m0) e0 -> (F2R (Zpos m0) e0 < 1)%R -> e0 <= 971.
Proof.
  intros Hc HF1. destruct (Z_le_gt_dec e0 971); [assumption|exfalso].
  pose proof (F2R_dig (Zpos m0) e0 ltac:(lia)) as [Hl _].
  pose proof (dig_pos (Zpos m0) ltac:(lia)).
  pose proof (bpow_le 0 (dig (Zpos m0) + e0 - 1) ltac:(lia)) as Hb.
  change (bpow 0) with 1%R in Hb. lra.
Qed.

(** ** The computed error and the exact error *)

(** For a fraction [hm/km] of the unit interval, the error the code
    computes is a finite double within 2^-52 of the exact error: the
    quotient and the difference are each rounded once. *)
Lemma cand_err_exact m0 e0 hm km :
  canonical (Zpos m0) e0 -> (F2R (Zpos m0) e0 < 1)%R ->
  0 <= hm <= km -> 0 < km < 2 ^ 32 ->
  exists v, nn (cand_err (S754_finite false m0 e0) hm km) v
    /\ (Rabs (IZR hm / IZR km - F2R (Zpos m0) e0) - bpow (-52) <= v
        <= Rabs (IZR hm / IZR km - F2R (Zpos m0) e0) + bpow (-52))%R.
Proof.
  intros Hc0 HF1 Hhm Hkm.
  pose proof (small_exponent m0 e0 Hc0 HF1) as He0.
  pose proof (F2R_pos (Zpos m0) e0 ltac:(lia)) as HF0.
  pose proof (bpow_gt_0 (-53)) as Hb0. pose proof bpow_m52 as Hb52.
  pose proof bpow_m53 as Hb53.
  set (F0 := F2R (Zpos m0) e0) in *.
  destruct (Z.eq_dec hm 0) as [->|Hh0].
  { exists F0. unfold cand_err.
    destruct (of_Z_u32 km ltac:(lia)) as (mk & ek & -> & _).
    split; [apply nn_finite; assumption|].
    unfold Rdiv. rewrite Rmult_0_l.
    replace (0 - F0)%R with (- F0)%R by ring. rewrite Rabs_Ropp, Rabs_pos_eq by lra. lra. }
  unfold cand_err.
  destruct (of_Z_u32 km ltac:(lia)) as (mk & ek & Ek & Ck & Hek & Vk).
  destruct (of_Z_u32 hm ltac:(lia)) as (mh & eh & Eh & Ch & Heh & Vh).
  rewrite Eh, Ek.
  destruct (fdiv_pos_spec mh eh mk ek Ch Ck) as (vq & Hq & Hlo & Hup).
  rewrite Vh, Vk in Hlo, Hup.
  assert (Hkpos : (0 < IZR km)%R) by (apply IZR_lt; lia).
  assert (Hhpos : (1 <= IZR hm)%R) by (apply IZR_le; lia).
  assert (Hhk : (IZR hm <= IZR km)%R) by (apply IZR_le; lia).
  set (q := (IZR hm / IZR km)%R) in *.
  assert (Hq01 : (0 < q <= 1)%R).
  { unfold q. split; [apply Rdiv_lt_0_compat; lra|].
    apply Rmult_le_reg_r with (IZR km); [assumption|].
    unfold Rdiv. rewrite Rmult_assoc, Rinv_l by lra. lra. }
  assert (Hqlo : (bpow (-32) <= vq)%R).
  { assert (CT : canonical (2 ^ 52) (-84)) by (apply canonical_compute; reflexivity).
    pose proof (Hlo _ _ CT) as H. rewrite (F2R_pow2_compute _ (-84) (-32)) in H by (reflexivity || lia).
    apply H. apply Rmult_le_reg_r with (IZR km); [assumption|].
    unfold q, Rdiv. rewrite Rmult_assoc, Rinv_l by lra.
    pose proof (bpow_add (-32) 32) as Hb. change (-32 + 32) with 0 in Hb. change (bpow 0) with 1%R in Hb.
    assert (IZR km <= bpow 32)%R by (rewrite bpow_IZR by lia; apply IZR_le; lia).
    pose proof (bpow_gt_0 (-32)). nra. }
  assert (Hqup : (vq <= 1)%R).
  { destruct canonical_one as [C1 V1]. rewrite <- V1. apply Hup; [assumption|]. rewrite V1. lra. }
  pose proof (bpow_gt_0 (-32)) as Hb32.
  pose proof (round_unit q vq (conj Hlo Hup) ltac:(lra) ltac:(lra)) as Hrq.
  destruct Hq as [[_ Ev]|[(mq & eq & Eq & Cq & Heq & Ev)|[_ Hinf]]];
    [lra| |pose proof (bpow_lt 0 1024 ltac:(lia)) as Hb; change (bpow 0) with 1%R in Hb; lra].
  fold fdiv. rewrite Eq. subst vq.
  pose proof (bpow_lt 2 1024 ltac:(lia)) as Hb2.
  assert (Eb2 : bpow 2 = 4%R) by (rewrite bpow_IZR by lia; reflexivity). rewrite Eb2 in Hb2.
  pose proof (fsub_pos_spec mq eq m0 e0) as Hs. cbv zeta in Hs. fold F0 in Hs.
  destruct Hs as [[Hd Er]|[[Hd (v & Hr & Ht)]|[Hd (v & Hr & Ht)]]].
  - rewrite Er. exists 0%R. split.
    + split; [left; split; reflexivity|lra].
    + unfold Rabs. destruct (Rcase_abs (q - F0)); lra.
  - exists v. pose proof (rounds_to_nonneg _ _ Hr) as Hv0.
    pose proof (round_unit _ v Ht ltac:(lra) Hv0) as Hrv.
    split; [split; [apply (rounds_to_fabs false); assumption|lra]|].
    unfold Rabs. destruct (Rcase_abs (q - F0)); lra.
  - exists v. pose proof (rounds_to_nonneg _ _ (rounds_to_fabs _ _ _ Hr)) as Hv0.
    pose proof (round_unit _ v Ht ltac:(lra) Hv0) as Hrv.
    split; [split; [apply (rounds_to_fabs true); assumption|lra]|].
    unfold Rabs. destruct (Rcase_abs (q - F0)); lra.
Qed.

(** ** The minimum over the candidates *)

(** In double precision: no candidate has a computed error below the
    one of the returned pair. *)
Lemma scan_minimum value D out0 :
  nonneg_finite value ->
  exists r,
    rational_approximation value D out0 = Some r
    /\ In (rb r, rc r) ((0, 1) :: scanned value D)
    /\ (forall c, In c (scanned value D) -> snd c <= D)
    /\ forall c, In c ((0, 1) :: scanned value D) ->
         flt (cand_err (fst (modf value)) (fst c) (snd c))
             (cand_err (fst (modf value)) (rb r) (rc r)) = false.
Proof.
  intros Hn.
  destruct (rational_approximation_total value D out0) as [r Er].
  exists r. split; [exact Er|].
  pose proof (modf_frac_class value Hn) as Hcl.
  unfold rational_approximation in Er. unfold scanned.
  destruct (modf value) as [f0 af]. cbn [fst] in *. cbn [rb rc ra] in Er.
  destruct (expand 100 f0 D _) as [bs|] eqn:E; [|discriminate]. injection Er as <-.
  cbn [rb rc].
  set (st0 := CF f0 1 0 0 1 (Best f0 0 1)) in *.
  assert (Hle : forall c, In c (expand_cands 100 f0 D st0) -> snd c <= D).
  { intros c Hin. apply (expand_cands_le f0 D 100 st0 c Hin). }
  destruct Hcl as [[s ->]|Hcl].
  - (* no fractional part: nothing is scanned *)
    unfold st0 in *. rewrite expand_zero in E. injection E as <-.
    assert (Ec : expand_cands 100 (S754_zero s) D
                   (CF (S754_zero s) 1 0 0 1 (Best (S754_zero s) 0 1)) = [])
      by (destruct s; reflexivity).
    rewrite Ec. cbn [best_b best_c]. split; [left; reflexivity|]. split; [intros c []|].
    intros c [<-|[]]. apply flt_irrefl.
  - pose proof (cand_err_default f0 Hcl) as Hdef.
    assert (Hnan : delta (cf_best st0) <> S754_nan).
    { simpl. destruct Hcl as [(m & e & ->)| ->]; discriminate. }
    apply expand_fold in E.
    destruct (improve_all_min f0 (expand_cands 100 f0 D st0) (cf_best st0) Hnan)
      as (Hall & Hmono & _ & Hsel).
    rewrite <- E in Hall, Hmono, Hsel. cbn [cf_best st0 delta] in Hmono.
    destruct Hsel as [Hsame|[Hin Hd]].
    + rewrite Hsame in *. cbn [cf_best st0 best_b best_c delta] in *.
      split; [left; reflexivity|]. split; [exact Hle|].
      rewrite Hdef. intros c [<-|Hin]; [cbn [fst snd]; rewrite Hdef; apply flt_irrefl|].
      apply Hall. exact Hin.
    + split; [right; exact Hin|]. split; [exact Hle|].
      rewrite <- Hd. intros c [<-|Hin']; [cbn [fst snd]; rewrite Hdef; exact Hmono|].
      apply Hall. exact Hin'.
Qed.

(** In exact arithmetic, for a fractional part that is a positive
    double: the error of the returned pair exceeds the error of a
    candidate by 2^-51 at most. *)
Lemma exact_minimum m0 e0 D bs :
  canonical (Zpos m0) e0 -> (F2R (Zpos m0) e0 < 1)%R -> 1 <= D ->
  let f0 := S754_finite false m0 e0 in
  expand 100 f0 D (CF f0 1 0 0 1 (Best f0 0 1)) = Some bs ->
  forall hm km,
    0 <= hm < 2 ^ 32 -> 0 < km < 2 ^ 32 ->
    flt (cand_err f0 hm km) (cand_err f0 (best_b bs) (best_c bs)) = false ->
    (Rabs (IZR (best_b bs) / IZR (best_c bs) - F2R (Zpos m0) e0)
     <= Rabs (IZR hm / IZR km - F2R (Zpos m0) e0) + bpow (-51))%R.
Proof.
  intros Hc HF1 HD f0 E hm km Hhm Hkm Hmin. subst f0.
  destruct (best_error m0 e0 D bs Hc HF1 HD E) as (Ed & vb & Hnb & Hb1 & Hb2).
  destruct (best_shape m0 e0 D bs Hc HF1 HD E) as (Hsh & Hcd).
  pose proof (expand_cands_le (S754_finite false m0 e0) D 100
                (CF (S754_finite false m0 e0) 1 0 0 1 (Best (S754_finite false m0 e0) 0 1)))
    as Hle.
  assert (Hrange : 0 <= best_b bs <= best_c bs /\ 0 < best_c bs < 2 ^ 32).
  { apply expand_fold in E. cbn [cf_best] in E.
    destruct (improve_all_min (S754_finite false m0 e0)
                (expand_cands 100 (S754_finite false m0 e0) D
                   (CF (S754_finite false m0 e0) 1 0 0 1 (Best (S754_finite false m0 e0) 0 1)))
                (Best (S754_finite false m0 e0) 0 1) ltac:(discriminate)) as (_ & _ & _ & Hsel).
    rewrite <- E in Hsel.
    destruct Hsel as [->|[Hin _]]; [cbn [best_b best_c]; lia|].
    apply Hle in Hin. cbn [fst snd] in Hin.
    destruct Hsh as [[-> ->]|[[-> ->]|Hlt]]; lia. }
  destruct (cand_err_exact m0 e0 (best_b bs) (best_c bs) Hc HF1 (proj1 Hrange) (proj2 Hrange))
    as (vr & Hnr & Hr).
  rewrite <- Ed in Hnr. pose proof (nn_unique _ _ _ Hnr Hnb) as Ev. subst vr.
  pose proof bpow_m52 as H52. pose proof bpow_m51 as H51. pose proof (bpow_gt_0 (-53)) as Hb0.
  destruct (Z_le_gt_dec hm km) as [Hle'|Hgt].
  - destruct (cand_err_exact m0 e0 hm km Hc HF1 ltac:(lia) Hkm) as (vc & Hnc & Hcx).
    rewrite <- Ed in Hmin.
    assert (Hcmp : (vb <= vc)%R).
    { destruct (Rle_lt_dec vb vc) as [H|H]; [exact H|].
      apply (flt_nn _ _ _ _ Hnc Hnb) in H. congruence. }
    lra.
  - assert (Hkpos : (0 < IZR km)%R) by (apply IZR_lt; lia).
    assert (Hq : (1 < IZR hm / IZR km)%R).
    { apply Rmult_lt_reg_r with (IZR km); [assumption|].
      unfold Rdiv. rewrite Rmult_assoc, Rinv_l by lra.
      assert (IZR km < IZR hm)%R by (apply IZR_lt; lia). lra. }
    rewrite (Rabs_pos_eq (IZR hm / IZR km - F2R (Zpos m0) e0)) by lra. lra.
Qed.

(** ** The first scenario in exact arithmetic *)

Lemma bpow_m23 : (bpow (-23) * 8388608 = 1)%R.
Proof.
  change 8388608%R with (IZR (2 ^ 23)). rewrite <- bpow_IZR by lia.
  rewrite <- bpow_add. reflexivity.
Qed.

(** The double below 600 MHz. *)
Lemma representable_below_floor : representable (600000000 - bpow (-23)).
Proof.
  replace (600000000 - bpow (-23))%R with (F2R (600000000 * 2 ^ 23 - 1) (-23)).
  - apply representable_of; [lia|]. apply Z.eq_le_incl. reflexivity.
  - unfold F2R. pose proof bpow_m23 as Hb.
    change (600000000 * 2 ^ 23 - 1) with 5033164799999999. lra.
Qed.

(** A product that is at most the double below [z] is below [z] after
    its rounding. *)
Lemma fmul_below mx ex c z T :
  canonical (Zpos mx) ex -> 0 < c < 2 ^ 32 -> 0 < z < 2 ^ 32 ->
  representable T -> (T < IZR z)%R ->
  (F2R (Zpos mx) ex * IZR c <= T)%R ->
  flt (fmul (S754_finite false mx ex) (of_Z c)) (of_Z z) = true.
Proof.
  intros Cx Hc Hz (t & et & Ct & Vt) HT H.
  destruct (of_Z_u32 c Hc) as (mc & ec & Ec & Cc & _ & Vc). rewrite Ec.
  destruct (fmul_spec false false mx ex mc ec Cx Cc) as (v & Hr & _ & Tup).
  rewrite Vc in Tup. cbn [xorb] in Hr.
  destruct (of_Z_u32 z Hz) as (mz & ez & Ez & Cz & Lz & Vz). rewrite Ez.
  assert (Hv : (v <= T)%R).
  { rewrite <- Vt. apply Tup; [assumption|]. rewrite Vt. assumption. }
  destruct (rounds_to_nn_or_inf _ _ Hr) as [Hn|Einf].
  - apply (flt_nn _ v _ (F2R (Zpos mz) ez) Hn (nn_finite mz ez Cz Lz)). rewrite Vz. lra.
  - exfalso. rewrite Einf in Hr.
    destruct Hr as [[Hr _]|[(? & ? & Hr & _)|[_ Hr]]]; try discriminate.
    pose proof (bpow_lt 32 1024 ltac:(lia)) as Hb. rewrite (bpow_IZR 32) in Hb by lia.
    assert (IZR z <= IZR (2 ^ 32))%R by (apply IZR_le; lia). lra.
Qed.

(** The exact VCO frequency of a divider that passed the test of the
    loop, and of one that did not. *)
Lemma vco_lower mx ex c :
  canonical (Zpos mx) ex -> 0 < c < 2 ^ 32 ->
  flt (fmul (S754_finite false mx ex) (of_Z c)) SI5351_MIN_VCO_FREQ = false ->
  (600000000 - bpow (-23) < IZR c * F2R (Zpos mx) ex)%R.
Proof.
  intros Cx Hc Hf.
  destruct (Rlt_le_dec (600000000 - bpow (-23)) (IZR c * F2R (Zpos mx) ex)) as [H|H];
    [exact H|exfalso].
  pose proof (bpow_gt_0 (-23)).
  change SI5351_MIN_VCO_FREQ with (of_Z 600000000) in Hf.
  assert (Ht : flt (fmul (S754_finite false mx ex) (of_Z c)) (of_Z 600000000) = true).
  { apply (fmul_below mx ex c 600000000 (600000000 - bpow (-23))); try assumption; try lia.
    - apply representable_below_floor.
    - lra.
    - lra. }
  congruence.
Qed.

Lemma vco_stop mx ex c :
  canonical (Zpos mx) ex -> 0 < c < 2 ^ 32 ->
  flt (fmul (S754_finite false mx ex) (of_Z c)) SI5351_MIN_VCO_FREQ = true ->
  (IZR c * F2R (Zpos mx) ex < 600000000)%R.
Proof.
  intros Cx Hc Hf.
  destruct (Rlt_le_dec (IZR c * F2R (Zpos mx) ex) 600000000) as [H|H]; [exact H|exfalso].
  change SI5351_MIN_VCO_FREQ with (of_Z 600000000) in Hf.
  assert (Ht : flt (fmul (S754_finite false mx ex) (of_Z c)) (of_Z 600000000) = false).
  { apply (fmul_ge mx ex c 600000000); try assumption; try lia. lra. }
  congruence.
Qed.

(** The events of the loop, divider by divider. *)
Lemma scenario_a_loop_visits junk_out e :
  forall fuel c evs n, 0 <= c < 2 ^ 32 ->
  scenario_a_loop junk_out fuel e c = Some evs ->
  candidates evs = descending c n ->
  Forall2 (visit junk_out e) (descending c n) evs.
Proof.
  induction fuel as [|fuel IH]; intros c evs n Hc H Hcs; [discriminate|].
  destruct (stops_a e c) eqn:Es.
  { simpl in H. rewrite Es in H. injection H as <-.
    destruct n; [constructor|]. rewrite descending_S in Hcs. discriminate. }
  destruct (scenario_a_turn _ _ _ _ _ H Es) as (rest & Hrest & Hcase).
  assert (H4 : 4 <= c).
  { unfold stops_a in Es. apply orb_false_iff in Es. destruct Es as [Es _].
    apply Z.ltb_ge in Es. exact Es. }
  assert (Eu : u32 (c - 2) = c - 2) by (unfold u32; apply Z.mod_small; lia).
  rewrite Eu in Hrest.
  assert (Hev : exists ev, evs = ev :: rest /\ visit junk_out e c ev /\ candidate_of ev = [c]).
  { destruct Hcase as [[Hob ->]|(Hob & ev & Hp & ->)].
    - eexists. split; [reflexivity|].
      split; [unfold visit, rejects_a; rewrite Hob; reflexivity|reflexivity].
    - exists ev. split; [reflexivity|].
      split; [unfold visit, rejects_a; rewrite Hob; exact Hp|].
      destruct (plan_a_total junk_out e c) as (ev' & Hp' & Hc'). congruence. }
  destruct Hev as (ev & -> & Hvis & Hcand).
  unfold candidates in Hcs. cbn [flat_map] in Hcs. rewrite Hcand in Hcs.
  destruct n as [|n]; [discriminate|]. rewrite descending_S in Hcs |- *.
  injection Hcs as Hcs.
  constructor; [exact Hvis|]. apply (IH (c - 2) rest n); [lia|exact Hrest|exact Hcs].
Qed.

(** The first divider passes the test of the loop. *)
Lemma first_divider_passes e m em t :
  r_clk0 e = S754_finite false m em -> canonical (Zpos m) em ->
  4 <= initial_output_ms e -> 0 <= t <= 1000 ->
  initial_output_ms e = t - t mod 2 ->
  (1000000000 < (IZR t + 1) * F2R (Zpos m) em)%R ->
  flt (f_vco_a e (initial_output_ms e)) SI5351_MIN_VCO_FREQ = false.
Proof.
  intros Er C Hc0 Ht Ei Hup.
  pose proof (Z.mod_pos_bound t 2 ltac:(lia)) as Hm.
  set (c0 := initial_output_ms e) in *.
  unfold f_vco_a. rewrite Er. apply fmul_ge; [assumption|lia|lia|].
  assert (Hle : (IZR t + 1 <= IZR c0 + 2)%R).
  { rewrite <- (plus_IZR t 1), <- (plus_IZR c0 2). apply IZR_le. lia. }
  assert (H4 : (4 <= IZR c0)%R) by (apply IZR_le; lia).
  pose proof (F2R_pos (Zpos m) em ltac:(lia)).
  destruct (Rle_lt_dec (F2R (Zpos m) em) 200000000); nra.
Qed.

(** * The claims *)

(** C1 as stated fails: for 24.999995 and the denominator bound of the
    chip the call returns [(24, 1, 1)], where [b = c]. *)
Lemma shape_counterexample :
  let value := fdiv (of_Z 24999995) (of_Z 1000000) in
  valid value /\ nonneg_finite value /\ 1 <= SI5351_MAX_DENOMINATOR
  /\ exists r,
       rational_approximation value SI5351_MAX_DENOMINATOR (Ratio 0 0 0) = Some r
       /\ ~ ((rb r = 0 /\ rc r = 1) \/ 0 < rb r < rc r).
Proof.
  split; [vm_compute; reflexivity|]. split; [vm_compute; reflexivity|].
  split; [vm_compute; discriminate|].
  exists (Ratio 24 1 1). split; [vm_compute; reflexivity|].
  simpl. intros [[H _]|H]; lia.
Qed.

(** C1, amended.  For every finite [value >= 0] and every bound
    [D >= 1], [rational_approximation] returns, and it returns a triple
    [(a, b, c)] with [1 <= c <= D] and either [b = 0] and [c = 1], or
    [b = 1] and [c = 1], or [0 < b < c].  The second case is the
    semiconvergent 1/1, the first candidate for a fractional part above
    1/2: the scan keeps it when no later candidate improves on it,
    because the expansion stops after its first step or because [D]
    leaves no other candidate. *)
Theorem ratio_shape value D out0 :
  valid value -> nonneg_finite value -> 1 <= D ->
  exists r, rational_approximation value D out0 = Some r
    /\ 1 <= rc r <= D
    /\ ((rb r = 0 /\ rc r = 1) \/ (rb r = 1 /\ rc r = 1) \/ 0 < rb r < rc r).
Proof.
  intros Hv Hn HD.
  destruct (rational_approximation_total value D out0) as [r Er].
  exists r. split; [exact Er|].
  unfold rational_approximation in Er.
  destruct value as [s|s| |s m e]; try contradiction.
  - cbn [modf rb rc ra] in Er. rewrite expand_zero in Er. injection Er as <-. simpl.
    split; [lia|]. left; split; reflexivity.
  - simpl in Hn. subst s. apply valid_finite in Hv. destruct Hv as [Hc He].
    pose proof (modf_frac_pos m e Hc) as Hf. cbv zeta in Hf.
    destruct (modf (S754_finite false m e)) as [f0 af]. cbn [fst] in Hf. cbn [rb rc ra] in Er.
    destruct Hf as [->|(m0 & e0 & -> & Hc0 & HF1)].
    + rewrite expand_zero in Er. injection Er as <-. simpl.
      split; [lia|]. left; split; reflexivity.
    + destruct (expand 100 _ D _) as [bs|] eqn:Eb; [|discriminate]. injection Er as <-.
      cbn [rb rc]. apply (best_shape m0 e0 D bs Hc0 HF1 HD) in Eb. tauto.
Qed.

(** The amended C1 at 24.999995. *)
Lemma ratio_shape_witness :
  exists r,
    rational_approximation (fdiv (of_Z 24999995) (of_Z 1000000))
      SI5351_MAX_DENOMINATOR (Ratio 0 0 0) = Some r
    /\ 1 <= rc r <= SI5351_MAX_DENOMINATOR
    /\ ((rb r = 0 /\ rc r = 1) \/ (rb r = 1 /\ rc r = 1) \/ 0 < rb r < rc r).
Proof.
  apply ratio_shape; [vm_compute; reflexivity|vm_compute; reflexivity|vm_compute; discriminate].
Defined.

(** C2 as stated fails in exact arithmetic: for the double
    0.16227766016837953 and the denominator bound of the chip, the scan
    reaches 168717/1039681, whose error [|b/c - f0|] is strictly below
    the one of the returned 53353/328776.  The two errors round to the
    same double, and the scan keeps the earlier candidate. *)
Lemma best_minimizes_counterexample :
  valid tie_value /\ nonneg_finite tie_value /\ 1 <= SI5351_MAX_DENOMINATOR
  /\ rational_approximation tie_value SI5351_MAX_DENOMINATOR (Ratio 0 0 0)
     = Some (Ratio 0 53353 328776)
  /\ In (168717, 1039681) (scanned tie_value SI5351_MAX_DENOMINATOR)
  /\ 1039681 <= SI5351_MAX_DENOMINATOR
  /\ cand_err (fst (modf tie_value)) 168717 1039681
     = cand_err (fst (modf tie_value)) 53353 328776
  /\ (exact_err tie_value 168717 1039681 < exact_err tie_value 53353 328776)%R.
Proof.
  split; [vm_compute; reflexivity|]. split; [vm_compute; reflexivity|].
  split; [vm_compute; discriminate|]. split; [vm_compute; reflexivity|].
  split; [vm_compute; do 28 right; left; reflexivity|].
  split; [vm_compute; discriminate|]. split; [vm_compute; reflexivity|].
  unfold exact_err.
  change (fst (modf tie_value)) with tie_value. unfold tie_value. rewrite B2R_pos.
  unfold F2R.
  assert (Hb : (bpow (-55) * 36028797018963968 = 1)%R).
  { change 36028797018963968%R with (IZR (2 ^ 55)). rewrite <- bpow_IZR by lia.
    rewrite <- bpow_add. reflexivity. }
  unfold Rabs.
  destruct (Rcase_abs (168717 / 1039681 - 5846668878918953 * bpow (-55)));
    destruct (Rcase_abs (53353 / 328776 - 5846668878918953 * bpow (-55))); lra.
Qed.

(** C2, amended.  For every finite [value >= 0] and every bound
    [D >= 1], the pair [(b, c)] that [rational_approximation] returns
    is one of the candidates: the default [(0, 1)] or a pair the scan
    reached, all of them with a denominator of at most [D].  Its error
    is minimal as the code computes it: for no candidate is
    [fabs(b'/c' - f0)], in double precision, below the one of [(b, c)].
    In exact arithmetic it is minimal up to the rounding of the code:
    [|b/c - f0|] exceeds [|b'/c' - f0|] by 2^-51 at most, for every
    candidate [(b', c')] with a denominator that is not zero. *)
Theorem best_minimizes value D out0 :
  valid value -> nonneg_finite value -> 1 <= D ->
  exists r,
    rational_approximation value D out0 = Some r
    /\ In (rb r, rc r) ((0, 1) :: scanned value D)
    /\ (forall c, In c (scanned value D) -> snd c <= D)
    /\ (forall c, In c ((0, 1) :: scanned value D) ->
          flt (cand_err (fst (modf value)) (fst c) (snd c))
              (cand_err (fst (modf value)) (rb r) (rc r)) = false)
    /\ (forall c, In c ((0, 1) :: scanned value D) -> 0 < snd c ->
          (exact_err value (rb r) (rc r)
           <= exact_err value (fst c) (snd c) + bpow (-51))%R).
Proof.
  intros Hv Hn HD.
  destruct (scan_minimum value D out0 Hn) as (r & Er & Hin & Hle & Hmin).
  exists r. split; [exact Er|]. split; [exact Hin|]. split; [exact Hle|].
  split; [exact Hmin|].
  intros c Hc Hpos. unfold exact_err.
  pose proof (bpow_gt_0 (-51)) as Hb.
  assert (Hz : forall s af,
             modf value = (S754_zero s, af) ->
             (Rabs (IZR (rb r) / IZR (rc r) - B2R (fst (modf value)))
              <= Rabs (IZR (fst c) / IZR (snd c) - B2R (fst (modf value))) + bpow (-51))%R).
  { intros s af Em. unfold rational_approximation in Er. unfold scanned in Hc.
    rewrite Em in *. cbn [fst] in *. rewrite expand_zero in Er. injection Er as <-.
    assert (Ec : expand_cands 100 (S754_zero s) D
                   (CF (S754_zero s) 1 0 0 1 (Best (S754_zero s) 0 1)) = [])
      by (destruct s; reflexivity).
    rewrite Ec in Hc. destruct Hc as [<-|[]]. cbn [rb rc fst snd]. lra. }
  destruct value as [s|s| |s m e]; try contradiction.
  - apply (Hz s (S754_zero s)). reflexivity.
  - simpl in Hn. subst s. apply valid_finite in Hv. destruct Hv as [Hcm He].
    pose proof (modf_frac_pos m e Hcm) as Hf. cbv zeta in Hf.
    destruct (modf (S754_finite false m e)) as [f0 af] eqn:Em. cbn [fst] in Hf.
    destruct Hf as [->|(m0 & e0 & -> & Hc0 & HF1)]; [apply (Hz false af); reflexivity|].
    clear Hz. unfold rational_approximation in Er. unfold scanned in Hc, Hmin.
    rewrite Em in Er. cbn [fst] in *. cbn [ra rb rc] in Er.
    destruct (expand 100 _ D _) as [bs|] eqn:E; [|discriminate]. injection Er as <-.
    cbn [rb rc] in *. rewrite B2R_pos.
    assert (Hr : 0 <= fst c < 2 ^ 32 /\ 0 <= snd c < 2 ^ 32).
    { destruct Hc as [<-|Hc]; [cbn [fst snd]; lia|].
      apply expand_cands_le in Hc. split; apply Hc. }
    apply (exact_minimum m0 e0 D bs Hc0 HF1 HD E); [apply Hr|lia|].
    apply Hmin. exact Hc.
Qed.

(** The amended C2 at 24.2: of the candidates 0/1, 1/3, 1/4 and 1/5,
    the last is returned. *)
Lemma best_minimizes_witness :
  exists r,
    rational_approximation (fdiv (of_Z 242) (of_Z 10)) SI5351_MAX_DENOMINATOR
      (Ratio 0 0 0) = Some r
    /\ In (rb r, rc r)
         ((0, 1) :: scanned (fdiv (of_Z 242) (of_Z 10)) SI5351_MAX_DENOMINATOR)
    /\ (forall c, In c (scanned (fdiv (of_Z 242) (of_Z 10)) SI5351_MAX_DENOMINATOR)
                  -> snd c <= SI5351_MAX_DENOMINATOR)
    /\ (forall c,
          In c ((0, 1) :: scanned (fdiv (of_Z 242) (of_Z 10)) SI5351_MAX_DENOMINATOR) ->
          flt (cand_err (fst (modf (fdiv (of_Z 242) (of_Z 10)))) (fst c) (snd c))
              (cand_err (fst (modf (fdiv (of_Z 242) (of_Z 10)))) (rb r) (rc r)) = false)
    /\ (forall c,
          In c ((0, 1) :: scanned (fdiv (of_Z 242) (of_Z 10)) SI5351_MAX_DENOMINATOR) ->
          0 < snd c ->
          (exact_err (fdiv (of_Z 242) (of_Z 10)) (rb r) (rc r)
           <= exact_err (fdiv (of_Z 242) (of_Z 10)) (fst c) (snd c) + bpow (-51))%R).
Proof.
  apply best_minimizes.
  - vm_compute. reflexivity.
  - vm_compute. reflexivity.
  - vm_compute. discriminate.
Defined.

(** C3 as stated fails in exact arithmetic, and for the dividers that
    are rejected.  For a reference of 25 MHz and the clock
    55 555 555.555555560 Hz, the quotient 1 GHz / clock lies between 17
    and 18, so that its floor rounded down to even is 16, and the first
    divider of the code is 18: the quotient is rounded to 18 before it
    is truncated.  For the clock 14 285 714.285714285 Hz, the run
    prints a plan for the divider 42, whose VCO frequency 42 * clock
    is below 600 MHz: the product is rounded to 600 MHz before it is
    compared.  For a reference and a clock of 10 MHz, the first
    divider, 100, gets no plan but a rejection, for its feedback ratio
    of 100, although its VCO frequency of 1 GHz is not below the
    floor. *)
Lemma scenario_a_candidates_counterexample :
  (setup (fun _ => S754_nan) [of_Z 25000000; clk_18th] = ([], inr env_25_18th)
   /\ valid clk_18th
   /\ initial_output_ms env_25_18th = 18
   /\ (17 * B2R (r_clk0 env_25_18th) < 1000000000 < 18 * B2R (r_clk0 env_25_18th))%R)
  /\ (setup (fun _ => S754_nan) [of_Z 25000000; clk_42nd] = ([], inr env_25_42nd)
      /\ valid clk_42nd
      /\ In (42, feedback_ms_a env_25_42nd 42)
            (plan_feedbacks (fst (scenario_a (Ratio 0 0 0) env_25_42nd)))
      /\ (42 * B2R (r_clk0 env_25_42nd) < 600000000)%R)
  /\ (setup (fun _ => S754_nan) [of_Z 10000000; of_Z 10000000] = ([], inr env_10_10)
      /\ initial_output_ms env_10_10 = 100
      /\ In (100, feedback_ms_a env_10_10 100)
            (rejected_feedbacks (fst (scenario_a (Ratio 0 0 0) env_10_10)))
      /\ ~ In 100 (map fst (plan_feedbacks (fst (scenario_a (Ratio 0 0 0) env_10_10))))
      /\ fle SI5351_MIN_VCO_FREQ (f_vco_a env_10_10 100) = true
      /\ (100 * B2R (r_clk0 env_10_10) = 1000000000)%R).
Proof.
  assert (Hb27 : (bpow (-27) * 134217728 = 1)%R).
  { change 134217728%R with (IZR (2 ^ 27)). rewrite <- bpow_IZR by lia.
    rewrite <- bpow_add. reflexivity. }
  assert (Hb29 : (bpow (-29) * 536870912 = 1)%R).
  { change 536870912%R with (IZR (2 ^ 29)). rewrite <- bpow_IZR by lia.
    rewrite <- bpow_add. reflexivity. }
  split; [|split].
  - split; [vm_compute; reflexivity|]. split; [vm_compute; reflexivity|].
    split; [vm_compute; reflexivity|].
    change (r_clk0 env_25_18th) with (S754_finite false 7456540444444445 (-27)).
    rewrite B2R_pos. unfold F2R. lra.
  - split; [vm_compute; reflexivity|]. split; [vm_compute; reflexivity|].
    split; [vm_compute; do 14 right; left; reflexivity|].
    change (r_clk0 env_25_42nd) with (S754_finite false 7669584457142857 (-29)).
    rewrite B2R_pos. unfold F2R. lra.
  - split; [vm_compute; reflexivity|]. split; [vm_compute; reflexivity|].
    split; [vm_compute; left; reflexivity|].
    split; [vm_compute; intuition discriminate|].
    split; [vm_compute; reflexivity|].
    destruct (of_Z_u32 10000000 ltac:(lia)) as (m & em & E & _ & _ & V).
    change (r_clk0 env_10_10) with (of_Z 10000000). rewrite E, B2R_pos, V. lra.
Qed.

(** C3, amended.  In a run that reaches the first scenario, with a
    primary clock that is a double and an initial output divider within
    4..900, the pre-divided clock [R] is a finite number of at least
    1 MHz.  The initial divider is [t] rounded down to even, where [t]
    is the truncation of the rounded quotient 1 GHz / [R]: the floor of
    the exact quotient, or one more when the exact quotient is less
    than 2^-43 below the integer [t].  The loop ends; it goes through
    at least one divider; its dividers are [c0], [c0 - 2], ... in this
    order; and it writes one event for each of them: a rejection when
    the feedback ratio of the divider is outside 15..90, a plan
    otherwise.  Each of these dividers is even, lies within 4..900 and
    has a VCO frequency of at least 600 MHz as the code computes it,
    and above 600 MHz - 2^-23 Hz in exact arithmetic.  The divider on
    which the loop ends has a VCO frequency below 600 MHz, as the code
    computes it and in exact arithmetic. *)
Theorem scenario_a_candidates junk_clks junk_out argv out e :
  setup junk_clks argv = (out, inr e) -> valid (clks e 0%nat) ->
  4 <= initial_output_ms e <= 900 ->
  is_finite (r_clk0 e) = true /\ (1000000 <= B2R (r_clk0 e))%R
  /\ (exists t, trunc (fdiv SI5351_MAX_VCO_FREQ (r_clk0 e)) = Some t
        /\ initial_output_ms e = t - t mod 2
        /\ ((IZR t - bpow (-43)) * B2R (r_clk0 e) < 1000000000
            < (IZR t + 1) * B2R (r_clk0 e))%R)
  /\ exists evs n,
       scenario_a junk_out e = (evs, None)
       /\ (1 <= n)%nat
       /\ candidates evs = descending (initial_output_ms e) n
       /\ Forall2 (visit junk_out e) (descending (initial_output_ms e) n) evs
       /\ (forall c, In c (descending (initial_output_ms e) n) ->
             Z.even c = true /\ 4 <= c <= 900
             /\ fle SI5351_MIN_VCO_FREQ (f_vco_a e c) = true
             /\ (600000000 - bpow (-23) < IZR c * B2R (r_clk0 e))%R)
       /\ flt (f_vco_a e (initial_output_ms e - 2 * Z.of_nat n))
              SI5351_MIN_VCO_FREQ = true
       /\ (IZR (initial_output_ms e - 2 * Z.of_nat n) * B2R (r_clk0 e)
           < 600000000)%R.
Proof.
  intros Hs Hv Hc0. destruct (setup_clock _ _ _ _ Hs) as [Hr Hlt].
  pose proof (rdiv_loop_valid _ _ _ _ _ Hv Hr) as Hvr.
  destruct (scenario_a_clock (r_clk0 e) Hvr Hlt ltac:(apply Hc0))
    as (m & ex & Er & Hc & HR & t & Et & Ht & Eu).
  assert (H6 : (1000000 <= F2R (Zpos m) ex)%R).
  { rewrite Er in Hlt, Hvr. rewrite <- B2R_pos.
    apply (flt_of_Z_r_false _ 1000000 Hvr eq_refl); [lia|exact Hlt]. }
  destruct max_vco_eq as (mM & eM & EM & CM & VM).
  assert (Hup : (1000000000 < (IZR t + 1) * F2R (Zpos m) ex)%R).
  { rewrite <- (plus_IZR t 1), <- Eu, EM, Er, <- VM.
    apply (fdiv_floor_upper mM eM m ex 1000); try assumption.
    - apply (representable_Z 1000). lia.
    - apply IZR_lt. lia.
    - rewrite VM. lra. }
  assert (Hlo : ((IZR t - bpow (-43)) * F2R (Zpos m) ex < 1000000000)%R).
  { rewrite <- Eu, EM, Er, <- VM.
    apply (fdiv_floor_lower mM eM m ex 1000); try assumption.
    - apply (representable_Z 1000). lia.
    - apply IZR_lt. lia.
    - rewrite VM. lra.
    - cbv zeta. rewrite <- EM, <- Er, Eu. lia. }
  destruct (even_part t ltac:(lia)) as (Eu2 & Evt & Hb2).
  assert (Ei : initial_output_ms e = t - t mod 2).
  { unfold initial_output_ms. rewrite Eu. exact Eu2. }
  pose proof (first_divider_passes e m ex t Er Hc ltac:(lia) ltac:(lia) Ei Hup) as Hfirst.
  set (c0 := initial_output_ms e) in *.
  assert (Hev : Z.even c0 = true) by (rewrite Ei; exact Evt).
  assert (EB : B2R (r_clk0 e) = F2R (Zpos m) ex) by (rewrite Er; apply B2R_pos).
  rewrite !EB. clear EB.
  split; [rewrite Er; reflexivity|]. split; [exact H6|].
  split.
  { exists t. split; [exact Et|]. split; [exact Ei|]. split; assumption. }
  destruct (scenario_a_loop_run junk_out e (loop_fuel c0) c0 ltac:(lia)
              ltac:(unfold loop_fuel; lia)) as (evs & n & El & Hcs & Hvis & Hstop).
  exists evs, n. unfold scenario_a. fold c0.
  replace (c0 <? 4) with false by (symmetry; apply Z.ltb_ge; lia).
  replace (900 <? c0) with false by (symmetry; apply Z.ltb_ge; lia).
  cbn [orb]. rewrite El. split; [reflexivity|].
  assert (Hn : (1 <= n)%nat).
  { destruct n as [|n]; [exfalso|lia]. rewrite Z.sub_0_r in Hstop.
    unfold stops_a in Hstop. rewrite Hfirst in Hstop.
    replace (c0 <? 4) with false in Hstop by (symmetry; apply Z.ltb_ge; lia).
    discriminate. }
  split; [exact Hn|]. split; [exact Hcs|].
  split; [apply (scenario_a_loop_visits junk_out e (loop_fuel c0)); [lia|exact El|exact Hcs]|].
  split.
  - intros c Hin. destruct (in_descending _ _ _ Hin) as (i & Hi & ->).
    specialize (Hvis i Hi). unfold stops_a in Hvis. apply orb_false_iff in Hvis.
    destruct Hvis as [H4 Hf]. apply Z.ltb_ge in H4.
    split; [rewrite Z.even_sub, Hev, Z.even_mul; reflexivity|]. split; [lia|].
    unfold f_vco_a in *. rewrite Er in *. split.
    + apply fle_of_not_flt; [|apply min_vco_not_nan|exact Hf].
      apply fmul_pos_not_nan; [assumption|lia].
    + apply vco_lower; [assumption|lia|exact Hf].
  - assert (Hs2 : 2 <= c0 - 2 * Z.of_nat n).
    { destruct n as [|n]; [lia|]. specialize (Hvis n ltac:(lia)).
      unfold stops_a in Hvis. apply orb_false_iff in Hvis.
      destruct Hvis as [H4 _]. apply Z.ltb_ge in H4. lia. }
    assert (Hflt : flt (f_vco_a e (c0 - 2 * Z.of_nat n)) SI5351_MIN_VCO_FREQ = true).
    { unfold stops_a in Hstop. apply orb_true_iff in Hstop.
      destruct Hstop as [Hlt4|Hf]; [|exact Hf]. apply Z.ltb_lt in Hlt4.
      assert (Hodd : Z.even (c0 - 2 * Z.of_nat n) = true).
      { rewrite Z.even_sub, Hev, Z.even_mul. reflexivity. }
      set (s := c0 - 2 * Z.of_nat n) in *.
      assert (s = 2 \/ s = 3) as [->| ->] by lia; [|discriminate].
      unfold f_vco_a. rewrite Er. apply f_vco_at_2; assumption. }
    split; [exact Hflt|].
    unfold f_vco_a in Hflt. rewrite Er in Hflt. apply vco_stop; [assumption|lia|exact Hflt].
Qed.

(** The amended C3 for a reference of 25 MHz and a clock of 14.2 MHz:
    the initial divider is 70. *)
Lemma scenario_a_candidates_witness :
  initial_output_ms env_25_14 = 70
  /\ is_finite (r_clk0 env_25_14) = true /\ (1000000 <= B2R (r_clk0 env_25_14))%R
  /\ (exists t, trunc (fdiv SI5351_MAX_VCO_FREQ (r_clk0 env_25_14)) = Some t
        /\ initial_output_ms env_25_14 = t - t mod 2
        /\ ((IZR t - bpow (-43)) * B2R (r_clk0 env_25_14) < 1000000000
            < (IZR t + 1) * B2R (r_clk0 env_25_14))%R)
  /\ exists evs n,
       scenario_a (Ratio 0 0 0) env_25_14 = (evs, None)
       /\ (1 <= n)%nat
       /\ candidates evs = descending (initial_output_ms env_25_14) n
       /\ Forall2 (visit (Ratio 0 0 0) env_25_14)
            (descending (initial_output_ms env_25_14) n) evs
       /\ (forall c, In c (descending (initial_output_ms env_25_14) n) ->
             Z.even c = true /\ 4 <= c <= 900
             /\ fle SI5351_MIN_VCO_FREQ (f_vco_a env_25_14 c) = true
             /\ (600000000 - bpow (-23) < IZR c * B2R (r_clk0 env_25_14))%R)
       /\ flt (f_vco_a env_25_14 (initial_output_ms env_25_14 - 2 * Z.of_nat n))
              SI5351_MIN_VCO_FREQ = true
       /\ (IZR (initial_output_ms env_25_14 - 2 * Z.of_nat n) * B2R (r_clk0 env_25_14)
           < 600000000)%R.
Proof.
  split; [vm_compute; reflexivity|].
  apply (scenario_a_candidates (fun _ => S754_nan) (Ratio 0 0 0)
           [of_Z 25000000; of_Z 14200000] [] env_25_14).
  - vm_compute. reflexivity.
  - vm_compute. reflexivity.
  - vm_compute. split; discriminate.
Defined.

(** C4 as stated fails: for a reference of 40 MHz and a clock of 10 MHz
    the output divider 62 asks for a feedback ratio of 15.5, below 16,
    and the run prints a plan for it. *)
Lemma feedback_band_counterexample :
  setup (fun _ => S754_nan) [of_Z 40000000; of_Z 10000000] = ([], inr env_40_10)
  /\ In (62, feedback_ms_a env_40_10 62)
        (plan_feedbacks
           (fst (main (fun _ => S754_nan) (Ratio 0 0 0)
                   [of_Z 40000000; of_Z 10000000])))
  /\ flt (feedback_ms_a env_40_10 62) (of_Z 16) = true.
Proof.
  split; [vm_compute; reflexivity|]. split; [|vm_compute; reflexivity].
  vm_compute. do 19 right. left. reflexivity.
Qed.

(** C4, amended.  In the first scenario, a candidate that the loop goes
    through is rejected, with its diagnostic, exactly when the feedback
    ratio is below 15 or above 90, and in both cases the loop goes on
    with the candidate less 2; no plan has a feedback ratio below 15 or
    above 90. *)
Theorem feedback_band junk_out e fuel c evs :
  scenario_a_loop junk_out (S fuel) e c = Some evs ->
  (stops_a e c = false ->
   exists rest,
     scenario_a_loop junk_out fuel e (u32 (c - 2)) = Some rest
     /\ ((out_of_band (feedback_ms_a e c) = true
          /\ evs = RejectedFeedback (feedback_ms_a e c) c (f_vco_a e c) :: rest)
         \/ (out_of_band (feedback_ms_a e c) = false
             /\ exists ev, plan_a junk_out e c = Some ev /\ evs = ev :: rest)))
  /\ (forall o fb, In (o, fb) (plan_feedbacks evs) ->
        fb = feedback_ms_a e o
        /\ flt fb (of_Z 15) = false /\ flt (of_Z 90) fb = false).
Proof.
  intros H. split.
  - intros Hs. apply scenario_a_turn; assumption.
  - intros o fb Hin. destruct (scenario_a_band junk_out e _ _ _ H) as [Hp _].
    destruct (Hp o fb Hin) as [E Hb]. split; [exact E|].
    unfold out_of_band in Hb. apply orb_false_iff in Hb. exact Hb.
Qed.

(** The amended C4 at the divider 62 of the run above. *)
Lemma feedback_band_witness :
  exists evs,
    scenario_a_loop (Ratio 0 0 0) 32 env_40_10 62 = Some evs
    /\ (stops_a env_40_10 62 = false ->
        exists rest,
          scenario_a_loop (Ratio 0 0 0) 31 env_40_10 (u32 (62 - 2)) = Some rest
          /\ ((out_of_band (feedback_ms_a env_40_10 62) = true
               /\ evs = RejectedFeedback (feedback_ms_a env_40_10 62) 62
                          (f_vco_a env_40_10 62) :: rest)
              \/ (out_of_band (feedback_ms_a env_40_10 62) = false
                  /\ exists ev, plan_a (Ratio 0 0 0) env_40_10 62 = Some ev
                                /\ evs = ev :: rest)))
    /\ (forall o fb, In (o, fb) (plan_feedbacks evs) ->
          fb = feedback_ms_a env_40_10 o
          /\ flt fb (of_Z 15) = false /\ flt (of_Z 90) fb = false).
Proof.
  eexists. split; [vm_compute; reflexivity|].
  apply (feedback_band (Ratio 0 0 0) env_40_10 31 62). vm_compute. reflexivity.
Defined.

(** C5 fails on the code: a clock of 5000 Hz is still below 1 MHz after
    7 doublings (640 kHz), and the loop doubles it an eighth time; the
    run goes on with an R-divider exponent of 8. *)
Theorem eighth_doubling :
  rdiv_loop 9 (of_Z 5000) 0 = Some (of_Z 1280000, 8)
  /\ flt (of_Z (5000 * 2 ^ 7)) (of_Z 1000000) = true
  /\ exists e,
       setup (fun _ => S754_nan) [of_Z 25000000; of_Z 5000] = ([], inr e)
       /\ rdiv e = 8 /\ r_clk0 e = of_Z 1280000.
Proof.
  split; [vm_compute; reflexivity|]. split; [vm_compute; reflexivity|].
  eexists. split; [vm_compute; reflexivity|]. split; reflexivity.
Qed.

(** C6.  For every [value] and every bound [D],
    [rational_approximation] returns a ratio: the outer loop makes
    [n <= 100] passes, each of them with an inner scan that ends, and
    the result is read off the state after these passes. *)
Theorem approximation_terminates value D out0 :
  exists r n st,
    rational_approximation value D out0 = Some r
    /\ (n <= 100)%nat
    /\ steps n (fst (modf value)) D
         (CF (fst (modf value)) 1 0 0 1 (Best (fst (modf value)) 0 1)) = Some st
    /\ r = Ratio (to_uint32 (snd (modf value))) (best_b (cf_best st))
             (best_c (cf_best st)).
Proof.
  destruct (rational_approximation_total value D out0) as [r Er].
  exists r. pose proof Er as Er'. unfold rational_approximation in Er'.
  destruct (modf value) as [f0 af]. cbn [rb rc ra] in Er'. cbn [fst snd].
  destruct (expand 100 f0 D _) as [bs|] eqn:E; [|discriminate]. injection Er' as <-.
  destruct (expand_steps f0 D 100 _ bs E) as (n & st & Hn & Hs & Hb & _).
  exists n, st.
  split; [exact Er|]. split; [exact Hn|]. split; [exact Hs|]. rewrite Hb. reflexivity.
Qed.




(** C9.  When the fractional part of [value] is positive and at most
    [epsilon], the call returns [b = 0] and [c = 1], whatever the bound
    [D]. *)
Theorem small_fraction_dropped value D out0 :
  flt (S754_zero false) (fst (modf value)) = true ->
  fle (fst (modf value)) epsilon = true ->
  rational_approximation value D out0
  = Some (Ratio (to_uint32 (snd (modf value))) 0 1).
Proof.
  intros _ Hle. unfold rational_approximation. destruct (modf value) as [f0 af].
  cbn [fst snd rb rc ra] in *. change (expand 100) with (expand (S 99)).
  cbn [expand cf_f cf_best]. rewrite Hle. reflexivity.
Qed.

(** C9 at 2^-17, which the fraction 1/131072 is, with a denominator
    within the bound of the chip. *)
Lemma small_fraction_dropped_witness :
  let value := fdiv (of_Z 1) (of_Z 131072) in
  rational_approximation value SI5351_MAX_DENOMINATOR (Ratio 0 0 0)
  = Some (Ratio (to_uint32 (snd (modf value))) 0 1)
  /\ 131072 <= SI5351_MAX_DENOMINATOR
  /\ cand_err (fst (modf value)) 1 131072 = S754_zero false.
Proof.
  split; [|split].
  - apply small_fraction_dropped; vm_compute; reflexivity.
  - vm_compute. discriminate.
  - vm_compute. reflexivity.
Defined.

(** C10.  The run fails for too many arguments exactly when more than
    4 numbers are given.  With the reference alone, it is refused
    neither for this nor for a missing argument: for a reference in
    range the clock count is 0, and the divider loop reads [clks[0]],
    which still holds what the stack held; that value alone decides
    between the failure for a clock that is too low and the two
    scenarios. *)
Theorem argument_validation junk_clks argv :
  (snd (setup junk_clks argv) = inl (EXIT_FAILURE TooManyArguments)
   <-> (4 < length argv)%nat)
  /\ forall x, argv = [x] ->
       snd (setup junk_clks argv) <> inl (EXIT_FAILURE TooManyArguments)
       /\ snd (setup junk_clks argv) <> inl NullArgument
       /\ (xtal_out_of_range x = false ->
           exists r d,
             rdiv_loop 9 (junk_clks 0%nat) 0 = Some (r, d)
             /\ (flt r (of_Z 1000000) = true ->
                 snd (setup junk_clks argv) = inl (EXIT_FAILURE ClockTooLow))
             /\ (flt r (of_Z 1000000) = false ->
                 exists e, snd (setup junk_clks argv) = inr e
                   /\ nclks e = 0 /\ clks e 0%nat = junk_clks 0%nat
                   /\ r_clk0 e = r /\ rdiv e = d)).
Proof.
  split.
  - unfold setup, too_many_arguments. change (MAX_CLOCKS + 2) with 5.
    destruct (Z.gtb_spec (Z.of_nat (length argv) + 1) 5) as [Hgt|Hle].
    + simpl. split; [intros _; lia|reflexivity].
    + split; [|lia]. intros H. exfalso.
      destruct argv as [|x cs]; [discriminate|].
      destruct (xtal_out_of_range x); [discriminate|].
      destruct (clkin_loop 5 x 0) as [[x' d]|]; [|discriminate].
      destruct (rdiv_loop 9 _ 0) as [[r d']|]; [|discriminate].
      destruct (flt r (of_Z 1000000)); discriminate.
  - intros x ->. unfold setup, too_many_arguments. simpl length.
    change (Z.of_nat 1 + 1 >? MAX_CLOCKS + 2) with false. cbv iota.
    destruct (clkin_loop_total 5 x 0 ltac:(lia) ltac:(simpl; lia)) as (x' & d & Ec & _).
    destruct (rdiv_loop_total 9 (junk_clks 0%nat) 0 ltac:(lia) ltac:(simpl; lia))
      as (r & d' & Er & _).
    change (parse_clks junk_clks [] 0%nat) with (junk_clks 0%nat).
    rewrite Ec, Er.
    destruct (xtal_out_of_range x) eqn:Ex.
    + split; [discriminate|]. split; [discriminate|]. discriminate.
    + split; [destruct (flt r (of_Z 1000000)); discriminate|].
      split; [destruct (flt r (of_Z 1000000)); discriminate|].
      intros _. exists r, d'. split; [reflexivity|].
      destruct (flt r (of_Z 1000000)); split; intros H; try discriminate; try reflexivity.
      eexists. split; [reflexivity|]. repeat split; reflexivity.
Qed.

(** C10 for a reference of 25 MHz and a stack that holds 14.2 MHz: the
    run goes on to the scenarios with that clock. *)
Lemma argument_validation_witness :
  exists e,
    snd (setup (fun _ => of_Z 14200000) [of_Z 25000000]) = inr e
    /\ nclks e = 0 /\ clks e 0%nat = of_Z 14200000
    /\ r_clk0 e = of_Z 14200000 /\ rdiv e = 0.
Proof.
  destruct (argument_validation (fun _ => of_Z 14200000) [of_Z 25000000]) as [_ H].
  destruct (H (of_Z 25000000) eq_refl) as (_ & _ & H').
  destruct (H' ltac:(vm_compute; reflexivity)) as (r & d & Er & _ & Hok).
  assert (Hr : Some (r, d) = Some (of_Z 14200000, 0)) by (rewrite <- Er; vm_compute; reflexivity).
  injection Hr as -> ->.
  destruct (Hok ltac:(vm_compute; reflexivity)) as (e & He & H1 & H2 & H3 & H4).
  exists e. repeat split; assumption.
Defined.

(** * Further properties: the stages of [main], the plans, the ratio *)

(** ** The two dividers and the range test *)

(** X1.  The reference divider. When [setup] succeeds on a reference
    that is a number, the reference lies between 10 MHz and 100 MHz; it
    was halved [d] times with [d] at most 2, never 3 or 4 times as the
    guard of the loop would allow; the halvings are exact, so that the
    divided reference times [xtal_div = 2^d] is the reference; the
    divided reference lies between 10 MHz and 40 MHz, and above 20 MHz
    when it was divided; the line for [CLKIN_DIV] is written exactly
    when the reference is above 40 MHz. *)
Theorem clkin_divider junk_clks argv out e :
  setup junk_clks argv = (out, inr e) ->
  valid (xtal_orig e) -> xtal_orig e <> S754_nan ->
  (10000000 <= B2R (xtal_orig e) <= 100000000)%R
  /\ is_finite (xtal e) = true /\ valid (xtal e)
  /\ (exists d, 0 <= d <= 2 /\ xtal_div e = 2 ^ d
        /\ out = (if 0 <? d then [ClkinDivLine d] else [])
        /\ (d = 0 <-> (B2R (xtal_orig e) <= 40000000)%R)
        /\ (0 < d -> (20000000 < B2R (xtal e))%R))
  /\ (B2R (xtal e) * IZR (xtal_div e) = B2R (xtal_orig e))%R
  /\ (10000000 <= B2R (xtal e) <= 40000000)%R.
Proof.
  intros Hs Hv Hn.
  destruct (setup_env _ _ _ _ Hs) as (cs & d & _ & _ & Hr & Hc & Ho & Hd & _).
  destruct (xtal_in_range _ Hv Hn Hr) as [Hf Hb].
  destruct (clkin_loop_spec _ Hv Hf Hb) as (x' & d' & Ec & V' & F' & D' & B' & U' & Z' & L').
  rewrite Hc in Ec. injection Ec as <- <-.
  assert (Exd : xtal_div e = 2 ^ d) by (rewrite Hd, Z.shiftl_1_l; reflexivity).
  split; [assumption|]. split; [assumption|]. split; [assumption|]. split; [|split].
  - exists d. repeat split; try assumption; try lia; apply Z'.
  - rewrite Exd. exact B'.
  - split; [|assumption].
    assert (H2 : d = 0 \/ d = 1 \/ d = 2) by lia.
    destruct H2 as [-> | [-> | ->]].
    + change (2 ^ 0) with 1 in B'. lra.
    + specialize (L' ltac:(lia)). lra.
    + specialize (L' ltac:(lia)). lra.
Qed.

(** X1 for a reference of 100 MHz, which is divided by 4. *)
Lemma clkin_divider_witness :
  let e := Env (of_Z 100000000) (of_Z 25000000) 4
               (parse_clks (fun _ => S754_nan) [of_Z 10000000]) 1 (of_Z 10000000) 0 in
  (10000000 <= B2R (xtal_orig e) <= 100000000)%R
  /\ is_finite (xtal e) = true /\ valid (xtal e)
  /\ (exists d, 0 <= d <= 2 /\ xtal_div e = 2 ^ d
        /\ [ClkinDivLine 2] = (if 0 <? d then [ClkinDivLine d] else [])
        /\ (d = 0 <-> (B2R (xtal_orig e) <= 40000000)%R)
        /\ (0 < d -> (20000000 < B2R (xtal e))%R))
  /\ (B2R (xtal e) * IZR (xtal_div e) = B2R (xtal_orig e))%R
  /\ (10000000 <= B2R (xtal e) <= 40000000)%R.
Proof.
  intros e.
  apply (clkin_divider (fun _ => S754_nan) [of_Z 100000000; of_Z 10000000]
           [ClkinDivLine 2] e).
  - vm_compute. reflexivity.
  - vm_compute. reflexivity.
  - vm_compute. discriminate.
Defined.

(** X2.  The clock divider. When [setup] succeeds on a first clock that
    is a finite number, the clock was doubled [rdiv] times, [rdiv]
    between 0 and 8; the doublings are exact, so that [r_clk0] is the
    clock times [2^rdiv]; [r_clk0] is at least 1 MHz, and below 2 MHz
    when the clock was doubled, which it is exactly when it is below 1
    MHz; the clock itself is at least 1 MHz / 256. *)
Theorem r_divider junk_clks argv out e :
  setup junk_clks argv = (out, inr e) ->
  valid (clks e 0%nat) -> is_finite (clks e 0%nat) = true ->
  0 <= rdiv e <= 8
  /\ is_finite (r_clk0 e) = true /\ valid (r_clk0 e)
  /\ (B2R (r_clk0 e) = B2R (clks e 0%nat) * IZR (2 ^ rdiv e))%R
  /\ (1000000 <= B2R (r_clk0 e))%R
  /\ (0 < rdiv e -> (B2R (r_clk0 e) < 2000000)%R)
  /\ (rdiv e = 0 <-> (1000000 <= B2R (clks e 0%nat))%R)
  /\ (1000000 <= B2R (clks e 0%nat) * 256)%R.
Proof.
  intros Hs Hv Hf.
  destruct (setup_env _ _ _ _ Hs) as (cs & d & _ & _ & _ & _ & _ & _ & _ & _ & Er & El).
  destruct (finite_sign _ Hv Hf) as [Hp|[Hn _]].
  2:{ apply rdiv_loop_nonpos in Er; [|assumption|assumption].
      rewrite (flt_nonpos _ Er) in El. discriminate. }
  destruct (rdiv_loop_pos 9 (clks e 0%nat) 0 (r_clk0 e) (rdiv e) Hv Hf Hp ltac:(lia) Er)
    as (V' & F' & D' & B' & _ & _ & U').
  rewrite Z.sub_0_r in B'.
  apply flt_of_Z_r_false in El; [|assumption|assumption|lia].
  split; [lia|]. split; [assumption|]. split; [assumption|]. split; [assumption|].
  split; [assumption|]. split; [intros; apply U'; lia|].
  assert (Hle : (IZR (2 ^ rdiv e) <= 256)%R).
  { change 256%R with (IZR (2 ^ 8)). apply IZR_le. apply Z.pow_le_mono_r; lia. }
  assert (Hp2 : (0 <= IZR (2 ^ rdiv e))%R) by (apply IZR_le; apply Z.pow_nonneg; lia).
  split; [|nra]. split.
  - intros E0. rewrite E0 in B'. change (2 ^ 0) with 1 in B'. lra.
  - intros Hge. destruct (Z.eq_dec (rdiv e) 0) as [|Hne]; [assumption|exfalso].
    specialize (U' ltac:(lia)).
    assert (H2 : (2 <= IZR (2 ^ rdiv e))%R).
    { change 2%R with (IZR (2 ^ 1)). apply IZR_le. apply Z.pow_le_mono_r; lia. }
    nra.
Qed.

(** X2 for a clock of 5000 Hz, which is doubled 8 times. *)
Lemma r_divider_witness :
  let e := Env (of_Z 25000000) (of_Z 25000000) 1
               (parse_clks (fun _ => S754_nan) [of_Z 5000]) 1 (of_Z 1280000) 8 in
  0 <= rdiv e <= 8
  /\ is_finite (r_clk0 e) = true /\ valid (r_clk0 e)
  /\ (B2R (r_clk0 e) = B2R (clks e 0%nat) * IZR (2 ^ rdiv e))%R
  /\ (1000000 <= B2R (r_clk0 e))%R
  /\ (0 < rdiv e -> (B2R (r_clk0 e) < 2000000)%R)
  /\ (rdiv e = 0 <-> (1000000 <= B2R (clks e 0%nat))%R)
  /\ (1000000 <= B2R (clks e 0%nat) * 256)%R.
Proof.
  intros e.
  apply (r_divider (fun _ => S754_nan) [of_Z 25000000; of_Z 5000] [] e).
  - vm_compute. reflexivity.
  - vm_compute. reflexivity.
  - vm_compute. reflexivity.
Defined.

(** X3.  The clock that is too low. For a reference that passed its
    range test and a first clock that is a finite number, the run ends
    with the failure for a clock that is too low exactly when 256 times
    the clock is below 1 MHz, that is for a clock below 3906.25 Hz, a
    negative clock and a clock of zero included; otherwise [setup]
    succeeds. *)
Theorem clock_too_low junk_clks x c0 cs :
  (length cs <= 2)%nat -> xtal_out_of_range x = false ->
  valid c0 -> is_finite c0 = true ->
  (snd (setup junk_clks (x :: c0 :: cs)) = inl (EXIT_FAILURE ClockTooLow)
   <-> (B2R c0 * 256 < 1000000)%R)
  /\ ((1000000 <= B2R c0 * 256)%R ->
      exists e, snd (setup junk_clks (x :: c0 :: cs)) = inr e).
Proof.
  intros Hl Hx Hv Hf. unfold setup, too_many_arguments. change (MAX_CLOCKS + 2) with 5.
  destruct (Z.gtb_spec (Z.of_nat (length (x :: c0 :: cs)) + 1) 5) as [Hgt|_].
  { simpl length in Hgt. lia. }
  rewrite Hx.
  destruct (clkin_loop_total 5 x 0 ltac:(lia) ltac:(simpl; lia)) as (x' & d & -> & _).
  change (parse_clks junk_clks (c0 :: cs) 0%nat) with c0.
  destruct (rdiv_loop_total 9 c0 0 ltac:(lia) ltac:(simpl; lia)) as (r & d' & Er & _).
  rewrite Er.
  destruct (finite_sign _ Hv Hf) as [Hp|[Hn Hneg]].
  - destruct (rdiv_loop_pos 9 c0 0 r d' Hv Hf Hp ltac:(lia) Er)
      as (V' & F' & D' & B' & L' & _ & _).
    rewrite Z.sub_0_r in B'.
    assert (Hle : (IZR (2 ^ d') <= 256)%R).
    { change 256%R with (IZR (2 ^ 8)). apply IZR_le. apply Z.pow_le_mono_r; lia. }
    assert (Hp2 : (0 <= IZR (2 ^ d'))%R) by (apply IZR_le; apply Z.pow_nonneg; lia).
    destruct (flt r (of_Z 1000000)) eqn:El.
    + specialize (L' eq_refl). subst d'. change (IZR (2 ^ 8)) with 256%R in B'.
      apply flt_of_Z_r in El; [|assumption|assumption|lia].
      cbn [snd]. split; [split; [intros _; lra|reflexivity]|intros; lra].
    + apply flt_of_Z_r_false in El; [|assumption|assumption|lia].
      cbn [snd]. split; [split; [discriminate|intros; nra]|].
      intros _. eexists. reflexivity.
  - apply rdiv_loop_nonpos in Er; [|assumption|assumption].
    rewrite (flt_nonpos _ Er). cbn [snd].
    split; [split; [intros _; lra|reflexivity]|intros; lra].
Qed.

(** X3 for a clock of 3906 Hz. *)
Lemma clock_too_low_witness :
  (snd (setup (fun _ => S754_nan) [of_Z 25000000; of_Z 3906])
     = inl (EXIT_FAILURE ClockTooLow)
   <-> (B2R (of_Z 3906) * 256 < 1000000)%R)
  /\ ((1000000 <= B2R (of_Z 3906) * 256)%R ->
      exists e, snd (setup (fun _ => S754_nan) [of_Z 25000000; of_Z 3906]) = inr e).
Proof.
  apply (clock_too_low (fun _ => S754_nan) (of_Z 25000000) (of_Z 3906) []).
  - simpl. lia.
  - vm_compute. reflexivity.
  - vm_compute. reflexivity.
  - vm_compute. reflexivity.
Defined.

(** X20.  The range test of the reference. For a reference that is a
    finite number, the run ends with the failure for a reference out of
    range exactly when the reference is below 10 MHz or above 100 MHz;
    an infinite reference is refused as well; a reference that is a NaN
    passes the test, since both comparisons are false for it, and the
    run goes on with it. *)
Theorem reference_range junk_clks x cs :
  (length cs <= 3)%nat -> valid x ->
  let st := snd (setup junk_clks (x :: cs)) in
  (is_finite x = true ->
     (st = inl (EXIT_FAILURE XtalOutOfRange)
      <-> (B2R x < 10000000)%R \/ (100000000 < B2R x)%R))
  /\ (is_finite x = false -> x <> S754_nan -> st = inl (EXIT_FAILURE XtalOutOfRange))
  /\ (x = S754_nan -> st <> inl (EXIT_FAILURE XtalOutOfRange)).
Proof.
  intros Hl Hv st.
  assert (Hst : st = inl (EXIT_FAILURE XtalOutOfRange) <-> xtal_out_of_range x = true).
  { unfold st, setup, too_many_arguments. change (MAX_CLOCKS + 2) with 5.
    destruct (Z.gtb_spec (Z.of_nat (length (x :: cs)) + 1) 5) as [Hgt|_].
    { simpl length in Hgt. lia. }
    destruct (xtal_out_of_range x); [split; reflexivity|].
    split; [|discriminate].
    destruct (clkin_loop 5 x 0) as [[x' d]|]; [|discriminate].
    destruct (rdiv_loop 9 _ 0) as [[r d']|]; [|discriminate].
    destruct (flt r (of_Z 1000000)); discriminate. }
  split; [|split].
  - intros Hf. rewrite Hst. unfold xtal_out_of_range. rewrite orb_true_iff.
    unfold SI5351_MIN_CLKIN_FREQ, SI5351_MAX_CLKIN_FREQ.
    rewrite (flt_of_Z_r x 10000000 Hv Hf) by lia.
    rewrite (flt_of_Z_l x 100000000 Hv Hf) by lia. reflexivity.
  - intros Hf Hn. apply Hst.
    destruct x as [s|s| |s m e]; try discriminate; [|congruence].
    destruct s; reflexivity.
  - intros ->. rewrite Hst. discriminate.
Qed.

(** X20 for a reference of 9 999 999 Hz. *)
Lemma reference_range_witness :
  let st := snd (setup (fun _ => S754_nan) [of_Z 9999999; of_Z 14200000]) in
  (is_finite (of_Z 9999999) = true ->
     (st = inl (EXIT_FAILURE XtalOutOfRange)
      <-> (B2R (of_Z 9999999) < 10000000)%R \/ (100000000 < B2R (of_Z 9999999))%R))
  /\ (is_finite (of_Z 9999999) = false -> of_Z 9999999 <> S754_nan ->
      st = inl (EXIT_FAILURE XtalOutOfRange))
  /\ (of_Z 9999999 = S754_nan -> st <> inl (EXIT_FAILURE XtalOutOfRange)).
Proof.
  apply (reference_range (fun _ => S754_nan) (of_Z 9999999) [of_Z 14200000]).
  - simpl. lia.
  - vm_compute. reflexivity.
Defined.

(** ** The first divider of the first scenario *)

(** X4.  The window of the first scenario. For a pre-divided clock that
    is a finite number of at least 1 MHz: from 1 108 648 Hz to 250 MHz
    the first divider is an even number between 4 and 900 and the
    scenario runs to its end; at 1 108 647 Hz or below, and at 250 000
    001 Hz or above, the run ends with the failure for an invalid output
    divider. *)
Theorem output_ms_window junk_out e :
  valid (r_clk0 e) -> is_finite (r_clk0 e) = true ->
  flt (r_clk0 e) (of_Z 1000000) = false ->
  ((1108648 <= B2R (r_clk0 e) <= 250000000)%R ->
     4 <= initial_output_ms e <= 900 /\ Z.even (initial_output_ms e) = true
     /\ exists evs, scenario_a junk_out e = (evs, None))
  /\ ((B2R (r_clk0 e) <= 1108647)%R \/ (250000001 <= B2R (r_clk0 e))%R ->
      (initial_output_ms e < 4 \/ 900 < initial_output_ms e)
      /\ scenario_a junk_out e
         = ([], Some (EXIT_FAILURE (InvalidOutputMS (initial_output_ms e))))).
Proof.
  intros Hv Hf Hl.
  apply flt_of_Z_r_false in Hl; [|assumption|assumption|lia].
  destruct (finite_positive _ Hv Hf ltac:(lra)) as (m & em & Er & C & E).
  unfold scenario_a, initial_output_ms. rewrite Er in *. rewrite B2R_pos in *.
  destruct (initial_output_ms_cases m em C) as (H1 & H2 & H3). cbv zeta in H1, H2, H3.
  set (t := to_uint32 (fdiv SI5351_MAX_VCO_FREQ (S754_finite false m em))) in *.
  split.
  - intros Hb. specialize (H1 Hb).
    destruct (even_part t ltac:(lia)) as (Eu & Ev & Hb2). rewrite Eu.
    pose proof (even_ge_4 _ Ev ltac:(lia)) as H4.
    assert (H9 : t - t mod 2 <= 900).
    { apply Z.even_spec in Ev. destruct Ev as [k Ek]. lia. }
    split; [lia|]. split; [assumption|].
    replace (t - t mod 2 <? 4) with false by (symmetry; apply Z.ltb_ge; lia).
    replace (900 <? t - t mod 2) with false by (symmetry; apply Z.ltb_ge; lia).
    cbn [orb].
    destruct (scenario_a_loop_run junk_out e (loop_fuel (t - t mod 2)) (t - t mod 2)
                ltac:(lia) ltac:(unfold loop_fuel; lia)) as (evs & n & -> & _).
    exists evs. reflexivity.
  - intros [Hb|Hb].
    + specialize (H2 (conj Hl Hb)).
      destruct (even_part t ltac:(lia)) as (Eu & Ev & Hb2). rewrite Eu.
      assert (H9 : 900 < t - t mod 2) by lia.
      split; [lia|].
      replace (900 <? t - t mod 2) with true by (symmetry; apply Z.ltb_lt; lia).
      rewrite orb_true_r. reflexivity.
    + specialize (H3 Hb).
      destruct (even_part t ltac:(lia)) as (Eu & Ev & Hb2). rewrite Eu.
      split; [lia|].
      replace (t - t mod 2 <? 4) with true by (symmetry; apply Z.ltb_lt; lia).
      reflexivity.
Qed.

(** X4 for a clock of 14.2 MHz. *)
Lemma output_ms_window_witness :
  ((1108648 <= B2R (r_clk0 env_25_14) <= 250000000)%R ->
     4 <= initial_output_ms env_25_14 <= 900
     /\ Z.even (initial_output_ms env_25_14) = true
     /\ exists evs, scenario_a (Ratio 0 0 0) env_25_14 = (evs, None))
  /\ ((B2R (r_clk0 env_25_14) <= 1108647)%R
      \/ (250000001 <= B2R (r_clk0 env_25_14))%R ->
      (initial_output_ms env_25_14 < 4 \/ 900 < initial_output_ms env_25_14)
      /\ scenario_a (Ratio 0 0 0) env_25_14
         = ([], Some (EXIT_FAILURE (InvalidOutputMS (initial_output_ms env_25_14))))).
Proof.
  apply (output_ms_window (Ratio 0 0 0) env_25_14).
  - vm_compute. reflexivity.
  - vm_compute. reflexivity.
  - vm_compute. reflexivity.
Defined.

(** ** The plans of the first scenario *)

(** X8.  The plans of the first scenario. For a reference that is a
    positive finite number and a pre-divided clock that is a finite
    number, every plan of the first scenario holds the feedback ratio of
    its divider, a number between 15 and 90, and the triple [(a, b, c)]
    that [rational_approximation] returns for it: [a] is the integer
    part of the ratio, between 15 and 90; [c] is between 1 and 1 048
    575; [b] is 0 or 1 with [c = 1], or [0 < b < c]. *)
Theorem plan_a_ratio junk_out e evs :
  valid (xtal e) -> is_finite (xtal e) = true -> flt (S754_zero false) (xtal e) = true ->
  valid (r_clk0 e) -> is_finite (r_clk0 e) = true ->
  scenario_a junk_out e = (evs, None) ->
  forall o fv fb r pll clk0 flag diff ls,
  In (PlanA o fv fb r pll clk0 flag diff ls) evs ->
  fb = feedback_ms_a e o
  /\ rational_approximation fb SI5351_MAX_DENOMINATOR junk_out = Some r
  /\ (15 <= B2R fb <= 90)%R
  /\ 15 <= ra r <= 90
  /\ (IZR (ra r) <= B2R fb < IZR (ra r) + 1)%R
  /\ 1 <= rc r <= SI5351_MAX_DENOMINATOR
  /\ ((rb r = 0 /\ rc r = 1) \/ (rb r = 1 /\ rc r = 1) \/ 0 < rb r < rc r).
Proof.
  intros Vx Fx Px Vr Fr Hs o fv fb r pll clk0 flag diff ls Hin.
  unfold scenario_a in Hs.
  destruct ((initial_output_ms e <? 4) || (900 <? initial_output_ms e)); [discriminate|].
  destruct (scenario_a_loop junk_out _ e (initial_output_ms e)) as [evs'|] eqn:El;
    [|discriminate].
  injection Hs as <-.
  assert (Hc : 0 <= initial_output_ms e < 2 ^ 32).
  { unfold initial_output_ms, u32. apply Z.mod_pos_bound. lia. }
  destruct (scenario_a_events _ _ _ _ _ _ Hc El Hin) as (o' & Ho & Hst & [[_ Hev]|[Hob Hp]]);
    [discriminate|].
  destruct (feedback_in_band e o' Vx Fx Px Vr Fr Ho Hst Hob)
    as (m2 & e2 & E2 & C2 & L2 & B2).
  pose proof (floor_of_spec (Zpos m2) e2 ltac:(lia)) as [Fl Fu].
  pose proof (floor_of_nonneg (Zpos m2) e2 ltac:(lia)) as F0.
  rewrite plus_IZR in Fu.
  assert (Hfl : 15 <= floor_of (Zpos m2) e2 <= 90).
  { split.
    - assert (H : (IZR 15 < IZR (floor_of (Zpos m2) e2) + 1)%R) by lra.
      rewrite <- plus_IZR in H. apply lt_IZR in H. lia.
    - apply le_IZR. lra. }
  destruct (ratio_of_positive m2 e2 SI5351_MAX_DENOMINATOR junk_out C2 ltac:(lia)
              ltac:(unfold SI5351_MAX_DENOMINATOR; lia)) as (r' & Er & Ea & Hrc & Hsh).
  unfold plan_a in Hp. rewrite E2, Er in Hp.
  destruct (additional_clocks junk_out e _ (clock_indices e)) as [ls'|]; [|discriminate].
  injection Hp as <- <- <- <- <- <- <- <- <-.
  fold (feedback_ms_a e o'). rewrite E2, B2R_pos, Ea.
  split; [reflexivity|]. split; [assumption|]. split; [assumption|].
  split; [assumption|]. split; [lra|]. split; [assumption|exact Hsh].
Qed.

(** X8 for a reference of 25 MHz and a clock of 14.2 MHz. *)
Lemma plan_a_ratio_witness :
  Forall (fun ev =>
            match ev with
            | PlanA o fv fb r pll clk0 flag diff ls =>
                fb = feedback_ms_a env_25_14 o
                /\ rational_approximation fb SI5351_MAX_DENOMINATOR (Ratio 0 0 0) = Some r
                /\ (15 <= B2R fb <= 90)%R
                /\ 15 <= ra r <= 90
                /\ (IZR (ra r) <= B2R fb < IZR (ra r) + 1)%R
                /\ 1 <= rc r <= SI5351_MAX_DENOMINATOR
                /\ ((rb r = 0 /\ rc r = 1) \/ (rb r = 1 /\ rc r = 1) \/ 0 < rb r < rc r)
            | _ => True
            end)
         (fst (scenario_a (Ratio 0 0 0) env_25_14)).
Proof.
  apply Forall_forall. intros ev Hin. destruct ev; try exact I.
  apply (plan_a_ratio (Ratio 0 0 0) env_25_14 (fst (scenario_a (Ratio 0 0 0) env_25_14)))
    with (fv := f_vco) (pll := actual_pll_freq) (clk0 := actual_clk0) (flag := flag)
         (diff := clk0_diff) (ls := others).
  - vm_compute. reflexivity.
  - vm_compute. reflexivity.
  - vm_compute. reflexivity.
  - vm_compute. reflexivity.
  - vm_compute. reflexivity.
  - vm_compute. reflexivity.
  - exact Hin.
Defined.

(** ** The second scenario *)

(** X10.  The second scenario. For a divided reference that is a finite
    number between 10 MHz and 40 MHz, as [setup] leaves it, the second
    scenario never fails: its first feedback divider is an even number
    between 24 and 100, so that neither of its two error exits is taken;
    it ends with success after at least one plan; the feedback dividers
    of its plans go down from the first one, 90 at most, by steps of 2,
    all of them even, between 16 and 90 and with a VCO frequency of at
    least 600 MHz and below 1 GHz + 1 Hz (above 1 GHz it can only be by
    the rounding of the quotient the first divider comes from); the
    divider after the last plan has a VCO frequency below 600 MHz, also
    when it is the divider 14 that the test on 16 refuses. *)
Theorem scenario_b_succeeds junk_out e :
  valid (xtal e) -> is_finite (xtal e) = true ->
  flt (xtal e) (of_Z 10000000) = false -> flt (of_Z 40000000) (xtal e) = false ->
  let c0 := Z.min 90 (initial_feedback_ms e) in
  24 <= initial_feedback_ms e <= 100 /\ Z.even (initial_feedback_ms e) = true
  /\ exists evs n,
       scenario_b junk_out e = (evs, EXIT_SUCCESS)
       /\ (1 <= n)%nat
       /\ feedbacks evs = descending c0 n
       /\ (forall c, In c (feedbacks evs) ->
             Z.even c = true /\ 16 <= c <= 90
             /\ is_finite (f_vco_b e c) = true
             /\ (600000000 <= B2R (f_vco_b e c) < 1000000001)%R)
       /\ flt (f_vco_b e (c0 - 2 * Z.of_nat n)) SI5351_MIN_VCO_FREQ = true.
Proof.
  intros Hv Hf Hlo Hhi c0.
  apply flt_of_Z_r_false in Hlo; [|assumption|assumption|lia].
  apply flt_of_Z_l_false in Hhi; [|assumption|assumption|lia].
  destruct (finite_positive _ Hv Hf ltac:(lra)) as (mx & ex & Ex & Cx & _).
  rewrite Ex, B2R_pos in Hlo, Hhi.
  destruct (scenario_b_run junk_out e mx ex Ex Cx (conj Hlo Hhi))
    as (Hi & He & evs & n & Es & Hn & Hcs & Hall & Hstop).
  split; [assumption|]. split; [assumption|].
  exists evs, n. split; [assumption|]. split; [assumption|]. split; [assumption|].
  split; assumption.
Qed.

(** X10 for a reference of 25 MHz and a clock of 14.2 MHz. *)
Lemma scenario_b_succeeds_witness :
  let c0 := Z.min 90 (initial_feedback_ms env_25_14) in
  24 <= initial_feedback_ms env_25_14 <= 100
  /\ Z.even (initial_feedback_ms env_25_14) = true
  /\ exists evs n,
       scenario_b (Ratio 0 0 0) env_25_14 = (evs, EXIT_SUCCESS)
       /\ (1 <= n)%nat
       /\ feedbacks evs = descending c0 n
       /\ (forall c, In c (feedbacks evs) ->
             Z.even c = true /\ 16 <= c <= 90
             /\ is_finite (f_vco_b env_25_14 c) = true
             /\ (600000000 <= B2R (f_vco_b env_25_14 c) < 1000000001)%R)
       /\ flt (f_vco_b env_25_14 (c0 - 2 * Z.of_nat n)) SI5351_MIN_VCO_FREQ = true.
Proof.
  apply (scenario_b_succeeds (Ratio 0 0 0) env_25_14).
  - vm_compute. reflexivity.
  - vm_compute. reflexivity.
  - vm_compute. reflexivity.
  - vm_compute. reflexivity.
Defined.

(** ** The run as a whole *)

(** X13.  The run ends. Whatever the arguments and whatever the stack
    holds, the four loops of [main] that have no bound of their own (the
    two divider loops and the two [while (1)] loops of the scenarios)
    end: the run never diverges. It reads a null argument exactly when
    no argument is given. *)
Theorem main_terminates junk_clks junk_out argv :
  snd (main junk_clks junk_out argv) <> Diverges
  /\ (snd (main junk_clks junk_out argv) = NullArgument <-> argv = []).
Proof.
  unfold main.
  pose proof (setup_ends junk_clks argv) as Hs.
  assert (Hnull : forall out e, setup junk_clks argv = (out, inr e) -> argv <> []).
  { intros out e H. destruct (setup_env _ _ _ _ H) as (cs & d & -> & _). discriminate. }
  assert (Hnull2 : snd (setup junk_clks argv) = inl NullArgument <-> argv = []).
  { unfold setup. destruct (too_many_arguments _) eqn:Et.
    - split; [discriminate|]. intros ->. discriminate Et.
    - destruct argv as [|x cs]; [split; reflexivity|]. split; [|discriminate].
      destruct (xtal_out_of_range x); [discriminate|].
      destruct (clkin_loop 5 x 0) as [[x' d]|]; [|discriminate].
      destruct (rdiv_loop 9 _ 0) as [[r d']|]; [|discriminate].
      destruct (flt r (of_Z 1000000)); discriminate. }
  destruct (setup junk_clks argv) as [out [st|e]] eqn:E.
  - cbn [snd] in *. split; [congruence|]. rewrite <- Hnull2. split; congruence.
  - pose proof (scenario_a_ends junk_out e) as Ha.
    pose proof (scenario_b_ends junk_out e) as Hb.
    specialize (Hnull out e eq_refl).
    assert (Ha2 : snd (scenario_a junk_out e) <> Some NullArgument).
    { unfold scenario_a. destruct (_ || _); [discriminate|].
      destruct (scenario_a_loop _ _ _ _); discriminate. }
    assert (Hb2 : snd (scenario_b junk_out e) <> NullArgument).
    { unfold scenario_b. destruct (_ <? 16); [discriminate|].
      destruct (_ && _); [discriminate|].
      destruct (scenario_b_loop _ _ _ _); discriminate. }
    destruct (scenario_a junk_out e) as [evs [st|]].
    + cbn [snd] in *. split; [congruence|]. split; [congruence|contradiction].
    + destruct (scenario_b junk_out e) as [evs' st]. cbn [snd] in *.
      split; [assumption|]. split; [contradiction|contradiction].
Qed.

(** X12.  The failures of the second scenario are out of reach. For a
    reference that is a number ([valid], not a NaN), the run never ends
    with one of the two failures of the second scenario for an invalid
    feedback divider; it ends with success exactly when [setup] succeeds
    and the first output divider of the first scenario passes its test,
    between 4 and 900. *)
Theorem feedback_failures_unreachable junk_clks junk_out x cs :
  valid x -> x <> S754_nan ->
  let st := snd (main junk_clks junk_out (x :: cs)) in
  (forall f, st <> EXIT_FAILURE (InvalidFeedbackMS f))
  /\ st <> EXIT_FAILURE InvalidFeedbackMSAt90
  /\ (st = EXIT_SUCCESS <->
      exists out e, setup junk_clks (x :: cs) = (out, inr e)
                    /\ 4 <= initial_output_ms e <= 900).
Proof.
  intros Hv Hn st. unfold st, main.
  assert (Hset : forall f,
             snd (setup junk_clks (x :: cs)) <> inl (EXIT_FAILURE (InvalidFeedbackMS f))
             /\ snd (setup junk_clks (x :: cs)) <> inl (EXIT_FAILURE InvalidFeedbackMSAt90)
             /\ snd (setup junk_clks (x :: cs)) <> inl EXIT_SUCCESS).
  { intros f. unfold setup. destruct (too_many_arguments _); [repeat split; discriminate|].
    destruct (xtal_out_of_range x); [repeat split; discriminate|].
    destruct (clkin_loop 5 x 0) as [[x' d]|]; [|repeat split; discriminate].
    destruct (rdiv_loop 9 _ 0) as [[r d']|]; [|repeat split; discriminate].
    destruct (flt r (of_Z 1000000)); repeat split; discriminate. }
  destruct (setup junk_clks (x :: cs)) as [out [s|e]] eqn:E.
  - cbn [snd] in *. split; [intros f; destruct (Hset f) as (H & _); congruence|].
    split; [destruct (Hset 0) as (_ & H & _); congruence|].
    split; [intros ->; destruct (Hset 0) as (_ & _ & H); congruence|].
    intros (out' & e & He & _). discriminate.
  - assert (Ex : xtal_orig e = x).
    { destruct (setup_env _ _ _ _ E) as (cs' & d & Ea & _). congruence. }
    destruct (setup_xtal _ _ _ _ E ltac:(rewrite Ex; exact Hv) ltac:(rewrite Ex; exact Hn))
      as (Vx & Fx & Lx & Ux).
    apply flt_of_Z_r_false in Lx; [|assumption|assumption|lia].
    apply flt_of_Z_l_false in Ux; [|assumption|assumption|lia].
    destruct (finite_positive _ Vx Fx ltac:(lra)) as (mx & ex & Exx & Cx & _).
    rewrite Exx, B2R_pos in Lx, Ux.
    destruct (scenario_b_run junk_out e mx ex Exx Cx (conj Lx Ux))
      as (_ & _ & evs' & n & Eb & _).
    unfold scenario_a.
    destruct (Z.ltb_spec (initial_output_ms e) 4) as [H4|H4]; cbn [orb].
    { cbn [snd]. split; [discriminate|]. split; [discriminate|].
      split; [discriminate|]. intros (out' & e' & He & Hr). injection He as _ <-. lia. }
    destruct (Z.ltb_spec 900 (initial_output_ms e)) as [H9|H9].
    { cbn [snd]. split; [discriminate|]. split; [discriminate|].
      split; [discriminate|]. intros (out' & e' & He & Hr). injection He as _ <-. lia. }
    destruct (scenario_a_loop_run junk_out e (loop_fuel (initial_output_ms e))
                (initial_output_ms e) (initial_output_ms_range e)
                ltac:(unfold loop_fuel; lia)) as (evs & n' & -> & _).
    rewrite Eb. cbn [snd]. split; [discriminate|]. split; [discriminate|].
    split; [|reflexivity]. intros _. exists out, e. split; [reflexivity|lia].
Qed.

(** X12 for a reference of 25 MHz and a clock of 14.2 MHz. *)
Lemma feedback_failures_unreachable_witness :
  let st := snd (main (fun _ => S754_nan) (Ratio 0 0 0)
                   [of_Z 25000000; of_Z 14200000]) in
  (forall f, st <> EXIT_FAILURE (InvalidFeedbackMS f))
  /\ st <> EXIT_FAILURE InvalidFeedbackMSAt90
  /\ (st = EXIT_SUCCESS <->
      exists out e,
        setup (fun _ => S754_nan) [of_Z 25000000; of_Z 14200000] = (out, inr e)
        /\ 4 <= initial_output_ms e <= 900).
Proof.
  apply (feedback_failures_unreachable (fun _ => S754_nan) (Ratio 0 0 0)
           (of_Z 25000000) [of_Z 14200000]).
  - vm_compute. reflexivity.
  - vm_compute. discriminate.
Defined.

(** ** The lines of the additional clocks *)

(** X9.  The additional clocks. The lines that a plan holds for the
    additional clocks are lines for clocks 1 to [nclks - 1], at most one
    for each and in the order of the clocks; each holds the ratio that
    [rational_approximation] returns for the PLL frequency over the
    clock, a ratio that is neither below 4 nor above 900, and the clock
    it yields; a clock whose ratio is out of this range gets no line.
    With fewer than two clocks there is no line. *)
Theorem additional_clocks_lines junk_out e pll ls :
  additional_clocks junk_out e pll (clock_indices e) = Some ls ->
  (Z.of_nat (length ls) <= Z.max 0 (nclks e - 1))
  /\ StronglySorted Z.lt (map cl_nclk ls)
  /\ forall l, In l ls ->
       1 <= cl_nclk l < nclks e
       /\ exists n, cl_nclk l = Z.of_nat n
         /\ rational_approximation (fdiv pll (clks e n)) SI5351_MAX_DENOMINATOR junk_out
            = Some (cl_ratio l)
         /\ flt (ratio_value (cl_ratio l)) (of_Z 4) = false
         /\ flt (of_Z 900) (ratio_value (cl_ratio l)) = false
         /\ cl_actual_clk l = fdiv pll (ratio_value (cl_ratio l))
         /\ cl_diff l = flagged_diff (fsub (cl_actual_clk l) (clks e n)).
Proof.
  intros H. destruct (additional_clocks_spec _ _ _ _ _ H) as (Hlen & Hsort & Hall).
  unfold clock_indices in *. rewrite length_seq in Hlen.
  split; [lia|]. split; [apply Hsort; apply seq_sorted|].
  intros l Hin. destruct (Hall l Hin) as (n & Hn & En & Hrest).
  apply in_seq in Hn. split; [lia|]. exists n. split; assumption.
Qed.

(** X9 for a PLL frequency of 852 MHz and the additional clocks 10 Hz,
    which is skipped, and 7.1 MHz. *)
Lemma additional_clocks_lines_witness :
  let e := Env (of_Z 25000000) (of_Z 25000000) 1
             (parse_clks (fun _ => S754_nan) [of_Z 14200000; of_Z 10; of_Z 7100000])
             3 (of_Z 14200000) 0 in
  let pll := of_Z 852000000 in
  let ls := [ClockLine 2 (Ratio 120 0 1) (of_Z 7100000) EvenInteger None] in
  (Z.of_nat (length ls) <= Z.max 0 (nclks e - 1))
  /\ StronglySorted Z.lt (map cl_nclk ls)
  /\ forall l, In l ls ->
       1 <= cl_nclk l < nclks e
       /\ exists n, cl_nclk l = Z.of_nat n
         /\ rational_approximation (fdiv pll (clks e n)) SI5351_MAX_DENOMINATOR
              (Ratio 0 0 0) = Some (cl_ratio l)
         /\ flt (ratio_value (cl_ratio l)) (of_Z 4) = false
         /\ flt (of_Z 900) (ratio_value (cl_ratio l)) = false
         /\ cl_actual_clk l = fdiv pll (ratio_value (cl_ratio l))
         /\ cl_diff l = flagged_diff (fsub (cl_actual_clk l) (clks e n)).
Proof.
  intros e pll ls.
  apply (additional_clocks_lines (Ratio 0 0 0) e pll ls).
  vm_compute. reflexivity.
Defined.

(** ** The ratio of a value: sign, integer part, error *)

(** X17.  A value with no positive fractional part. For a value that is
    zero, negative or infinite, the fractional part is not above
    [epsilon], the expansion makes no pass and the result is the integer
    part alone: [b = 0] and [c = 1], whatever the bound on the
    denominator. ([a] is the conversion of the integer part to
    [uint32_t], which is defined in C for a value above -1 only.) *)
Theorem nonpositive_value value D out0 :
  nonpos_double value \/ value = S754_infinity false ->
  (scanned value D = []
   /\ rational_approximation value D out0
      = Some (Ratio (to_uint32 (snd (modf value))) 0 1)).
Proof.
  intros H. pose proof (fle_nonpos_epsilon _ (modf_frac_nonpos value H)) as Hle.
  unfold rational_approximation, scanned.
  destruct (modf value) as [f0 af]. cbn [fst snd] in *.
  cbn [expand expand_cands cf_f cf_best]. rewrite Hle. split; reflexivity.
Qed.

(** X17 at -2.5. *)
Lemma nonpositive_value_witness :
  scanned (fdiv (of_Z (-5)) (of_Z 2)) SI5351_MAX_DENOMINATOR = []
  /\ rational_approximation (fdiv (of_Z (-5)) (of_Z 2)) SI5351_MAX_DENOMINATOR (Ratio 7 7 7)
     = Some (Ratio (to_uint32 (snd (modf (fdiv (of_Z (-5)) (of_Z 2))))) 0 1).
Proof.
  apply (nonpositive_value (fdiv (of_Z (-5)) (of_Z 2)) SI5351_MAX_DENOMINATOR (Ratio 7 7 7)).
  left. vm_compute. exact I.
Defined.

(** X14.  The integer part. For a finite value that is not negative and
    is below 2^32, [a] is the value rounded toward zero: the integer
    with [a <= value < a + 1]. *)
Theorem integer_part value D out0 :
  valid value -> nonneg_finite value -> flt value (of_Z 4294967296) = true ->
  exists r, rational_approximation value D out0 = Some r
    /\ trunc value = Some (ra r)
    /\ (IZR (ra r) <= B2R value < IZR (ra r) + 1)%R.
Proof.
  intros Hv Hn Hlt.
  destruct (rational_approximation_total value D out0) as [r Er].
  exists r. split; [exact Er|].
  destruct value as [s|s| |s m e]; try contradiction.
  - unfold rational_approximation in Er. cbn [modf] in Er.
    rewrite expand_zero in Er. injection Er as <-. cbn [ra trunc B2R].
    change (to_uint32 (S754_zero s)) with 0. split; [reflexivity|]. simpl. lra.
  - simpl in Hn. subst s. apply valid_finite in Hv. destruct Hv as [C L].
    destruct pow32_eq as (mp & ep & Ep & Cp & Vp). rewrite Ep in Hlt.
    apply flt_pos in Hlt; [|assumption|assumption]. rewrite Vp in Hlt.
    pose proof (floor_of_spec (Zpos m) e ltac:(lia)) as [Fl Fu].
    assert (Hfl : floor_of (Zpos m) e < 2 ^ 32).
    { apply lt_IZR. change (IZR (2 ^ 32)) with 4294967296%R. lra. }
    pose proof (to_uint32_modf m e C Hfl) as Ha.
    unfold rational_approximation in Er.
    destruct (modf (S754_finite false m e)) as [f0 af]. cbn [snd] in Ha.
    cbn [ra rb rc] in Er. destruct (expand 100 f0 D _) as [bs|]; [|discriminate].
    injection Er as <-. cbn [ra]. rewrite Ha, B2R_pos. split; [reflexivity|].
    rewrite plus_IZR in Fu. lra.
Qed.

(** X14 at 14.2. *)
Lemma integer_part_witness :
  exists r,
    rational_approximation (fdiv (of_Z 142) (of_Z 10)) SI5351_MAX_DENOMINATOR (Ratio 0 0 0)
      = Some r
    /\ trunc (fdiv (of_Z 142) (of_Z 10)) = Some (ra r)
    /\ (IZR (ra r) <= B2R (fdiv (of_Z 142) (of_Z 10)) < IZR (ra r) + 1)%R.
Proof.
  apply (integer_part (fdiv (of_Z 142) (of_Z 10)) SI5351_MAX_DENOMINATOR (Ratio 0 0 0)).
  - vm_compute. reflexivity.
  - vm_compute. reflexivity.
  - vm_compute. reflexivity.
Defined.

(** X15.  The error of the result. For a finite value that is not
    negative and a bound of at least 1 on the denominator, the error of
    the returned fraction, as the code computes it ([fabs(b/c - f0)] in
    double precision, [f0] the fractional part of the value), is a
    finite number that is at most [f0] and at most [1 - f0]: the
    fraction is at least as near to the fractional part as the nearer of
    0 and 1, and its error is at most one half. *)
Theorem error_bound value D out0 :
  valid value -> nonneg_finite value -> 1 <= D ->
  exists r, rational_approximation value D out0 = Some r
    /\ let f0 := fst (modf value) in
       let err := cand_err f0 (rb r) (rc r) in
       is_finite err = true
       /\ (0 <= B2R err)%R /\ (B2R err <= B2R f0)%R /\ (B2R err <= 1 - B2R f0)%R
       /\ (B2R err <= / 2)%R.
Proof.
  intros Hv Hn HD.
  destruct (rational_approximation_total value D out0) as [r Er].
  exists r. split; [exact Er|]. cbv zeta.
  unfold rational_approximation in Er.
  assert (Hz : forall s, is_finite (cand_err (S754_zero s) 0 1) = true
                         /\ B2R (cand_err (S754_zero s) 0 1) = 0%R).
  { intros s. destruct s; split; reflexivity. }
  destruct value as [s|s| |s m e]; try contradiction.
  - cbn [modf fst] in *. rewrite expand_zero in Er. injection Er as <-. cbn [rb rc].
    destruct (Hz s) as [-> ->]. cbn [B2R]. split; [reflexivity|]. repeat split; lra.
  - simpl in Hn. subst s. apply valid_finite in Hv. destruct Hv as [Hc He].
    pose proof (modf_frac_pos m e Hc) as Hf. cbv zeta in Hf.
    destruct (modf (S754_finite false m e)) as [f0 af]. cbn [fst] in *. cbn [rb rc ra] in Er.
    destruct Hf as [->|(m0 & e0 & -> & Hc0 & HF1)].
    + rewrite expand_zero in Er. injection Er as <-. cbn [rb rc].
      destruct (Hz false) as [-> ->]. cbn [B2R]. split; [reflexivity|]. repeat split; lra.
    + destruct (expand 100 _ D _) as [bs|] eqn:Eb; [|discriminate]. injection Er as <-.
      cbn [rb rc]. destruct (best_error m0 e0 D bs Hc0 HF1 HD Eb) as (Ed & v & [Hr Hlt] & H1 & H2).
      rewrite <- Ed. destruct (rounds_to_B2R _ _ _ Hr Hlt) as (F & _ & B).
      rewrite B, B2R_pos. pose proof (rounds_to_nonneg _ _ Hr).
      split; [assumption|]. repeat split; lra.
Qed.

(** X15 at 14.2. *)
Lemma error_bound_witness :
  exists r,
    rational_approximation (fdiv (of_Z 142) (of_Z 10)) SI5351_MAX_DENOMINATOR (Ratio 0 0 0)
      = Some r
    /\ let f0 := fst (modf (fdiv (of_Z 142) (of_Z 10))) in
       let err := cand_err f0 (rb r) (rc r) in
       is_finite err = true
       /\ (0 <= B2R err)%R /\ (B2R err <= B2R f0)%R /\ (B2R err <= 1 - B2R f0)%R
       /\ (B2R err <= / 2)%R.
Proof.
  apply (error_bound (fdiv (of_Z 142) (of_Z 10)) SI5351_MAX_DENOMINATOR (Ratio 0 0 0)).
  - vm_compute. reflexivity.
  - vm_compute. reflexivity.
  - vm_compute. discriminate.
Defined.

(** ** More on the loop of the first scenario *)

(** X5.  The first scenario visits its first divider. For a pre-divided
    clock that is a finite number of at least 1 MHz and a first divider
    that passed its test, the VCO frequency of the first divider is at
    least 600 MHz: the loop does not leave at once, and the first event
    of the scenario, a plan or a rejection, is about that divider. *)
Theorem first_candidate_visited junk_out e :
  valid (r_clk0 e) -> is_finite (r_clk0 e) = true ->
  flt (r_clk0 e) (of_Z 1000000) = false ->
  4 <= initial_output_ms e <= 900 ->
  fle SI5351_MIN_VCO_FREQ (f_vco_a e (initial_output_ms e)) = true
  /\ exists ev evs,
       scenario_a junk_out e = (ev :: evs, None)
       /\ candidate_of ev = [initial_output_ms e].
Proof.
  intros Hv Hf Hl Hc0.
  apply flt_of_Z_r_false in Hl; [|assumption|assumption|lia].
  destruct (finite_positive _ Hv Hf ltac:(lra)) as (m & em & Er & C & E).
  rewrite Er, B2R_pos in Hl.
  destruct max_vco_eq as (mM & eM & EM & CM & VM).
  set (t := to_uint32 (fdiv SI5351_MAX_VCO_FREQ (r_clk0 e))).
  assert (Ht : 0 <= t <= 1000).
  { unfold t. rewrite EM, Er.
    apply (fdiv_uint32_bounds mM eM m em 0 1000 1000); try assumption; try lia.
    - apply (representable_Z 1000). lia.
    - lra.
    - rewrite VM. lra.
    - rewrite VM. lra. }
  assert (Hup : (1000000000 < IZR (t + 1) * F2R (Zpos m) em)%R).
  { unfold t. rewrite EM, Er. rewrite <- VM.
    apply (fdiv_floor_upper mM eM m em 1000); try assumption.
    - apply (representable_Z 1000). lia.
    - apply IZR_lt. lia.
    - rewrite VM. lra. }
  destruct (even_part t ltac:(lia)) as (Eu & Ev & Hb2).
  assert (Ei : initial_output_ms e = t - t mod 2) by (unfold initial_output_ms; exact Eu).
  set (c0 := initial_output_ms e) in *.
  assert (Hfirst : flt (f_vco_a e c0) SI5351_MIN_VCO_FREQ = false).
  { unfold f_vco_a. rewrite Er. apply fmul_ge; [assumption|lia|lia|].
    assert (Hle : (IZR (t + 1) <= IZR c0 + 2)%R).
    { rewrite <- (plus_IZR c0 2). apply IZR_le. lia. }
    assert (H4 : (4 <= IZR c0)%R) by (apply IZR_le; lia).
    pose proof (F2R_pos (Zpos m) em ltac:(lia)).
    destruct (Rle_lt_dec (F2R (Zpos m) em) 200000000); nra. }
  split.
  { apply fle_of_not_flt; [|apply min_vco_not_nan|exact Hfirst].
    unfold f_vco_a. rewrite Er. apply fmul_pos_not_nan; [assumption|lia]. }
  unfold scenario_a. fold c0.
  replace (c0 <? 4) with false by (symmetry; apply Z.ltb_ge; lia).
  replace (900 <? c0) with false by (symmetry; apply Z.ltb_ge; lia).
  cbn [orb].
  destruct (scenario_a_loop_run junk_out e (loop_fuel c0) c0 ltac:(lia)
              ltac:(unfold loop_fuel; lia)) as (evs & n & El & _).
  rewrite El.
  assert (Es : stops_a e c0 = false).
  { unfold stops_a. rewrite Hfirst.
    replace (c0 <? 4) with false by (symmetry; apply Z.ltb_ge; lia). reflexivity. }
  unfold loop_fuel in El. rewrite Nat.add_1_r in El.
  destruct (scenario_a_turn _ _ _ _ _ El Es) as (rest & _ & [[_ ->]|(_ & ev & Hp & ->)]).
  - eexists _, rest. split; reflexivity.
  - exists ev, rest. split; [reflexivity|].
    destruct (plan_a_total junk_out e c0) as (ev' & Hp' & Hc). congruence.
Qed.

(** X5 for a reference of 25 MHz and a clock of 14.2 MHz. *)
Lemma first_candidate_visited_witness :
  fle SI5351_MIN_VCO_FREQ (f_vco_a env_25_14 (initial_output_ms env_25_14)) = true
  /\ exists ev evs,
       scenario_a (Ratio 0 0 0) env_25_14 = (ev :: evs, None)
       /\ candidate_of ev = [initial_output_ms env_25_14].
Proof.
  apply (first_candidate_visited (Ratio 0 0 0) env_25_14).
  - vm_compute. reflexivity.
  - vm_compute. reflexivity.
  - vm_compute. reflexivity.
  - vm_compute. split; discriminate.
Defined.

(** X7.  The rejections of the first scenario. For a divided reference
    that is a positive finite number of at most 40 MHz, as [setup]
    leaves it, and a pre-divided clock that is a finite number, every
    rejection of the first scenario is for a feedback ratio above 90: a
    ratio below 15, the other half of the test, never occurs, since a
    VCO frequency of at least 600 MHz over at most 40 MHz is at least
    15. *)
Theorem rejections_above_band junk_out e evs :
  valid (xtal e) -> is_finite (xtal e) = true -> flt (S754_zero false) (xtal e) = true ->
  flt (of_Z 40000000) (xtal e) = false ->
  valid (r_clk0 e) -> is_finite (r_clk0 e) = true ->
  scenario_a junk_out e = (evs, None) ->
  forall fb o fv, In (RejectedFeedback fb o fv) evs ->
  fb = feedback_ms_a e o /\ fv = f_vco_a e o
  /\ flt fb (of_Z 15) = false /\ flt (of_Z 90) fb = true.
Proof.
  intros Vx Fx Px Ux Vr Fr Hs fb o fv Hin.
  unfold scenario_a in Hs.
  destruct ((initial_output_ms e <? 4) || (900 <? initial_output_ms e)); [discriminate|].
  destruct (scenario_a_loop junk_out _ e (initial_output_ms e)) as [evs'|] eqn:El;
    [|discriminate].
  injection Hs as <-.
  destruct (scenario_a_events _ _ _ _ _ _ (initial_output_ms_range e) El Hin)
    as (o' & Ho & Hst & [[Hob Hev]|[Hob Hp]]).
  - injection Hev as -> -> ->.
    pose proof (feedback_not_below e o' Vx Fx Px Ux Vr Fr Ho Hst) as H15.
    unfold out_of_band in Hob. rewrite H15 in Hob. cbn [orb] in Hob.
    repeat split; assumption.
  - exfalso. unfold plan_a in Hp.
    destruct (rational_approximation _ _ _); [|discriminate].
    destruct (additional_clocks _ _ _ _); discriminate.
Qed.

(** X7 for a reference and a clock of 10 MHz, where the first
    dividers have a feedback ratio above 90. *)
Lemma rejections_above_band_witness :
  let e := Env (of_Z 10000000) (of_Z 10000000) 1
             (parse_clks (fun _ => S754_nan) [of_Z 10000000]) 1 (of_Z 10000000) 0 in
  Forall (fun ev =>
            match ev with
            | RejectedFeedback fb o fv =>
                fb = feedback_ms_a e o /\ fv = f_vco_a e o
                /\ flt fb (of_Z 15) = false /\ flt (of_Z 90) fb = true
            | _ => True
            end)
         (fst (scenario_a (Ratio 0 0 0) e)).
Proof.
  intros e. apply Forall_forall. intros ev Hin. destruct ev; try exact I.
  apply (rejections_above_band (Ratio 0 0 0) e (fst (scenario_a (Ratio 0 0 0) e))).
  - vm_compute. reflexivity.
  - vm_compute. reflexivity.
  - vm_compute. reflexivity.
  - vm_compute. reflexivity.
  - vm_compute. reflexivity.
  - vm_compute. reflexivity.
  - vm_compute. reflexivity.
  - exact Hin.
Defined.

(** ** Parity of the candidates *)

(** X19.  The fraction is never reducible by 2. Whatever the value and
    the bound, every pair [(hm, km)] that the scan computes an error for
    has [hm] or [km] odd, and so has the returned pair [(b, c)]: the
    determinant of two successive convergents stays odd, also where the
    32-bit arithmetic of the code wraps around. *)
Theorem never_both_even value D out0 :
  (forall c, In c (scanned value D) -> Z.odd (fst c) = true \/ Z.odd (snd c) = true)
  /\ exists r, rational_approximation value D out0 = Some r
       /\ (Z.odd (rb r) = true \/ Z.odd (rc r) = true).
Proof.
  assert (Hall : forall c, In c (scanned value D) ->
                           Z.odd (fst c) = true \/ Z.odd (snd c) = true).
  { unfold scanned. apply expand_cands_odd. reflexivity. }
  split; [exact Hall|].
  destruct (rational_approximation_total value D out0) as [r Er].
  exists r. split; [exact Er|].
  unfold rational_approximation in Er. unfold scanned in Hall.
  destruct (modf value) as [f0 af]. cbn [fst] in Hall. cbn [ra rb rc] in Er.
  destruct (expand 100 f0 D _) as [bs|] eqn:E; [|discriminate]. injection Er as <-.
  cbn [rb rc]. apply expand_fold in E. rewrite E.
  apply (improve_all_keeps (fun b c => Z.odd b = true \/ Z.odd c = true));
    [right; reflexivity|exact Hall].
Qed.

(** ** The VCO range of the first scenario *)

(** X6.  The VCO range of the first scenario. For a pre-divided clock of
    at least 1 MHz and a first divider that passed its test, the
    dividers the loop goes through lie between 4 and 900 and each has a
    VCO frequency, as the code computes it, that is a finite number of
    at least 600 MHz and below 1 GHz + 1 Hz: the upper end of the range,
    which the loop never tests, holds by the choice of the first
    divider, up to the rounding of the quotient it comes from. *)
Theorem vco_window_a junk_out e :
  valid (r_clk0 e) -> flt (r_clk0 e) (of_Z 1000000) = false ->
  4 <= initial_output_ms e <= 900 ->
  exists evs n,
    scenario_a junk_out e = (evs, None)
    /\ candidates evs = descending (initial_output_ms e) n
    /\ forall c, In c (candidates evs) ->
         4 <= c <= 900
         /\ is_finite (f_vco_a e c) = true
         /\ (600000000 <= B2R (f_vco_a e c) < 1000000001)%R.
Proof.
  intros Hv Hl Hc0.
  destruct (scenario_a_clock (r_clk0 e) Hv Hl ltac:(apply Hc0))
    as (m & ex & Er & Hc & HR & t & Et & Ht & Eu).
  assert (Ei : initial_output_ms e = t - t mod 2).
  { unfold initial_output_ms. rewrite Eu. apply even_part. lia. }
  pose proof (Z.mod_pos_bound t 2 ltac:(lia)) as Hm.
  assert (H6 : (1000000 <= F2R (Zpos m) ex)%R).
  { rewrite Er in Hl, Hv. rewrite <- B2R_pos.
    apply (flt_of_Z_r_false _ 1000000 Hv eq_refl); [lia|exact Hl]. }
  destruct (scenario_a_loop_run junk_out e (loop_fuel (initial_output_ms e))
              (initial_output_ms e) ltac:(lia) ltac:(unfold loop_fuel; lia))
    as (evs & n & El & Hcs & Hvis & _).
  exists evs, n. unfold scenario_a.
  replace (initial_output_ms e <? 4) with false by (symmetry; apply Z.ltb_ge; lia).
  replace (900 <? initial_output_ms e) with false by (symmetry; apply Z.ltb_ge; lia).
  cbn [orb]. rewrite El. split; [reflexivity|]. split; [assumption|].
  intros c Hin. rewrite Hcs in Hin.
  destruct (in_descending _ _ _ Hin) as (i & Hi & ->).
  specialize (Hvis i Hi). unfold stops_a in Hvis. apply orb_false_iff in Hvis.
  destruct Hvis as [H4 Hf]. apply Z.ltb_ge in H4. split; [lia|].
  destruct (vco_upper m ex (initial_output_ms e - 2 * Z.of_nat i) Hc (conj H6 HR))
    as (F & V & U).
  { cbv zeta. rewrite <- Er, Eu. lia. }
  unfold f_vco_a in *. rewrite Er in *. split; [exact F|]. split; [|exact U].
  apply (flt_of_Z_r_false _ 600000000 V F); [lia|exact Hf].
Qed.

(** X6 for a reference of 25 MHz and a clock of 14.2 MHz. *)
Lemma vco_window_a_witness :
  exists evs n,
    scenario_a (Ratio 0 0 0) env_25_14 = (evs, None)
    /\ candidates evs = descending (initial_output_ms env_25_14) n
    /\ forall c, In c (candidates evs) ->
         4 <= c <= 900
         /\ is_finite (f_vco_a env_25_14 c) = true
         /\ (600000000 <= B2R (f_vco_a env_25_14 c) < 1000000001)%R.
Proof.
  apply (vco_window_a (Ratio 0 0 0) env_25_14).
  - vm_compute. reflexivity.
  - vm_compute. reflexivity.
  - vm_compute. split; discriminate.
Defined.

(** ** The plans of the second scenario *)

(** X11.  The plans of the second scenario. For a divided reference
    between 10 MHz and 40 MHz and a pre-divided clock of at least 1 MHz,
    both finite numbers, every plan of the second scenario holds the
    output ratio of its feedback divider, the VCO frequency over the
    pre-divided clock, and the triple [(a, b, c)] that
    [rational_approximation] returns for it: [a] is the integer part of
    the ratio, 1000 at most; [c] is between 1 and 1 048 575; [b] is 0 or
    1 with [c = 1], or [0 < b < c]. *)
Theorem plan_b_ratio junk_out e :
  valid (xtal e) -> is_finite (xtal e) = true ->
  flt (xtal e) (of_Z 10000000) = false -> flt (of_Z 40000000) (xtal e) = false ->
  valid (r_clk0 e) -> is_finite (r_clk0 e) = true ->
  flt (r_clk0 e) (of_Z 1000000) = false ->
  forall fb out r pll clk0 flag diff ls,
  In (PlanB fb out r pll clk0 flag diff ls) (fst (scenario_b junk_out e)) ->
  out = fdiv (f_vco_b e fb) (r_clk0 e)
  /\ rational_approximation out SI5351_MAX_DENOMINATOR junk_out = Some r
  /\ trunc out = Some (ra r) /\ 0 <= ra r <= 1000
  /\ (IZR (ra r) <= B2R out < IZR (ra r) + 1)%R
  /\ 1 <= rc r <= SI5351_MAX_DENOMINATOR
  /\ ((rb r = 0 /\ rc r = 1) \/ (rb r = 1 /\ rc r = 1) \/ 0 < rb r < rc r).
Proof.
  intros Vx Fx Lx Ux Vr Fr Lr fb out r pll clk0 flag diff ls Hin.
  apply flt_of_Z_r_false in Lx; [|assumption|assumption|lia].
  apply flt_of_Z_l_false in Ux; [|assumption|assumption|lia].
  apply flt_of_Z_r_false in Lr; [|assumption|assumption|lia].
  destruct (finite_positive _ Vx Fx ltac:(lra)) as (mx & ex & Ex & Cx & _).
  destruct (finite_positive _ Vr Fr ltac:(lra)) as (mr & er & Er & Cr & _).
  rewrite Ex, B2R_pos in Lx, Ux. rewrite Er, B2R_pos in Lr.
  destruct (scenario_b_run junk_out e mx ex Ex Cx (conj Lx Ux))
    as (_ & _ & evs & n & Es & _ & Hcs & Hall & _).
  rewrite Es in Hin. cbn [fst] in Hin.
  assert (Hfb : In fb (feedbacks evs)).
  { unfold feedbacks. apply in_flat_map. eexists. split; [exact Hin|]. left. reflexivity. }
  destruct (Hall fb Hfb) as (_ & H16 & Ff & Lf & Uf).
  assert (El : exists fuel c, scenario_b_loop junk_out fuel e c = Some evs).
  { unfold scenario_b in Es. destruct (_ <? 16); [discriminate|].
    destruct (_ && _); [discriminate|].
    destruct (scenario_b_loop junk_out _ e _) as [evs0|] eqn:E0; [|discriminate].
    injection Es as <-. eexists _, _. exact E0. }
  destruct El as (fuel & c & El).
  destruct (scenario_b_events _ _ _ _ _ _ El Hin) as (o & Hp).
  unfold plan_b in Hp.
  destruct (rational_approximation (fdiv (f_vco_b e o) (r_clk0 e)) _ _) as [r0|] eqn:Era;
    [|discriminate].
  destruct (additional_clocks junk_out e _ (clock_indices e)) as [ls0|]; [|discriminate].
  injection Hp as <- <- <- <- <- <- <- <-.
  split; [reflexivity|]. split; [exact Era|].
  (* the output ratio is a finite number of at most 1000.5 *)
  assert (Vf : valid (f_vco_b e o)).
  { unfold f_vco_b. rewrite Ex.
    destruct (of_Z_u32 o ltac:(lia)) as (mo & eo & -> & Co & _).
    destruct (fmul_spec false false mx ex mo eo Cx Co) as (v & Hr & _).
    eapply rounds_to_valid. exact Hr. }
  destruct (finite_positive _ Vf Ff ltac:(lra)) as (mf & ef & Ef & Cf & _).
  rewrite Ef, B2R_pos in Lf, Uf. rewrite Ef, Er in *.
  destruct (fdiv_pos_spec mf ef mr er Cf Cr) as (v & Hr & _ & Tup).
  assert (Hv : (v <= 2001 / 2)%R).
  { assert (Hrep : representable (2001 / 2)).
    { replace (2001 / 2)%R with (F2R 2001 (-1)).
      - apply representable_of; [lia|]. vm_compute. discriminate.
      - unfold F2R. replace (bpow (-1)) with (/ 2)%R; [lra|].
        assert (H : (bpow (-1) * 2 = 1)%R).
        { rewrite <- bpow_1, <- bpow_add. reflexivity. }
        lra. }
    destruct Hrep as (u & eu & Cu & Vu). rewrite <- Vu. apply Tup; [assumption|].
    rewrite Vu. apply Rdiv_le; lra. }
  destruct Hr as [[E0 _]|[(m2 & e2 & E2 & C2 & L2 & V2)|[_ Hinf]]].
  - rewrite E0 in *. rewrite ratio_of_zero in Era. injection Era as <-.
    cbn [ra rb rc trunc B2R]. unfold SI5351_MAX_DENOMINATOR.
    split; [reflexivity|]. split; [lia|]. split; [simpl; lra|]. split; [lia|].
    left. split; reflexivity.
  - rewrite E2 in *.
    pose proof (floor_of_spec (Zpos m2) e2 ltac:(lia)) as [Fl Fu].
    pose proof (floor_of_nonneg (Zpos m2) e2 ltac:(lia)) as F0.
    rewrite plus_IZR in Fu.
    assert (Hfl : floor_of (Zpos m2) e2 <= 1000).
    { assert (H : (IZR (floor_of (Zpos m2) e2) < IZR 1001)%R) by lra.
      apply lt_IZR in H. lia. }
    destruct (ratio_of_positive m2 e2 SI5351_MAX_DENOMINATOR junk_out C2 ltac:(lia)
                ltac:(unfold SI5351_MAX_DENOMINATOR; lia)) as (r' & Er' & Ea & Hrc & Hsh).
    rewrite Er' in Era. injection Era as <-. rewrite Ea, B2R_pos.
    split; [reflexivity|]. split; [lia|]. split; [lra|]. split; [assumption|exact Hsh].
  - exfalso. pose proof (bpow_lt 11 1024 ltac:(lia)) as Hb. rewrite (bpow_IZR 11) in Hb by lia.
    change (2 ^ 11) with 2048 in Hb. lra.
Qed.

(** X11 for a reference of 25 MHz and a clock of 14.2 MHz. *)
Lemma plan_b_ratio_witness :
  Forall (fun ev =>
            match ev with
            | PlanB fb out r pll clk0 flag diff ls =>
                out = fdiv (f_vco_b env_25_14 fb) (r_clk0 env_25_14)
                /\ rational_approximation out SI5351_MAX_DENOMINATOR (Ratio 0 0 0) = Some r
                /\ trunc out = Some (ra r) /\ 0 <= ra r <= 1000
                /\ (IZR (ra r) <= B2R out < IZR (ra r) + 1)%R
                /\ 1 <= rc r <= SI5351_MAX_DENOMINATOR
                /\ ((rb r = 0 /\ rc r = 1) \/ (rb r = 1 /\ rc r = 1) \/ 0 < rb r < rc r)
            | _ => True
            end)
         (fst (scenario_b (Ratio 0 0 0) env_25_14)).
Proof.
  apply Forall_forall. intros ev Hin. destruct ev; try exact I.
  apply (plan_b_ratio (Ratio 0 0 0) env_25_14)
    with (pll := actual_pll_freq) (clk0 := actual_clk0) (flag := flag)
         (diff := clk0_diff) (ls := others).
  - vm_compute. reflexivity.
  - vm_compute. reflexivity.
  - vm_compute. reflexivity.
  - vm_compute. reflexivity.
  - vm_compute. reflexivity.
  - vm_compute. reflexivity.
  - vm_compute. reflexivity.
  - exact Hin.
Defined.

(** ** A bound of zero on the denominator *)

(** X18.  A bound of zero. With [max_denominator = 0] no pair is ever
    taken, whatever the value: the scan leaves on the first denominator
    above 0, and a pair with the denominator 0 has an error that is an
    infinity or a NaN, which is below no other. The result is the
    integer part with [b = 0] and [c = 1], a denominator above the
    bound. *)
Theorem zero_bound value out0 :
  rational_approximation value 0 out0
  = Some (Ratio (to_uint32 (snd (modf value))) 0 1).
Proof.
  destruct (rational_approximation_total value 0 out0) as [r Er]. rewrite Er.
  unfold rational_approximation in Er.
  destruct (modf value) as [f0 af]. cbn [snd]. cbn [ra rb rc] in Er.
  destruct (expand 100 f0 0 _) as [bs|] eqn:E; [|discriminate]. injection Er as <-.
  apply expand_fold in E. cbn [cf_best] in E.
  rewrite improve_all_zero_den in E.
  - rewrite E. reflexivity.
  - intros c Hin. destruct (expand_cands_le _ _ _ _ _ Hin) as (H1 & H2 & H3).
    split; [assumption|lia].
Qed.

(** ** Fractions that are a power of two *)

(** X16.  A fraction that is a power of two. For a value whose
    fractional part is [1/2^k] with [k] from 1 to 16, and a bound of at
    least [2^k] on the denominator, the result is the integer part with
    [b = 1] and [c = 2^k]: the fraction itself, found by the first pass
    with an error of zero. (From [k = 17] on the fractional part is not
    above [epsilon] and is dropped.) *)
Theorem unit_fraction_exact value D out0 k :
  1 <= k <= 16 -> 2 ^ k <= D ->
  fst (modf value) = pow2 (- k) ->
  rational_approximation value D out0
  = Some (Ratio (to_uint32 (snd (modf value))) 1 (2 ^ k)).
Proof.
  intros Hk HD Hf.
  assert (H2k : 2 ^ k <= 2 ^ 16) by (apply Z.pow_le_mono_r; lia).
  change (2 ^ 16) with 65536 in H2k.
  assert (Hp : 0 < 2 ^ k) by (apply Z.pow_pos_nonneg; lia).
  unfold rational_approximation. destruct (modf value) as [f0 af]. cbn [fst snd] in *.
  subst f0. cbn [ra rb rc].
  change 100%nat with (S 99). cbn [expand cf_f cf_best].
  rewrite fle_pow2_epsilon by assumption.
  unfold expand_step. cbn [cf_f cf_h0 cf_h1 cf_k0 cf_k1 cf_best].
  change (of_Z 1) with (of_Z (2 ^ 0)). rewrite (of_Z_pow2 0) by lia.
  rewrite fdiv_pow2 by lia. replace (0 - - k) with k by lia.
  rewrite <- (of_Z_pow2 k) by lia. rewrite modf_of_Z by lia.
  rewrite to_uint32_of_Z by lia.
  change (2 ^ k mod 2 ^ 32) with (u32 (2 ^ k)).
  assert (Eu : u32 (2 ^ k) = 2 ^ k) by (unfold u32; apply Z.mod_small; lia).
  rewrite Eu.
  assert (Eu2 : u32 (2 ^ k + 1) = 2 ^ k + 1) by (unfold u32; apply Z.mod_small; lia).
  rewrite Eu2.
  assert (Ehalf : (2 ^ k + 1) / 2 = 2 ^ (k - 1)).
  { replace (2 ^ k) with (2 ^ (k - 1) * 2).
    - rewrite Z.div_add_l by lia. change (1 / 2) with 0. lia.
    - rewrite Z.mul_comm, <- Z.pow_succ_r by lia. f_equal. lia. }
  rewrite Ehalf.
  assert (Hh : 0 < 2 ^ (k - 1)) by (apply Z.pow_pos_nonneg; lia).
  assert (Hh2 : 2 ^ k = 2 * 2 ^ (k - 1)).
  { rewrite <- (Z.pow_succ_r 2 (k - 1)) by lia. f_equal. lia. }
  rewrite (scan_unit k D Hk HD (Z.to_nat (2 ^ (k - 1)))); cycle 1.
  - lia.
  - lia.
  - reflexivity.
  - unfold scan_fuel. lia.
  - change 99%nat with (S 98). cbn [expand cf_f cf_best fst snd].
    change (fle (S754_zero false) epsilon) with true. reflexivity.
Qed.

(** X16 at 24.125, with k = 3. *)
Lemma unit_fraction_exact_witness :
  rational_approximation (fdiv (of_Z 193) (of_Z 8)) SI5351_MAX_DENOMINATOR (Ratio 0 0 0)
  = Some (Ratio (to_uint32 (snd (modf (fdiv (of_Z 193) (of_Z 8))))) 1 (2 ^ 3)).
Proof.
  apply (unit_fraction_exact (fdiv (of_Z 193) (of_Z 8)) SI5351_MAX_DENOMINATOR
           (Ratio 0 0 0) 3).
  - lia.
  - vm_compute. discriminate.
  - vm_compute. reflexivity.
Defined.
